(** * Document-Analysis: ingestion pipeline and conversation orchestrator

    A shallow embedding of the TypeScript sources

    - [lib/text/sanitize.ts]       ([sanitizeForPostgresText])
    - [lib/safety/redact.ts]       ([redactPII])
    - [lib/ocr/ocr.ts]             ([extractTextFromFile])
    - [lib/llm/schemaDiscovery.ts] ([discoverSchemaAndExtract])
    - [lib/vector/embed.ts]        ([embedAndStore])
    - [app/api/ingest/route.ts]    ([POST], here [Ingest.POST])
    - [app/api/chat/route.ts]      ([POST], here [Chat.POST])

    Strings are sequences of UTF-16 code units, as in JavaScript.  The
    relational store is explicit state; every call that leaves the process
    (store, completion service, embedding service, text extraction) is
    answered by an oracle record and logged in a trace. *)

From Stdlib Require Import NArith ZArith QArith Lia Ascii String.
From stdpp Require Import base option list strings gmap.

Set Default Proof Using "Type".

(** ** JavaScript strings *)

Definition code_unit := N.
Definition jsstring := list code_unit.

(** An ASCII literal as a JavaScript string. *)
Definition js (s : string) : jsstring :=
  List.map N_of_ascii (list_ascii_of_string s).

Definition jsstring_eqb (a b : jsstring) : bool := bool_decide (a = b).

(** [s.length], and [s.slice(0, n)] (the same as [s.substring(0, n)]). *)
Definition str_length (s : jsstring) : N := N.of_nat (length s).
Definition slice0 (n : N) (s : jsstring) : jsstring := firstn (N.to_nat n) s.

Definition in_range (lo hi c : code_unit) : bool := ((lo <=? c) && (c <=? hi))%N.
Arguments in_range (lo hi c)%_N.

(** [s.startsWith(p)] *)
Fixpoint startsWith (p s : jsstring) : bool :=
  match p, s with
  | [], _ => true
  | _ :: _, [] => false
  | a :: p', b :: s' => (a =? b)%N && startsWith p' s'
  end.

(** [s.endsWith(p)] *)
Definition endsWith (p s : jsstring) : bool := startsWith (rev p) (rev s).

(** [s.includes(q)]: [q] occurs in [s] as a contiguous run. *)
Fixpoint includes (q s : jsstring) : bool :=
  startsWith q s ||
  match s with
  | [] => false
  | _ :: s' => includes q s'
  end.

(** [s.split(sep)] for a one-code-unit separator; the result is never empty. *)
Fixpoint split_on (sep : code_unit) (s : jsstring) : list jsstring :=
  match s with
  | [] => [[]]
  | c :: s' =>
      if (c =? sep)%N then [] :: split_on sep s'
      else match split_on sep s' with
           | [] => [[c]]
           | w :: ws => (c :: w) :: ws
           end
  end.

(** [parts.join(sep)] *)
Fixpoint join (sep : jsstring) (parts : list jsstring) : jsstring :=
  match parts with
  | [] => []
  | [w] => w
  | w :: ws => w ++ sep ++ join sep ws
  end.

(** ECMAScript WhiteSpace and LineTerminator code points, the ones
    [String.prototype.trim] strips. *)
Definition is_trimmed_code_unit (c : code_unit) : bool :=
  (in_range 9 13 c || (c =? 32) || (c =? 160) || (c =? 5760)
   || in_range 8192 8202 c || (c =? 8232) || (c =? 8233) || (c =? 8239)
   || (c =? 8287) || (c =? 12288) || (c =? 65279))%N.

Fixpoint trimStart (s : jsstring) : jsstring :=
  match s with
  | [] => []
  | c :: s' => if is_trimmed_code_unit c then trimStart s' else s
  end.

Definition trimEnd (s : jsstring) : jsstring := rev (trimStart (rev s)).

Definition trim (s : jsstring) : jsstring := trimEnd (trimStart s).

(** ** lib/text/sanitize.ts *)

(** [/\u0000/] *)
Definition is_NUL (c : code_unit) : bool := (c =? 0)%N.

(** [/[\u0001-\u0008\u000B\u000C\u000E-\u001F]/] *)
Definition is_stripped_control (c : code_unit) : bool :=
  (in_range 1 8 c || (c =? 11) || (c =? 12) || in_range 14 31 c)%N.

(** A global replace of a one-character class by the empty string keeps
    exactly the code units outside the class. *)
Definition replace_class_by_empty (cls : code_unit -> bool) (s : jsstring) : jsstring :=
  List.filter (fun c => negb (cls c)) s.

Definition sanitizeForPostgresText (input : jsstring) : jsstring :=
  replace_class_by_empty is_stripped_control
    (replace_class_by_empty is_NUL input).

(** ** lib/safety/redact.ts *)

(** [\d] *)
Definition is_digit (c : code_unit) : bool := in_range 48 57 c.

(** [\w] *)
Definition is_word (c : code_unit) : bool :=
  (in_range 48 57 c || in_range 65 90 c || in_range 97 122 c || (c =? 95))%N.

Definition is_word_at (c : option code_unit) : bool :=
  match c with Some c => is_word c | None => false end.

(** [\b] between the code unit before and the code unit after a position. *)
Definition word_boundary (before after : option code_unit) : bool :=
  xorb (is_word_at before) (is_word_at after).

Definition is_dash (c : code_unit) : bool := (c =? 45)%N.

(** [s] begins with one code unit of each class of [pat], in order; the
    result is the rest of [s] after them. *)
Fixpoint match_classes (pat : list (code_unit -> bool)) (s : jsstring) : option jsstring :=
  match pat with
  | [] => Some s
  | p :: pat' =>
      match s with
      | [] => None
      | c :: s' => if p c then match_classes pat' s' else None
      end
  end.

(** [/\bPAT\b/] tried at one position: [prev] is the code unit before it. *)
Definition bounded_match_at (pat : list (code_unit -> bool))
    (prev : option code_unit) (s : jsstring) : bool :=
  match match_classes pat s with
  | None => false
  | Some rest =>
      word_boundary prev (head s)
      && word_boundary (last (firstn (length pat) s)) (head rest)
  end.

(** [s.replace(/\bPAT\b/g, placeholder)] for a pattern of fixed, non-zero
    length: scan left to right, try the pattern at each position, and
    resume after a match.  [skip] counts the code units of the current
    match that are still to be dropped. *)
Fixpoint replace_bounded (pat : list (code_unit -> bool)) (placeholder : jsstring)
    (prev : option code_unit) (skip : nat) (s : jsstring) : jsstring :=
  match s with
  | [] => []
  | c :: s' =>
      match skip with
      | S k => replace_bounded pat placeholder (Some c) k s'
      | O =>
          if bounded_match_at pat prev s
          then placeholder ++ replace_bounded pat placeholder (Some c) (length pat - 1) s'
          else c :: replace_bounded pat placeholder (Some c) 0 s'
      end
  end.

(** [\d{3}-\d{2}-\d{4}] *)
Definition ssn_pattern : list (code_unit -> bool) :=
  replicate 3 is_digit ++ [is_dash] ++ replicate 2 is_digit ++ [is_dash]
  ++ replicate 4 is_digit.

(** [\d{16}] *)
Definition card_pattern : list (code_unit -> bool) := replicate 16 is_digit.

Definition redactPII (text : jsstring) : jsstring :=
  replace_bounded card_pattern (js "[REDACTED_CARD]") None 0
    (replace_bounded ssn_pattern (js "[REDACTED_SSN]") None 0 text).

(** ** JSON values *)

(** Numbers are the rationals their literals denote. *)
#[warnings="-register-all"] Inductive JSON :=
| JNull
| JBool (b : bool)
| JNumber (q : Q)
| JString (s : jsstring)
| JArray (items : list JSON)
| JObject (members : list (jsstring * JSON)).

(** Own property [k] of an object given by its members. *)
Fixpoint own_member (k : jsstring) (members : list (jsstring * JSON)) : option JSON :=
  match members with
  | [] => None
  | (k', v) :: rest => if jsstring_eqb k k' then Some v else own_member k rest
  end.

(** [a ?? b]: [None] stands for [undefined]. *)
Definition nullish_or (a : option JSON) (b : JSON) : JSON :=
  match a with
  | None | Some JNull => b
  | Some v => v
  end.

(** A string produced by the completion service, recorded by what
    [JSON.parse] makes of it. *)
Inductive wire_text :=
| EmptyText                    (* the empty string *)
| NotJSON (raw : jsstring)     (* non-empty, [JSON.parse] throws a SyntaxError *)
| JSONText (v : JSON).         (* non-empty, [JSON.parse] returns [v] *)

(** ** Results of calls that may throw *)

(** [Thrown m]: a value was thrown; [m] is its [message], when it has one. *)
Inductive outcome (A : Type) :=
| Returned (a : A)
| Thrown (message : option string).
Arguments Returned {A} a.
Arguments Thrown {A} message.

Definition SyntaxError : option string := Some "Unexpected token in JSON"%string.
Definition TypeError : option string := Some "Cannot read properties"%string.

Definition JSON_parse (t : wire_text) : outcome JSON :=
  match t with
  | JSONText v => Returned v
  | EmptyText | NotJSON _ => Thrown SyntaxError
  end.

(** [v.k] for a key [k] that no built-in prototype defines. *)
Definition get_property (v : JSON) (k : jsstring) : outcome (option JSON) :=
  match v with
  | JNull => Thrown TypeError
  | JObject members => Returned (own_member k members)
  | _ => Returned None
  end.

(** ** The relational store *)

Definition vector := list Q.

(** Rows of the three tables.  Columns filled by a database default and
    never read by the two routes ([createdAt]) are left out.  A Document row
    is keyed by its [id] in [documents]. *)
Record Document := {
  filename : jsstring;
  text : jsstring;
  schema : JSON;
  extracted : JSON;
  confidence : JSON;
  status : jsstring;
}.

Record DocumentEmbedding := {
  embedding_id : string;
  embedding_documentId : string;
  embedding_vector : vector;
}.

(** Tool calls of an assistant message (the SDK's union of function and
    custom tool calls). *)
Inductive ToolCall :=
| FunctionToolCall (id : jsstring) (name : jsstring) (arguments : wire_text)
| CustomToolCall (id : jsstring) (name : jsstring) (input : jsstring).

Record ChatMessage := {
  message_id : string;
  message_documentId : string;
  message_role : jsstring;
  message_content : jsstring;
  message_toolCalls : option (list ToolCall);
}.

Record Store := {
  documents : gmap string Document;
  embeddings : list DocumentEmbedding;
  chatMessages : list ChatMessage;
}.

(** ** Messages exchanged with the completion service *)

(** A message of the request body (the client's transcript), with the two
    members the route reads. *)
Record ClientMessage := {
  role : jsstring;
  content : jsstring;
}.

(** [choices[0].message] of a completion. *)
Record AssistantMessage := {
  assistant_content : option jsstring;
  tool_calls : option (list ToolCall);
}.

(** What [JSON.stringify] is applied to, or a literal string. *)
Inductive ToolContent :=
| Stringified (v : JSON)
| Literal (s : jsstring)
| Undefined.

Record ToolResult := {
  tool_call_id : jsstring;
  tool_name : jsstring;
  tool_content : ToolContent;
}.

(** The system message, by the three values its template interpolates. *)
Record SystemMessage := {
  system_excerpt : jsstring;
  system_extracted : JSON;
  system_schema : JSON;
}.

Inductive Message :=
| MsgSystem (m : SystemMessage)
| MsgClient (m : ClientMessage)
| MsgAssistant (m : AssistantMessage)
| MsgTool (r : ToolResult).

(** ** External calls *)

Record File := {
  file_name : jsstring;
  file_type : jsstring;
}.

(** One entry per call that leaves the process. *)
Inductive Event :=
| EvFileText
| EvFileArrayBuffer
| EvExtractText
| EvSchemaCompletion (input : jsstring)
| EvChatCompletion (messages : list Message)
| EvEmbeddingsCreate (input : jsstring)
| EvDocumentCreate
| EvDocumentFindUnique (id : string)
| EvEmbeddingInsert (documentId : string)
| EvNearestQuery (documentId : string)
| EvChatMessageCreate (role : jsstring).

(** The answers of the collaborators, one field per external operation.
    [Thrown] stands for a rejected promise or for a response without the
    member the code reads ([choices[0].message], [data[0].embedding]).  A
    store operation fails when its field says so or when a key constraint
    is violated; a created row gets the key the field generates. *)
Record Services := {
  (* [file.text()], [file.arrayBuffer()], unpdf's [extractText] *)
  file_text : File -> outcome jsstring;
  file_arrayBuffer : File -> outcome unit;
  unpdf_extractText : File -> outcome jsstring;
  (* [openai.chat.completions.create]: the [content] of the first choice
     for schema discovery, the [message] of the first choice for a turn *)
  schema_completion : jsstring -> outcome (option wire_text);
  chat_completion : list Message -> outcome AssistantMessage;
  (* [openai.embeddings.create] *)
  embeddings_create : jsstring -> outcome vector;
  (* the store *)
  document_create_id : outcome string;
  document_findUnique_fault : option (option string);
  embedding_insert_id : outcome string;
  nearest_query_fault : option (option string);
  chatMessage_create_id : jsstring -> outcome string;
}.

(** ** Effects: store and trace survive a throw *)

Record World := {
  store : Store;
  trace : list Event;
}.

Definition Eff (A : Type) : Type := World -> World * outcome A.

#[export] Instance Eff_ret : MRet Eff := fun A a w => (w, Returned a).

#[export] Instance Eff_bind : MBind Eff := fun A B f m w =>
  match m w with
  | (w', Returned a) => f a w'
  | (w', Thrown e) => (w', Thrown e)
  end.

Definition throw {A} (e : option string) : Eff A := fun w => (w, Thrown e).

Definition lift {A} (o : outcome A) : Eff A := fun w => (w, o).

Definition log (ev : Event) : Eff unit := fun w =>
  ({| store := store w; trace := trace w ++ [ev] |}, Returned tt).

(** An external call: logged, then answered by the oracle. *)
Definition call {A} (ev : Event) (answer : outcome A) : Eff A :=
  log ev;; lift answer.

Definition get_store : Eff Store := fun w => (w, Returned (store w)).

Definition put_store (s : Store) : Eff unit := fun w =>
  ({| store := s; trace := trace w |}, Returned tt).

(** [try { m } catch (err) { return h(err) }] *)
Definition try_catch {A} (m : Eff A) (h : option string -> A) : Eff A := fun w =>
  match m w with
  | (w', Returned a) => (w', Returned a)
  | (w', Thrown e) => (w', Returned (h e))
  end.

(** [NextResponse.json(body)] or [NextResponse.json({ error }, { status })]. *)
Inductive Response (A : Type) :=
| Json (body : A)
| JsonError (status : N) (error : string).
Arguments Json {A} body.
Arguments JsonError {A} status error.

(** [err?.message ?? fallback] *)
Definition message_or (fallback : string) (e : option string) : string :=
  match e with Some m => m | None => fallback end.

(** *** Store operations *)

Definition UniqueConstraint : option string := Some "Unique constraint failed"%string.
Definition ForeignKeyConstraint : option string := Some "Foreign key constraint failed"%string.

(** [db.document.create({ data })] *)
Definition db_document_create (svc : Services) (d : Document) : Eff string :=
  id ← call EvDocumentCreate (document_create_id svc);
  s ← get_store;
  match documents s !! id with
  | Some _ => throw UniqueConstraint
  | None =>
      put_store {| documents := <[id := d]> (documents s);
                   embeddings := embeddings s;
                   chatMessages := chatMessages s |};;
      mret id
  end.

(** [db.document.findUnique({ where: { id } })] *)
Definition db_document_findUnique (svc : Services) (id : string) : Eff (option Document) :=
  call (EvDocumentFindUnique id)
    (match document_findUnique_fault svc with
     | Some e => Thrown e
     | None => Returned tt
     end);;
  s ← get_store;
  mret (documents s !! id).

(** [vector(3072)], the column type of [DocumentEmbedding.vector]. *)
Definition EMBEDDING_DIMENSIONS : N := 3072.

Definition DimensionMismatch : option string := Some "different vector dimensions"%string.

(** [INSERT INTO "DocumentEmbedding"(id, "documentId", vector)
     VALUES (gen_random_uuid(), $1, $2)] *)
Definition db_insert_embedding (svc : Services) (docId : string) (v : vector) : Eff unit :=
  id ← call (EvEmbeddingInsert docId) (embedding_insert_id svc);
  s ← get_store;
  if existsb (fun e => bool_decide (embedding_id e = id)) (embeddings s)
  then throw UniqueConstraint
  else if negb (N.of_nat (length v) =? EMBEDDING_DIMENSIONS)%N
  then throw DimensionMismatch
  else match documents s !! docId with
       | None => throw ForeignKeyConstraint
       | Some _ =>
           put_store {| documents := documents s;
                        embeddings := embeddings s ++
                          [{| embedding_id := id;
                              embedding_documentId := docId;
                              embedding_vector := v |}];
                        chatMessages := chatMessages s |}
       end.

(** [db.chatMessage.create({ data })] *)
Definition db_chatMessage_create (svc : Services) (docId : string) (r : jsstring)
    (c : jsstring) (calls : option (list ToolCall)) : Eff unit :=
  id ← call (EvChatMessageCreate r) (chatMessage_create_id svc r);
  s ← get_store;
  if existsb (fun m => bool_decide (message_id m = id)) (chatMessages s)
  then throw UniqueConstraint
  else match documents s !! docId with
       | None => throw ForeignKeyConstraint
       | Some _ =>
           put_store {| documents := documents s;
                        embeddings := embeddings s;
                        chatMessages := chatMessages s ++
                          [{| message_id := id;
                              message_documentId := docId;
                              message_role := r;
                              message_content := c;
                              message_toolCalls := calls |}] |}
       end.

(** ** The ingestion pipeline *)

(** The user message of schema discovery: the text cut to 40,000 code
    units, [input || "(empty)"]. *)
Definition discovery_input (text : jsstring) : jsstring :=
  let input := if (40000 <? str_length text)%N then slice0 40000 text else text in
  match input with [] => js "(empty)" | _ => input end.

Record Discovered := {
  discovered_schema : JSON;
  discovered_extracted : JSON;
  discovered_confidence : JSON;
}.

(** The row written by [db.document.create]. *)
Definition new_document (file : File) (redacted : jsstring) (d : Discovered) : Document :=
  {| filename := file_name file;
     text := redacted;
     schema := discovered_schema d;
     extracted := discovered_extracted d;
     confidence := discovered_confidence d;
     status := js "REVIEW_REQUIRED" |}.

Module Ingest.
Section WithCollaborators.

(** [String.prototype.toLowerCase], a table of the runtime. *)
Variable toLowerCase : jsstring -> jsstring.
Variable svc : Services.

(** lib/ocr/ocr.ts *)
Definition extractTextFromFile (file : File) : Eff jsstring :=
  if startsWith (js "text/") (file_type file)
  then call EvFileText (file_text svc file)
  else
    call EvFileArrayBuffer (file_arrayBuffer svc file);;
    if jsstring_eqb (file_type file) (js "application/pdf")
       || endsWith (js ".pdf") (toLowerCase (file_name file))
    then call EvExtractText (unpdf_extractText svc file)
    else mret [].

(** lib/llm/schemaDiscovery.ts *)
Definition discoverSchemaAndExtract (text : jsstring) : Eff Discovered :=
  let user_content := discovery_input text in
  content ← call (EvSchemaCompletion user_content) (schema_completion svc user_content);
  match content with
  | None | Some EmptyText => throw (Some "LLM returned empty response"%string)
  | Some t =>
      parsed ← lift (JSON_parse t);
      s ← lift (get_property parsed (js "schema"));
      e ← lift (get_property parsed (js "extracted"));
      c ← lift (get_property parsed (js "confidence"));
      mret {| discovered_schema := nullish_or s (JObject []);
              discovered_extracted := nullish_or e (JObject []);
              discovered_confidence := nullish_or c (JObject []) |}
  end.

(** lib/vector/embed.ts *)
Definition embedAndStore (docId : string) (text : jsstring) : Eff unit :=
  embedding ← call (EvEmbeddingsCreate text) (embeddings_create svc text);
  db_insert_embedding svc docId embedding.

(** Steps 1 to 4 of the route: extract, sanitize, redact, discover. *)
Definition steps_1_to_4 (file : File) : Eff (jsstring * Discovered) :=
  rawText ← extractTextFromFile file;
  let cleanText := sanitizeForPostgresText rawText in
  let redacted := redactPII cleanText in
  d ← discoverSchemaAndExtract redacted;
  mret (redacted, d).

(** app/api/ingest/route.ts; [form] is [(await req.formData()).get("file")],
    [None] when it is not a file. *)
Definition POST (form : outcome (option File)) : Eff (Response string) :=
  try_catch
    (file ← lift form;
     match file with
     | None => mret (JsonError 400 "Missing file")
     | Some file =>
         '(redacted, d) ← steps_1_to_4 file;
         doc_id ← db_document_create svc (new_document file redacted d);
         (if (20 <=? str_length (trim redacted))%N
          then embedAndStore doc_id redacted
          else mret tt);;
         mret (Json doc_id)
     end)
    (fun err => JsonError 500 (message_or "Unknown error" err)).

End WithCollaborators.
End Ingest.

(** ** The conversation orchestrator *)

#[export] Instance outcome_ret : MRet outcome := fun A a => Returned a.

#[export] Instance outcome_bind : MBind outcome := fun A B f o =>
  match o with
  | Returned a => f a
  | Thrown e => Thrown e
  end.

(** JavaScript truthiness of a property value ([None] is [undefined]). *)
Definition truthy (v : option JSON) : bool :=
  match v with
  | None | Some JNull => false
  | Some (JBool b) => b
  | Some (JNumber q) => negb (Qeq_bool q 0)
  | Some (JString s) => match s with [] => false | _ => true end
  | Some (JArray _) | Some (JObject _) => true
  end.

(** A canonical array index: ["0"], or decimal digits without a leading zero. *)
Definition parse_index (k : jsstring) : option nat :=
  match k with
  | [] => None
  | c :: rest =>
      if forallb is_digit k
         && implb (c =? 48)%N (match rest with [] => true | _ => false end)
      then Some (N.to_nat (fold_left (fun acc d => acc * 10 + (d - 48))%N k 0%N))
      else None
  end.

(** Own property [key] of [current], for a value on which the walk may
    continue ([current && typeof current === "object"]). *)
Definition own_property (current : JSON) (key : jsstring) : option JSON :=
  match current with
  | JObject members => own_member key members
  | JArray items =>
      if jsstring_eqb key (js "length")
      then Some (JNumber (inject_Z (Z.of_nat (length items))))
      else i ← parse_index key; items !! i
  | _ => None
  end.

Definition is_object (current : JSON) : bool :=
  match current with
  | JObject _ | JArray _ => true
  | _ => false
  end.

(** [e.vector <-> q]: the squares of Euclidean distances, which order rows
    as the distances do; vectors of different dimensions have none. *)
Fixpoint l2_distance_sq (a b : vector) : option Q :=
  match a, b with
  | [], [] => Some 0%Q
  | x :: a', y :: b' =>
      d ← l2_distance_sq a' b'; Some ((x - y) * (x - y) + d)%Q
  | _, _ => None
  end.

(** A row of the nearest-neighbour query. *)
Record RelevantDoc := {
  row_id : string;
  row_text : jsstring;
  row_extracted : JSON;
  row_schema : JSON;
  row_distance_sq : Q;
}.

(** [ORDER BY distance], stable. *)
Fixpoint insert_by_distance (r : RelevantDoc) (rows : list RelevantDoc) : list RelevantDoc :=
  match rows with
  | [] => [r]
  | x :: rows' =>
      if Qle_bool (row_distance_sq r) (row_distance_sq x)
      then r :: rows
      else x :: insert_by_distance r rows'
  end.

Definition order_by_distance (rows : list RelevantDoc) : list RelevantDoc :=
  foldr insert_by_distance [] rows.

(** [FROM "DocumentEmbedding" e JOIN "Document" d ON d.id = e."documentId"
     WHERE d.id = $2], one row per embedding of the document, with its
    distance to [$1]. *)
Fixpoint joined_rows (s : Store) (q : vector) (docId : string)
    (es : list DocumentEmbedding) : outcome (list RelevantDoc) :=
  match es with
  | [] => Returned []
  | e :: es' =>
      match documents s !! embedding_documentId e with
      | Some d =>
          if bool_decide (embedding_documentId e = docId)
          then
            match l2_distance_sq (embedding_vector e) q with
            | None => Thrown DimensionMismatch
            | Some dist =>
                rows ← joined_rows s q docId es';
                mret ({| row_id := embedding_documentId e;
                         row_text := text d;
                         row_extracted := extracted d;
                         row_schema := schema d;
                         row_distance_sq := dist |} :: rows)
            end
          else joined_rows s q docId es'
      | None => joined_rows s q docId es'
      end
  end.

(** [... ORDER BY e.vector <-> $1::vector LIMIT 3] *)
Definition nearest_rows (s : Store) (q : vector) (docId : string) : outcome (list RelevantDoc) :=
  rows ← joined_rows s q docId (embeddings s);
  mret (firstn 3 (order_by_distance rows)).

Module Chat.
Section WithCollaborators.

(** [String.prototype.toLowerCase], a table of the runtime. *)
Variable toLowerCase : jsstring -> jsstring.

(** The prototype chain of the runtime.  [inherited current key rest] is
    consulted when [key] is not an own property of the object or array
    [current]: [None] when [key in current] is false, otherwise what
    [JSON.stringify] makes of the value the walk along [key :: rest]
    ends on. *)
Variable inherited : JSON -> jsstring -> list jsstring -> option ToolContent.

Variable svc : Services.

(** The body of the request, [{ messages, documentId }]: [None] is a
    missing field, or a [messages] that is not an array. *)
Record Body := {
  body_messages : option (list ClientMessage);
  body_documentId : option string;
}.

Record Reply := {
  reply_message : AssistantMessage;
  reply_toolCalls : option (list ToolCall);
}.

Definition db_nearest_query (q : vector) (docId : string) : Eff (list RelevantDoc) :=
  call (EvNearestQuery docId)
    (match nearest_query_fault svc with
     | Some e => Thrown e
     | None => Returned tt
     end);;
  s ← get_store;
  lift (nearest_rows s q docId).

(** [relevantDocs.length > 0 ? relevantDocs[0].text || document.text
                             : document.text] *)
Definition contextText (relevantDocs : list RelevantDoc) (document : Document) : jsstring :=
  match relevantDocs with
  | r :: _ => match row_text r with [] => text document | t => t end
  | [] => text document
  end.

Definition systemMessage (context : jsstring) (document : Document) : SystemMessage :=
  {| system_excerpt :=
       slice0 2000 context ++ (if (2000 <? str_length context)%N then js "..." else []);
     system_extracted := extracted document;
     system_schema := schema document |}.

(** [toolCall.function.arguments || "{}"], parsed. *)
Definition parse_arguments (arguments : wire_text) : outcome JSON :=
  match arguments with
  | EmptyText => Returned (JObject [])
  | _ => JSON_parse arguments
  end.

(** The walk along [fieldPath]. *)
Fixpoint walk_path (current : JSON) (fieldPath : list jsstring) : ToolContent :=
  match fieldPath with
  | [] => Stringified current
  | key :: rest =>
      match own_property current key with
      | Some v => walk_path v rest
      | None =>
          if is_object current
          then match inherited current key rest with
               | Some c => c
               | None => Stringified JNull
               end
          else Stringified JNull
      end
  end.

Definition get_extracted_data (document : Document) (arguments : wire_text)
    : outcome ToolContent :=
  args ← parse_arguments arguments;
  field ← get_property args (js "field");
  if truthy field
  then match field with
       | Some (JString f) => mret (walk_path (extracted document) (split_on 46%N f))
       | _ => Thrown TypeError
       end
  else mret (Stringified (extracted document)).

Definition NO_MATCH : jsstring := js "No matching text found.".

Definition search_document_text (document : Document) (arguments : wire_text)
    : outcome ToolContent :=
  args ← parse_arguments arguments;
  q ← get_property args (js "query");
  query ← match q with
          | None | Some JNull => mret []
          | Some (JString s) => mret (toLowerCase s)
          | Some _ => Thrown TypeError
          end;
  let lines := split_on 10%N (text document) in
  let matchingLines :=
    join [10%N] (firstn 5 (List.filter (fun line => includes query (toLowerCase line)) lines)) in
  mret (Literal (match matchingLines with [] => NO_MATCH | _ => matchingLines end)).

(** The body of the loop over [assistantMessage.tool_calls]. *)
Definition run_tool_call (document : Document) (toolCall : ToolCall)
    (toolResults : list ToolResult) : outcome (list ToolResult) :=
  match toolCall with
  | FunctionToolCall id name arguments =>
      if jsstring_eqb name (js "get_extracted_data")
      then
        result ← get_extracted_data document arguments;
        mret (toolResults ++
              [{| tool_call_id := id; tool_name := name; tool_content := result |}])
      else if jsstring_eqb name (js "search_document_text")
      then
        result ← search_document_text document arguments;
        mret (toolResults ++
              [{| tool_call_id := id; tool_name := name; tool_content := result |}])
      else mret toolResults
  | CustomToolCall _ _ _ => mret toolResults
  end.

Fixpoint run_tool_calls (document : Document) (calls : list ToolCall)
    (toolResults : list ToolResult) : outcome (list ToolResult) :=
  match calls with
  | [] => Returned toolResults
  | toolCall :: calls' =>
      toolResults' ← run_tool_call document toolCall toolResults;
      run_tool_calls document calls' toolResults'
  end.

(** [content || ""] *)
Definition content_or_empty (c : option jsstring) : jsstring :=
  match c with Some s => s | None => [] end.

(** The turn once the document is found and the last message is the
    user's. *)
Definition respond (documentId : string) (document : Document)
    (messages : list ClientMessage) (lastMessage : ClientMessage) : Eff Reply :=
  db_chatMessage_create svc documentId (js "user") (content lastMessage) None;;
  queryEmbedding ← call (EvEmbeddingsCreate (content lastMessage))
                        (embeddings_create svc (content lastMessage));
  relevantDocs ← db_nearest_query queryEmbedding documentId;
  let sys := MsgSystem (systemMessage (contextText relevantDocs document) document) in
  let first_request := sys :: List.map MsgClient messages in
  assistantMessage ← call (EvChatCompletion first_request)
                          (chat_completion svc first_request);
  match tool_calls assistantMessage with
  | Some ((_ :: _) as calls) =>
      toolResults ← lift (run_tool_calls document calls []);
      let final_request :=
        first_request ++ [MsgAssistant assistantMessage] ++ List.map MsgTool toolResults in
      finalMessage ← call (EvChatCompletion final_request)
                          (chat_completion svc final_request);
      db_chatMessage_create svc documentId (js "assistant")
        (content_or_empty (assistant_content finalMessage)) (Some calls);;
      mret {| reply_message := finalMessage; reply_toolCalls := Some calls |}
  | _ =>
      db_chatMessage_create svc documentId (js "assistant")
        (content_or_empty (assistant_content assistantMessage)) None;;
      mret {| reply_message := assistantMessage; reply_toolCalls := None |}
  end.

(** app/api/chat/route.ts; [body] is [await req.json()]. *)
Definition POST (body : outcome Body) : Eff (Response Reply) :=
  try_catch
    (b ← lift body;
     match body_documentId b, body_messages b with
     | Some documentId, Some messages =>
         if bool_decide (documentId = EmptyString)
         then mret (JsonError 400 "Missing documentId or messages")
         else
           document ← db_document_findUnique svc documentId;
           match document with
           | None => mret (JsonError 404 "Document not found")
           | Some document =>
               match last messages with
               | Some lastMessage =>
                   if jsstring_eqb (role lastMessage) (js "user")
                   then reply ← respond documentId document messages lastMessage;
                        mret (Json reply)
                   else mret (JsonError 400 "Last message must be from user")
               | None => mret (JsonError 400 "Last message must be from user")
               end
           end
     | _, _ => mret (JsonError 400 "Missing documentId or messages")
     end)
    (fun err => JsonError 500 (message_or "Unknown error" err)).

End WithCollaborators.
End Chat.

(** ** Notions used to state the properties *)

(** Unicode general category Cc: the C0 controls, DELETE and the C1 controls. *)
Definition is_control_character (c : code_unit) : bool :=
  in_range 0 31 c || in_range 127 159 c.

(** Tab, line feed, carriage return. *)
Definition is_tab_lf_cr (c : code_unit) : bool :=
  ((c =? 9) || (c =? 10) || (c =? 13))%N.

(** The C0 range, U+0000 to U+001F. *)
Definition is_C0 (c : code_unit) : bool := in_range 0 31 c.

(** An empty or non-JSON response of the completion service. *)
Definition empty_or_not_JSON (content : option wire_text) : Prop :=
  content = None \/ content = Some EmptyText \/ exists raw, content = Some (NotJSON raw).

(** The target shape of [extracted] that the system prompt of
    [discoverSchemaAndExtract] asks of the completion service: every key
    present, scalars a string or [null], lists an array. *)
Definition is_string (v : JSON) : bool :=
  match v with JString _ => true | _ => false end.

Definition nullable_string_at (k : string) (members : list (jsstring * JSON)) : bool :=
  match own_member (js k) members with
  | Some JNull | Some (JString _) => true
  | _ => false
  end.

Definition array_at (each : JSON -> bool) (k : string)
    (members : list (jsstring * JSON)) : bool :=
  match own_member (js k) members with
  | Some (JArray items) => forallb each items
  | _ => false
  end.

Definition is_doc_type (v : option JSON) : bool :=
  match v with
  | Some (JString s) =>
      existsb (fun t => jsstring_eqb s (js t))
        ["resume"; "cover_letter"; "invoice"; "unknown"]%string
  | _ => false
  end.

Definition is_person (v : option JSON) : bool :=
  match v with
  | Some (JObject members) =>
      nullable_string_at "name" members && nullable_string_at "email" members
      && nullable_string_at "phone" members && array_at is_string "links" members
  | _ => false
  end.

Definition is_experience_entry (v : JSON) : bool :=
  match v with
  | JObject members =>
      nullable_string_at "company" members && nullable_string_at "title" members
      && nullable_string_at "start_date" members && nullable_string_at "end_date" members
      && array_at is_string "bullets" members
  | _ => false
  end.

Definition is_education_entry (v : JSON) : bool :=
  match v with
  | JObject members =>
      nullable_string_at "school" members && nullable_string_at "degree" members
      && nullable_string_at "field" members
      && nullable_string_at "start_date" members && nullable_string_at "end_date" members
  | _ => false
  end.

Definition has_target_shape (extracted : JSON) : bool :=
  match extracted with
  | JObject members =>
      is_doc_type (own_member (js "doc_type") members)
      && is_person (own_member (js "person") members)
      && nullable_string_at "summary" members
      && array_at is_string "skills" members
      && array_at is_experience_entry "experience" members
      && array_at is_education_entry "education" members
      && array_at is_string "raw_highlights" members
  | _ => false
  end.

(** The external calls of a complete chat turn, in order: the lookup of
    the document, the insert of the user message, the embedding of the
    query, the nearest-neighbour query, the completion calls, the insert of
    the assistant message. *)
Definition turn_calls (documentId : string) (query : jsstring)
    (requests : list (list Message)) : list Event :=
  [EvDocumentFindUnique documentId; EvChatMessageCreate (js "user");
   EvEmbeddingsCreate query; EvNearestQuery documentId]
  ++ List.map EvChatCompletion requests
  ++ [EvChatMessageCreate (js "assistant")].

(** Calls to the embedding service, the retrieval query and the completion
    service. *)
Definition is_service_call (ev : Event) : bool :=
  match ev with
  | EvEmbeddingsCreate _ | EvNearestQuery _ | EvChatCompletion _ => true
  | _ => false
  end.

(** The requests of the completion calls logged in a trace, in order. *)
Fixpoint completion_requests (tr : list Event) : list (list Message) :=
  match tr with
  | [] => []
  | EvChatCompletion req :: tr' => req :: completion_requests tr'
  | _ :: tr' => completion_requests tr'
  end.

(** The tool calls the loop of the orchestrator answers. *)
Definition is_answered (toolCall : ToolCall) : bool :=
  match toolCall with
  | FunctionToolCall _ name _ =>
      jsstring_eqb name (js "get_extracted_data")
      || jsstring_eqb name (js "search_document_text")
  | CustomToolCall _ _ _ => false
  end.

(** The request of the first completion call. *)
Definition first_request (rows : list RelevantDoc) (document : Document)
    (messages : list ClientMessage) : list Message :=
  MsgSystem (Chat.systemMessage (Chat.contextText rows document) document)
  :: List.map MsgClient messages.

(** The system message every completion request of a turn begins with. *)
Definition begins_with_document (document : Document) (request : list Message) : Prop :=
  head request
  = Some (MsgSystem (Chat.systemMessage (text document) document)).

(** [toolCall.id] *)
Definition call_id (toolCall : ToolCall) : jsstring :=
  match toolCall with
  | FunctionToolCall id _ _ | CustomToolCall id _ _ => id
  end.

(** A response that asks for no tool call. *)
Definition no_tool_calls (m : AssistantMessage) : Prop :=
  tool_calls m = None \/ tool_calls m = Some [].

(** An effect that appends ChatMessage rows with the roles [roles], in
    order: all of them when it returns, the first few when it throws. *)
Definition appends {A} (m : Eff A) (roles : list jsstring) : Prop :=
  forall w, exists new,
    chatMessages (store (m w).1) = chatMessages (store w) ++ new
    /\ List.map message_role new `prefix_of` roles
    /\ forall a, (m w).2 = Returned a -> List.map message_role new = roles.

(** ** Sample collaborators, for concrete runs *)

(** Lower-casing of the Basic Latin letters. *)
Definition toLowerCaseASCII (s : jsstring) : jsstring :=
  List.map (fun c => if in_range 65 90 c then (c + 32)%N else c) s.

(** A prototype chain on which no key is found. *)
Definition no_inherited (_ : JSON) (_ : jsstring) (_ : list jsstring) : option ToolContent :=
  None.

Definition empty_store : Store :=
  {| documents := ∅; embeddings := []; chatMessages := [] |}.

Definition empty_world : World := {| store := empty_store; trace := [] |}.

Definition zero_vector : vector := replicate (N.to_nat EMBEDDING_DIMENSIONS) 0%Q.

(** Collaborators that never fail at the store, for an upload with text
    [upload]; the completion service answers schema discovery with
    [discovery], every chat request with [chat], and the embedding service
    answers with [embedding]. *)
Definition sample_services (upload : jsstring) (discovery : outcome (option wire_text))
    (chat : list Message -> outcome AssistantMessage)
    (embedding : outcome vector) : Services :=
  {| file_text := fun _ => Returned upload;
     file_arrayBuffer := fun _ => Returned tt;
     unpdf_extractText := fun _ => Returned upload;
     schema_completion := fun _ => discovery;
     chat_completion := chat;
     embeddings_create := fun _ => embedding;
     document_create_id := Returned "doc-1"%string;
     document_findUnique_fault := None;
     embedding_insert_id := Returned "emb-1"%string;
     nearest_query_fault := None;
     chatMessage_create_id := fun r =>
       Returned (if jsstring_eqb r (js "user") then "msg-1" else "msg-2")%string |}.

Definition sample_file : File :=
  {| file_name := js "notes.txt"; file_type := js "text/plain" |}.

(** A well-formed reply of schema discovery that fills in one field only. *)
Definition sparse_extracted : JSON :=
  JObject [(js "doc_type", JString (js "invoice"))].

Definition sparse_discovery : outcome (option wire_text) :=
  Returned (Some (JSONText (JObject [(js "schema", JObject []);
                                     (js "extracted", sparse_extracted);
                                     (js "confidence", JObject [])]))).

Definition no_chat (_ : list Message) : outcome AssistantMessage :=
  Thrown (Some "not used"%string).

(** The upload of the specification's scenario, and collaborators whose
    embedding service is down. *)
Definition scenario_upload : jsstring := js "John Doe, SSN 123-45-6789.".

Definition services_embedding_down : Services :=
  sample_services scenario_upload sparse_discovery no_chat
    (Thrown (Some "embedding service unavailable"%string)).

(** Collaborators that all succeed, and an upload padded with spaces. *)
Definition services_up (upload : jsstring) : Services :=
  sample_services upload sparse_discovery no_chat (Returned zero_vector).

Definition padded_upload : jsstring := js "ok" ++ replicate 20 32%N.

(** A stored document of six lines with one embedding, and a turn on it. *)
Definition invoice_lines : list jsstring :=
  [js "Invoice 42"; js "Customer: ACME"; js "Item: widget"; js "Quantity: 2";
   js "Total: 100 EUR"; js "Due: 2024-05"].

Definition invoice : Document :=
  {| filename := js "invoice.txt";
     text := join [10%N] invoice_lines;
     schema := JObject [];
     extracted := sparse_extracted;
     confidence := JObject [];
     status := js "REVIEW_REQUIRED" |}.

Definition invoice_world : World :=
  {| store := {| documents := {[ "doc-1"%string := invoice ]};
                 embeddings := [{| embedding_id := "emb-1";
                                   embedding_documentId := "doc-1";
                                   embedding_vector := zero_vector |}];
                 chatMessages := [] |};
     trace := [] |}.

Definition question : ClientMessage :=
  {| role := js "user"; content := js "What is the total?" |}.

Definition question_body : Chat.Body :=
  {| Chat.body_messages := Some [question];
     Chat.body_documentId := Some "doc-1"%string |}.

(** A first response with two tool calls, one of them to a function the
    orchestrator does not know, and the final response. *)
Definition search_call : ToolCall :=
  FunctionToolCall (js "call_1") (js "search_document_text")
    (JSONText (JObject [(js "query", JString (js "Total"))])).

Definition unknown_call : ToolCall :=
  FunctionToolCall (js "call_2") (js "lookup_weather") EmptyText.

Definition tool_response : AssistantMessage :=
  {| assistant_content := None; tool_calls := Some [search_call; unknown_call] |}.

Definition final_response : AssistantMessage :=
  {| assistant_content := Some (js "The total is 100 EUR."); tool_calls := None |}.

Definition is_second_round (request : list Message) : bool :=
  existsb (fun m => match m with MsgAssistant _ => true | _ => false end) request.

Definition chat_with_tools (request : list Message) : outcome AssistantMessage :=
  Returned (if is_second_round request then final_response else tool_response).

Definition chat_without_tools (_ : list Message) : outcome AssistantMessage :=
  Returned final_response.

Definition chat_services (chat : list Message -> outcome AssistantMessage) : Services :=
  sample_services [] sparse_discovery chat (Returned zero_vector).

(** Collaborators whose completion service answers schema discovery with
    text that is not JSON. *)
Definition services_not_JSON : Services :=
  sample_services scenario_upload
    (Returned (Some (NotJSON (js "Sorry, I cannot read this document."))))
    no_chat (Returned zero_vector).

(** ** Further sources

    - [app/review/page.tsx]  ([getStatusVariant], [getStatusIcon])
    - [components/chat.tsx]  ([handleSend], the request it sends) *)

(** *** The review page: the badge of a status *)

Inductive BadgeVariant :=
| VariantDefault
| VariantSecondary
| VariantOutline
| VariantDestructive.

(** The icons of lucide-react the page renders. *)
Inductive StatusIcon :=
| CheckCircle2
| AlertCircle
| Clock.

Module Review.
Section WithCollaborators.

(** [String.prototype.toLowerCase], a table of the runtime. *)
Variable toLowerCase : jsstring -> jsstring.

Definition getStatusVariant (status : jsstring) : BadgeVariant :=
  let statusLower := toLowerCase status in
  if includes (js "complete") statusLower || includes (js "success") statusLower
  then VariantDefault
  else if includes (js "pending") statusLower || includes (js "processing") statusLower
  then VariantSecondary
  else if includes (js "error") statusLower || includes (js "failed") statusLower
  then VariantDestructive
  else VariantOutline.

Definition getStatusIcon (status : jsstring) : StatusIcon :=
  let statusLower := toLowerCase status in
  if includes (js "complete") statusLower || includes (js "success") statusLower
  then CheckCircle2
  else if includes (js "error") statusLower || includes (js "failed") statusLower
  then AlertCircle
  else Clock.

End WithCollaborators.
End Review.

(** *** The chat component: the request of [handleSend] *)

(** The body [handleSend] posts to the chat route, from the transcript and
    the input field of the render it was created in; [None] when it
    returns without sending. *)
Definition handleSend_body (documentId : string) (messages : list ClientMessage)
    (input : jsstring) (isLoading : bool) : option Chat.Body :=
  if (match trim input with [] => true | _ => false end) || isLoading
  then None
  else
    let userMessage := {| role := js "user"; content := trim input |} in
    Some {| Chat.body_messages := Some (messages ++ [userMessage]);
            Chat.body_documentId := Some documentId |}.


(** ** Further notions: matches of a bounded pattern *)

(** [/\bPAT\b/] matches at some position of [s]; [prev] is the code unit
    before [s]. *)
Fixpoint has_match (pat : list (code_unit -> bool)) (prev : option code_unit)
    (s : jsstring) : bool :=
  match s with
  | [] => false
  | c :: s' => bounded_match_at pat prev s || has_match pat (Some c) s'
  end.

(** [/\bQ\b/] matches at a position of [s] that the scan of
    [replace_bounded pat] copies: one it reaches outside a match of [pat]. *)
Fixpoint has_copied_match (q pat : list (code_unit -> bool)) (prev : option code_unit)
    (skip : nat) (s : jsstring) : bool :=
  match s with
  | [] => false
  | c :: s' =>
      match skip with
      | S k => has_copied_match q pat (Some c) k s'
      | O =>
          if bounded_match_at pat prev s
          then has_copied_match q pat (Some c) (length pat - 1) s'
          else bounded_match_at q prev s || has_copied_match q pat (Some c) 0 s'
      end
  end.

(** Every class of [pat] rejects every code unit of [s]. *)
Definition rejected_by (pat : list (code_unit -> bool)) (s : jsstring) : bool :=
  forallb (fun c => forallb (fun p => negb (p c)) pat) s.

Definition SSN_PLACEHOLDER : jsstring := js "[REDACTED_SSN]".
Definition CARD_PLACEHOLDER : jsstring := js "[REDACTED_CARD]".

(** A stored text: no null character, no C0 control other than tab, line
    feed and carriage return, and nothing left to redact. *)
Definition is_storable_code_unit (c : code_unit) : bool :=
  negb (is_C0 c) || is_tab_lf_cr c.

Definition is_clean_text (t : jsstring) : Prop :=
  Forall (fun c => c <> 0%N /\ is_storable_code_unit c = true) t
  /\ has_match ssn_pattern None t = false
  /\ has_match card_pattern None t = false.

(** The three ways the route reads the upload: [file.text()];
    [file.arrayBuffer()] alone; [file.arrayBuffer()] and then unpdf. *)
Definition reading_calls : list (list Event) :=
  [[EvFileText]; [EvFileArrayBuffer]; [EvFileArrayBuffer; EvExtractText]].

(** The external calls of a complete ingestion, after the upload is read. *)
Definition ingest_calls (input text : jsstring) (id : string) : list Event :=
  [EvSchemaCompletion input; EvDocumentCreate; EvEmbeddingsCreate text;
   EvEmbeddingInsert id].

(** A parsed reply that is JSON data other than an object or [null]. *)
Definition is_scalar_or_array (v : JSON) : bool :=
  match v with
  | JBool _ | JNumber _ | JString _ | JArray _ => true
  | JNull | JObject _ => false
  end.

Definition empty_discovery : Discovered :=
  {| discovered_schema := JObject [];
     discovered_extracted := JObject [];
     discovered_confidence := JObject [] |}.

(** Effects that neither write nor call. *)
Definition silent {A} (m : Eff A) : Prop := forall w, (m w).1 = w.

(** ** Further notions: ordering by distance *)

(** [ORDER BY key], stable, for rows of any shape. *)
Fixpoint insert_by {A} (key : A -> Q) (r : A) (rows : list A) : list A :=
  match rows with
  | [] => [r]
  | x :: rows' =>
      if Qle_bool (key r) (key x) then r :: rows else x :: insert_by key r rows'
  end.

Definition order_by {A} (key : A -> Q) (rows : list A) : list A :=
  foldr (insert_by key) [] rows.

(** Keys never decrease along the list. *)
Fixpoint ascending_by {A} (key : A -> Q) (rows : list A) : Prop :=
  match rows with
  | [] => True
  | r :: rows' => Forall (fun x => (key r <= key x)%Q) rows' /\ ascending_by key rows'
  end.

(** The embeddings of a document. *)
Definition embeddings_of (s : Store) (docId : string) : list DocumentEmbedding :=
  List.filter (fun e => bool_decide (embedding_documentId e = docId)) (embeddings s).

(** The row the nearest-neighbour query makes of an embedding of the
    document [docId], whose columns are [d]. *)
Definition joined_row (docId : string) (d : Document) (q : vector)
    (e : DocumentEmbedding) : option RelevantDoc :=
  dist ← l2_distance_sq (embedding_vector e) q;
  Some {| row_id := docId;
          row_text := text d;
          row_extracted := extracted d;
          row_schema := schema d;
          row_distance_sq := dist |}.

(** ** Further notions: the rows a turn writes *)

(** The ChatMessage row of the user's message. *)
Definition user_row (id documentId : string) (lastMessage : ClientMessage) : ChatMessage :=
  {| message_id := id;
     message_documentId := documentId;
     message_role := js "user";
     message_content := content lastMessage;
     message_toolCalls := None |}.

(** The ChatMessage row of the reply. *)
Definition assistant_row (id documentId : string) (reply : Chat.Reply) : ChatMessage :=
  {| message_id := id;
     message_documentId := documentId;
     message_role := js "assistant";
     message_content := Chat.content_or_empty (assistant_content (Chat.reply_message reply));
     message_toolCalls := Chat.reply_toolCalls reply |}.

(** An effect that writes nothing when it throws and, when it returns,
    has appended the row of its reply and nothing else. *)
Definition persists_reply (documentId : string) (m : Eff Chat.Reply) : Prop :=
  forall w,
    match (m w).2 with
    | Thrown _ => store (m w).1 = store w
    | Returned reply =>
        documents (store (m w).1) = documents (store w)
        /\ embeddings (store (m w).1) = embeddings (store w)
        /\ exists id, chatMessages (store (m w).1)
                      = chatMessages (store w) ++ [assistant_row id documentId reply]
    end.

(** ** Further sample collaborators *)

(** A first response whose tool call carries arguments that are not JSON. *)
Definition malformed_call : ToolCall :=
  FunctionToolCall (js "call_1") (js "get_extracted_data") (NotJSON (js "{field:")).

Definition chat_malformed (_ : list Message) : outcome AssistantMessage :=
  Returned {| assistant_content := None; tool_calls := Some [malformed_call] |}.

(** A store whose document has four embeddings of two dimensions. *)
Definition plane_store : Store :=
  {| documents := {[ "doc-1"%string := invoice ]};
     embeddings :=
       [{| embedding_id := "emb-1"; embedding_documentId := "doc-1";
           embedding_vector := [3; 0]%Q |};
        {| embedding_id := "emb-2"; embedding_documentId := "doc-1";
           embedding_vector := [1; 0]%Q |};
        {| embedding_id := "emb-3"; embedding_documentId := "doc-2";
           embedding_vector := [0; 0]%Q |};
        {| embedding_id := "emb-4"; embedding_documentId := "doc-1";
           embedding_vector := [4; 0]%Q |};
        {| embedding_id := "emb-5"; embedding_documentId := "doc-1";
           embedding_vector := [2; 0]%Q |}];
     chatMessages := [] |}.

(** ** Further notions: the constraints of the schema *)

(** The constraints the migrations declare on the three tables: primary
    keys, the foreign keys to [Document], and the column type
    [vector(3072)]. *)
Definition satisfies_constraints (s : Store) : Prop :=
  Forall (fun e => is_Some (documents s !! embedding_documentId e)
                   /\ N.of_nat (length (embedding_vector e)) = EMBEDDING_DIMENSIONS)
         (embeddings s)
  /\ Forall (fun m => is_Some (documents s !! message_documentId m)) (chatMessages s)
  /\ NoDup (List.map embedding_id (embeddings s))
  /\ NoDup (List.map message_id (chatMessages s)).

(** ** Further notions: values inside the extracted data *)

(** The value found by following [path] through own members of nested
    objects. *)
Fixpoint member_at (v : JSON) (path : list jsstring) : option JSON :=
  match path with
  | [] => Some v
  | key :: rest =>
      match v with
      | JObject members => m ← own_member key members; member_at m rest
      | _ => None
      end
  end.

(** Values that are neither objects nor arrays. *)
Definition is_scalar (v : JSON) : bool := negb (is_object v).

(** The arguments [{"field": path}] of a call to [get_extracted_data]. *)
Definition field_arguments (path : jsstring) : wire_text :=
  JSONText (JObject [(js "field", JString path)]).

(** A status that mentions an error or a failure. *)
Definition mentions_failure (toLowerCase : jsstring -> jsstring) (status : jsstring) : bool :=
  includes (js "error") (toLowerCase status) || includes (js "failed") (toLowerCase status).


(** * Properties *)

(** ** Strings *)

Ltac case_code_unit_tests :=
  repeat match goal with
    | |- context [N.eqb ?a ?b] => destruct (N.eqb_spec a b)
    | |- context [N.leb ?a ?b] => destruct (N.leb_spec a b)
    end.

Lemma deleted_by_sanitize_spec (c : code_unit) :
  is_NUL c || is_stripped_control c = is_C0 c && negb (is_tab_lf_cr c).
Proof.
  unfold is_NUL, is_stripped_control, is_C0, is_tab_lf_cr, in_range.
  case_code_unit_tests; simpl; try reflexivity; lia.
Qed.

Lemma sanitize_as_filter (input : jsstring) :
  sanitizeForPostgresText input
  = List.filter (fun c => negb (is_C0 c && negb (is_tab_lf_cr c))) input.
Proof.
  unfold sanitizeForPostgresText, replace_class_by_empty.
  induction input as [|c input IH]; [reflexivity|].
  cbn [List.filter]. rewrite <- deleted_by_sanitize_spec.
  destruct (is_NUL c); cbn [negb orb List.filter]; [exact IH|].
  destruct (is_stripped_control c); cbn [negb]; [exact IH|].
  f_equal. exact IH.
Qed.

(** C4, as amended.  Sanitization deletes exactly the code units of the C0
    range U+0000..U+001F other than tab, line feed and carriage return: the
    output is the input without them, in order, so it holds no null
    character and no C0 control outside these three, and every other code
    unit (DELETE and the C1 controls included) is kept. *)
Theorem sanitize_deletes_C0_controls (input : jsstring) :
  sanitizeForPostgresText input
  = List.filter (fun c => negb (is_C0 c) || is_tab_lf_cr c) input
  /\ Forall (fun c => c <> 0%N /\ (is_C0 c = false \/ is_tab_lf_cr c = true))
       (sanitizeForPostgresText input).
Proof.
  assert (E : forall c, negb (is_C0 c && negb (is_tab_lf_cr c))
                        = negb (is_C0 c) || is_tab_lf_cr c)
    by (intros c; destruct (is_C0 c), (is_tab_lf_cr c); reflexivity).
  rewrite sanitize_as_filter. split.
  - apply List.filter_ext. exact E.
  - apply List.Forall_forall. intros c Hc.
    apply List.filter_In in Hc as [_ Hc]. rewrite E in Hc.
    split.
    + intros ->. discriminate Hc.
    + destruct (is_C0 c); [right | left]; auto.
Qed.

(** C4, as stated, fails on DELETE (U+007F), a control character that the
    two character classes of the sanitizer do not list. *)
Lemma sanitize_keeps_DELETE :
  sanitizeForPostgresText [127%N] = [127%N]
  /\ is_control_character 127%N = true
  /\ is_tab_lf_cr 127%N = false.
Proof. repeat split; reflexivity. Qed.
Example redactPII_spec_scenario :
  redactPII (js "John Doe, SSN 123-45-6789.") = js "John Doe, SSN [REDACTED_SSN].".
Proof. reflexivity. Qed.

Example redactPII_needs_boundary :
  redactPII (js "x123-45-6789 4111111111111111 41111111111111112")
  = js "x123-45-6789 [REDACTED_CARD] 41111111111111112".
Proof. reflexivity. Qed.

Example split_on_examples :
  split_on 10%N (js "") = [js ""]
  /\ split_on 46%N (js "person.name") = [js "person"; js "name"]
  /\ split_on 46%N (js "a.") = [js "a"; js ""].
Proof. repeat split; reflexivity. Qed.

(** ** The search tool *)

Lemma split_on_not_nil (sep : code_unit) (s : jsstring) : split_on sep s <> [].
Proof.
  destruct s as [|c s]; cbn [split_on]; [discriminate|].
  destruct (c =? sep)%N; [discriminate|].
  destruct (split_on sep s); discriminate.
Qed.

Lemma join_first_lines_nil (t : jsstring) :
  join [10%N] (firstn 5 (split_on 10%N t)) = [] <-> t = [].
Proof.
  split; [|intros ->; reflexivity].
  destruct t as [|c t]; [reflexivity|].
  cbn [split_on]. pose proof (split_on_not_nil 10%N t) as Hne.
  destruct (c =? 10)%N; destruct (split_on 10%N t) as [|w ws]; try congruence.
  - cbn. discriminate.
  - destruct ws; cbn; discriminate.
Qed.

Lemma includes_empty (s : jsstring) : includes [] s = true.
Proof. destruct s; reflexivity. Qed.

Lemma filter_all {A} (p : A -> bool) (l : list A) :
  (forall x, p x = true) -> List.filter p l = l.
Proof.
  intros Hp. induction l as [|x l IH]; [reflexivity|].
  cbn. rewrite Hp, IH. reflexivity.
Qed.

(** C10.  With a missing or empty [query] argument the search tool returns
    the first min(5, number of lines) lines of the document text joined by
    newlines; the joined text is empty, and the marker is returned in its
    place, exactly when the stored text is the empty string. *)
Theorem search_with_empty_query
    (toLowerCase : jsstring -> jsstring) (document : Document)
    (arguments : wire_text) (args : JSON) (q : option JSON) :
  toLowerCase [] = [] ->
  Chat.parse_arguments arguments = Returned args ->
  get_property args (js "query") = Returned q ->
  q = None \/ q = Some (JString []) ->
  let lines := split_on 10%N (text document) in
  let shown := firstn 5 lines in
  length shown = Nat.min 5 (length lines)
  /\ (join [10%N] shown = [] <-> text document = [])
  /\ Chat.search_document_text toLowerCase document arguments
     = Returned (Literal (match text document with
                          | [] => Chat.NO_MATCH
                          | _ => join [10%N] shown
                          end)).
Proof.
  intros Hlower Hargs Hq Hempty lines shown.
  split; [apply length_firstn|].
  split; [apply join_first_lines_nil|].
  assert (Hrun : Chat.search_document_text toLowerCase document arguments
    = Returned (Literal
        (let m := join [10%N] (firstn 5 (List.filter
           (fun line => includes [] (toLowerCase line)) (split_on 10%N (text document)))) in
         match m with [] => Chat.NO_MATCH | _ => m end))).
  { unfold Chat.search_document_text. rewrite Hargs. cbn [mbind outcome_bind].
    rewrite Hq. cbn [mbind outcome_bind].
    destruct Hempty as [-> | ->]; [reflexivity|]. cbn. rewrite Hlower. reflexivity. }
  rewrite Hrun. clear Hrun. cbv zeta.
  rewrite filter_all by (intros; apply includes_empty).
  fold lines. fold shown.
  pose proof (join_first_lines_nil (text document)) as Hnil. fold lines shown in Hnil.
  destruct (text document) as [|c t] eqn:Ht.
  - rewrite (proj2 Hnil eq_refl). reflexivity.
  - destruct (join [10%N] shown) eqn:Hj; [|reflexivity].
    discriminate (proj1 Hnil eq_refl).
Qed.

(** ** Running effects *)

Lemma bind_run {A B} (m : Eff A) (f : A -> Eff B) (w : World) :
  (m ≫= f) w = match m w with
               | (w', Returned a) => f a w'
               | (w', Thrown e) => (w', Thrown e)
               end.
Proof. reflexivity. Qed.

Lemma bind_returned {A B} (m : Eff A) (f : A -> Eff B) w w' b :
  (m ≫= f) w = (w', Returned b) ->
  exists a w1, m w = (w1, Returned a) /\ f a w1 = (w', Returned b).
Proof.
  rewrite bind_run. destruct (m w) as [w1 [a|e]]; [eauto | discriminate].
Qed.

Lemma bind_thrown {A B} (m : Eff A) (f : A -> Eff B) w w' e :
  (m ≫= f) w = (w', Thrown e) ->
  m w = (w', Thrown e)
  \/ exists a w1, m w = (w1, Returned a) /\ f a w1 = (w', Thrown e).
Proof.
  rewrite bind_run. destruct (m w) as [w1 [a|e1]]; [eauto | left; congruence].
Qed.

Lemma call_run {A} (ev : Event) (answer : outcome A) (w : World) :
  call ev answer w = ({| store := store w; trace := trace w ++ [ev] |}, answer).
Proof. unfold call. rewrite bind_run. reflexivity. Qed.

(** Effects that leave the three tables alone. *)
Definition store_preserving {A} (m : Eff A) : Prop :=
  forall w, store (m w).1 = store w.

Lemma store_preserving_call {A} ev (answer : outcome A) : store_preserving (call ev answer).
Proof. intros w. rewrite call_run. reflexivity. Qed.

Lemma store_preserving_lift {A} (o : outcome A) : store_preserving (lift o).
Proof. intros w. reflexivity. Qed.

Lemma store_preserving_ret {A} (a : A) : store_preserving (mret a : Eff A).
Proof. intros w. reflexivity. Qed.

Lemma store_preserving_throw {A} e : store_preserving (throw e : Eff A).
Proof. intros w. reflexivity. Qed.

Lemma store_preserving_bind {A B} (m : Eff A) (f : A -> Eff B) :
  store_preserving m -> (forall a, store_preserving (f a)) ->
  store_preserving (m ≫= f).
Proof.
  intros Hm Hf w. rewrite bind_run. specialize (Hm w).
  destruct (m w) as [w1 [a|e]]; cbn in *; [|exact Hm].
  rewrite Hf. exact Hm.
Qed.

Create HintDb store_preserving.

#[local] Hint Resolve store_preserving_call store_preserving_lift store_preserving_ret
  store_preserving_throw : store_preserving.

(** *** Store operations *)

Lemma db_document_create_returned svc d w w' id :
  db_document_create svc d w = (w', Returned id) ->
  document_create_id svc = Returned id
  /\ documents (store w) !! id = None
  /\ store w' = {| documents := <[id := d]> (documents (store w));
                   embeddings := embeddings (store w);
                   chatMessages := chatMessages (store w) |}
  /\ trace w' = trace w ++ [EvDocumentCreate].
Proof.
  unfold db_document_create. rewrite bind_run, call_run.
  destruct (document_create_id svc) as [id'|e]; [|discriminate].
  rewrite bind_run. cbn [get_store store].
  destruct (documents (store w) !! id') eqn:Hfresh; [discriminate|].
  cbn. intros [= <- <-]. auto.
Qed.

Lemma db_document_create_thrown svc d w w' e :
  db_document_create svc d w = (w', Thrown e) -> store w' = store w.
Proof.
  unfold db_document_create. rewrite bind_run, call_run.
  destruct (document_create_id svc) as [id'|e']; [|intros [= <- _]; reflexivity].
  rewrite bind_run. cbn [get_store store].
  destruct (documents (store w) !! id'); [|discriminate].
  intros [= <- _]. reflexivity.
Qed.

(** An insert into [DocumentEmbedding] adds one row for [docId] when it
    returns, and nothing when it throws. *)
Lemma db_insert_embedding_run svc docId v w :
  let w' := (db_insert_embedding svc docId v w).1 in
  documents (store w') = documents (store w)
  /\ chatMessages (store w') = chatMessages (store w)
  /\ trace w' = trace w ++ [EvEmbeddingInsert docId]
  /\ match (db_insert_embedding svc docId v w).2 with
     | Returned _ =>
         exists id, embeddings (store w') = embeddings (store w) ++
           [{| embedding_id := id; embedding_documentId := docId; embedding_vector := v |}]
     | Thrown _ => embeddings (store w') = embeddings (store w)
     end.
Proof.
  unfold db_insert_embedding. rewrite bind_run, call_run.
  destruct (embedding_insert_id svc) as [id|e]; [|cbn; auto].
  rewrite bind_run. cbn [get_store store].
  destruct (existsb _ _); [cbn; auto|].
  destruct (negb _); [cbn; auto|].
  destruct (documents (store w) !! docId); cbn; eauto 6.
Qed.

(** ** The ingestion pipeline *)

Lemma extractTextFromFile_preserving lc svc file :
  store_preserving (Ingest.extractTextFromFile lc svc file).
Proof.
  unfold Ingest.extractTextFromFile.
  destruct (startsWith _ _); [auto with store_preserving|].
  apply store_preserving_bind; [auto with store_preserving|].
  intros _. destruct (_ || _); auto with store_preserving.
Qed.

Lemma discoverSchemaAndExtract_preserving svc t :
  store_preserving (Ingest.discoverSchemaAndExtract svc t).
Proof.
  unfold Ingest.discoverSchemaAndExtract.
  apply store_preserving_bind; [auto with store_preserving|].
  intros [[| |]|]; auto with store_preserving;
    repeat (apply store_preserving_bind; [auto with store_preserving|intros ?]);
    auto with store_preserving.
Qed.

Lemma steps_1_to_4_preserving lc svc file :
  store_preserving (Ingest.steps_1_to_4 lc svc file).
Proof.
  unfold Ingest.steps_1_to_4.
  apply store_preserving_bind; [apply extractTextFromFile_preserving|intros rawText].
  apply store_preserving_bind; [apply discoverSchemaAndExtract_preserving|intros d].
  auto with store_preserving.
Qed.

(** Schema discovery throws on an empty or non-JSON response. *)
Lemma discoverSchemaAndExtract_rejects svc t content w :
  schema_completion svc (discovery_input t) = Returned content ->
  empty_or_not_JSON content ->
  exists w' e, Ingest.discoverSchemaAndExtract svc t w = (w', Thrown e).
Proof.
  intros Hreply Hbad. unfold Ingest.discoverSchemaAndExtract.
  rewrite bind_run, call_run, Hreply.
  destruct Hbad as [-> | [-> | [raw ->]]]; cbn; eauto.
Qed.

(** The route on a request that carries a file. *)
Lemma ingest_POST_run lc svc file w :
  Ingest.POST lc svc (Returned (Some file)) w
  = match Ingest.steps_1_to_4 lc svc file w with
    | (w1, Thrown e) => (w1, Returned (JsonError 500 (message_or "Unknown error" e)))
    | (w1, Returned (redacted, d)) =>
        match db_document_create svc (new_document file redacted d) w1 with
        | (w2, Thrown e) => (w2, Returned (JsonError 500 (message_or "Unknown error" e)))
        | (w2, Returned id) =>
            if (20 <=? str_length (trim redacted))%N
            then match Ingest.embedAndStore svc id redacted w2 with
                 | (w3, Thrown e) =>
                     (w3, Returned (JsonError 500 (message_or "Unknown error" e)))
                 | (w3, Returned _) => (w3, Returned (Json id))
                 end
            else (w2, Returned (Json id))
        end
    end.
Proof.
  unfold Ingest.POST, try_catch. rewrite bind_run. cbn [lift].
  rewrite bind_run. destruct (Ingest.steps_1_to_4 lc svc file w) as [w1 [[redacted d]|e]];
    [|reflexivity].
  rewrite bind_run.
  destruct (db_document_create svc (new_document file redacted d) w1) as [w2 [id|e]];
    [|reflexivity].
  rewrite bind_run. destruct (20 <=? str_length (trim redacted))%N.
  - destruct (Ingest.embedAndStore svc id redacted w2) as [w3 [[]|e]]; reflexivity.
  - reflexivity.
Qed.

(** C5.  When one of steps 1 to 4 throws (in particular when schema
    discovery receives an empty or a non-JSON response) the route answers
    with an error and the store is left as it was: no Document row and no
    Embedding row is written. *)
Theorem ingest_failure_writes_no_row lc svc file w :
  (exists w1 e, Ingest.steps_1_to_4 lc svc file w = (w1, Thrown e))
  \/ (exists w1 rawText content,
        Ingest.extractTextFromFile lc svc file w = (w1, Returned rawText)
        /\ schema_completion svc
             (discovery_input (redactPII (sanitizeForPostgresText rawText)))
           = Returned content
        /\ empty_or_not_JSON content) ->
  exists w' e,
    Ingest.POST lc svc (Returned (Some file)) w = (w', Returned (JsonError 500 e))
    /\ store w' = store w.
Proof.
  intros H.
  assert (Hthrown : exists w1 e, Ingest.steps_1_to_4 lc svc file w = (w1, Thrown e)).
  { destruct H as [H | (w1 & rawText & content & Hextract & Hreply & Hbad)]; [exact H|].
    unfold Ingest.steps_1_to_4. rewrite bind_run, Hextract, bind_run.
    destruct (discoverSchemaAndExtract_rejects svc _ _ w1 Hreply Hbad) as (w2 & e & ->).
    eauto. }
  destruct Hthrown as (w1 & e & Hsteps).
  exists w1, (message_or "Unknown error" e). split.
  - rewrite ingest_POST_run, Hsteps. reflexivity.
  - pose proof (steps_1_to_4_preserving lc svc file w) as Hp.
    rewrite Hsteps in Hp. exact Hp.
Qed.

Lemma embedAndStore_run svc docId t w :
  let w' := (Ingest.embedAndStore svc docId t w).1 in
  documents (store w') = documents (store w)
  /\ chatMessages (store w') = chatMessages (store w)
  /\ match (Ingest.embedAndStore svc docId t w).2 with
     | Returned _ =>
         exists id v, embeddings_create svc t = Returned v
           /\ embeddings (store w') = embeddings (store w) ++
                [{| embedding_id := id; embedding_documentId := docId;
                    embedding_vector := v |}]
     | Thrown _ => embeddings (store w') = embeddings (store w)
     end.
Proof.
  unfold Ingest.embedAndStore. rewrite bind_run, call_run.
  destruct (embeddings_create svc t) as [v|e]; [|cbn; auto].
  match goal with |- context [db_insert_embedding svc docId v ?w0] =>
    pose proof (db_insert_embedding_run svc docId v w0) as H; cbv zeta in H;
    destruct (db_insert_embedding svc docId v w0) as [w' [[]|e]]
  end; cbn in *; destruct H as (Hd & Hc & _ & He); repeat split; auto.
  destruct He as [id He]. eauto.
Qed.

(** C1, as amended.  When steps 1 to 4 succeed, the Document row is
    written, and the embedding step then throws (the embedding service or
    the insert of the Embedding row), the Document row stays persisted with
    no Embedding row, and the caller receives the error response of status
    500 that carries the thrown message, without a document id. *)
Theorem ingest_embedding_failure lc svc file w w1 w2 w3 redacted d id e :
  Ingest.steps_1_to_4 lc svc file w = (w1, Returned (redacted, d)) ->
  db_document_create svc (new_document file redacted d) w1 = (w2, Returned id) ->
  (20 <= str_length (trim redacted))%N ->
  Ingest.embedAndStore svc id redacted w2 = (w3, Thrown e) ->
  Ingest.POST lc svc (Returned (Some file)) w
    = (w3, Returned (JsonError 500 (message_or "Unknown error" e)))
  /\ documents (store w) !! id = None
  /\ documents (store w3) !! id = Some (new_document file redacted d)
  /\ documents (store w3) = <[id := new_document file redacted d]> (documents (store w))
  /\ embeddings (store w3) = embeddings (store w).
Proof.
  intros Hsteps Hcreate Hlen Hembed.
  pose proof (steps_1_to_4_preserving lc svc file w) as Hp. rewrite Hsteps in Hp. cbn in Hp.
  apply db_document_create_returned in Hcreate as Hc. destruct Hc as (_ & Hfresh & Hstore & _).
  pose proof (embedAndStore_run svc id redacted w2) as He. cbv zeta in He.
  rewrite Hembed in He. cbn in He. destruct He as (Hdocs & _ & Hembs).
  rewrite Hstore in Hdocs, Hembs. cbn in Hdocs, Hembs. rewrite Hp in *.
  split; [|split; [exact Hfresh|split; [|split]]].
  - rewrite ingest_POST_run, Hsteps, Hcreate.
    apply N.leb_le in Hlen. rewrite Hlen, Hembed. reflexivity.
  - rewrite Hdocs. apply lookup_insert_eq.
  - exact Hdocs.
  - exact Hembs.
Qed.

(** C1, as stated, fails: with the embedding service down the Document row
    is written, and the caller is told that the ingestion failed. *)
Lemma ingest_embedding_failure_is_reported_as_error :
  let run := Ingest.POST toLowerCaseASCII services_embedding_down
                         (Returned (Some sample_file)) empty_world in
  run.2 = Returned (JsonError 500 "embedding service unavailable")
  /\ (text <$> documents (store run.1) !! "doc-1"%string)
     = Some (js "John Doe, SSN [REDACTED_SSN].")
  /\ embeddings (store run.1) = [].
Proof. vm_compute. repeat split; reflexivity. Qed.

Lemma ingest_embedding_failure_witness :
  (Ingest.POST toLowerCaseASCII services_embedding_down
               (Returned (Some sample_file)) empty_world).2
  = Returned (JsonError 500 "embedding service unavailable").
Proof.
  edestruct (ingest_embedding_failure toLowerCaseASCII services_embedding_down
               sample_file empty_world) as (Hpost & _).
  - vm_compute. reflexivity.
  - vm_compute. reflexivity.
  - vm_compute. discriminate.
  - vm_compute. reflexivity.
  - rewrite Hpost. reflexivity.
Defined.

Lemma trimStart_length (s : jsstring) : length (trimStart s) <= length s.
Proof.
  induction s as [|c s IH]; cbn [trimStart]; [lia|].
  destruct (is_trimmed_code_unit c); cbn [length]; lia.
Qed.

Lemma trim_length (s : jsstring) : (str_length (trim s) <= str_length s)%N.
Proof.
  unfold str_length, trim, trimEnd. rewrite length_rev.
  pose proof (trimStart_length (rev (trimStart s))) as H1.
  pose proof (trimStart_length s) as H2. rewrite length_rev in H1. lia.
Qed.

(** A run that returns a document id wrote the row, then embedded or not. *)
Lemma ingest_POST_created lc svc file w w' id :
  Ingest.POST lc svc (Returned (Some file)) w = (w', Returned (Json id)) ->
  exists w1 w2 redacted d,
    Ingest.steps_1_to_4 lc svc file w = (w1, Returned (redacted, d))
    /\ db_document_create svc (new_document file redacted d) w1 = (w2, Returned id)
    /\ if (20 <=? str_length (trim redacted))%N
       then Ingest.embedAndStore svc id redacted w2 = (w', Returned tt)
       else w' = w2.
Proof.
  rewrite ingest_POST_run.
  destruct (Ingest.steps_1_to_4 lc svc file w) as [w1 [[redacted d]|e]]; [|discriminate].
  destruct (db_document_create svc (new_document file redacted d) w1) as [w2 [id'|e]]
    eqn:Hcreate; [|discriminate].
  intros H. exists w1, w2, redacted, d.
  destruct (20 <=? str_length (trim redacted))%N.
  - destruct (Ingest.embedAndStore svc id' redacted w2) as [w3 [[]|e]] eqn:He;
      inversion H; subst; auto.
  - inversion H; subst; auto.
Qed.

(** Whatever the embedding step does, the row written by the route stays. *)
Lemma ingest_embedding_rows_doc lc svc file w w1 w2 redacted d id :
  Ingest.steps_1_to_4 lc svc file w = (w1, Returned (redacted, d)) ->
  db_document_create svc (new_document file redacted d) w1 = (w2, Returned id) ->
  documents (store (Ingest.POST lc svc (Returned (Some file)) w).1) !! id
  = Some (new_document file redacted d).
Proof.
  intros Hsteps Hcreate.
  apply db_document_create_returned in Hcreate as Hc. destruct Hc as (_ & _ & Hstore & _).
  assert (Hdoc2 : documents (store w2) !! id = Some (new_document file redacted d))
    by (rewrite Hstore; apply lookup_insert_eq).
  rewrite ingest_POST_run, Hsteps, Hcreate.
  destruct (20 <=? _)%N; [|exact Hdoc2].
  pose proof (embedAndStore_run svc id redacted w2) as He. cbv zeta in He.
  destruct (Ingest.embedAndStore svc id redacted w2) as [w3 [[]|e]];
    cbn in *; destruct He as (-> & _); exact Hdoc2.
Qed.

(** C2, as amended.  The threshold of 20 applies to the redacted text
    trimmed of leading and trailing white space.  In a run that has written
    the Document row: when the trimmed text is shorter than 20 code units
    (so whenever the redacted text is) the run succeeds with no Embedding
    row created; when it has 20 or more and the run succeeds, exactly one
    Embedding row is created, for the new document, holding the vector the
    embedding service returned for the full redacted text. *)
Theorem ingest_embedding_rows lc svc file w w1 w2 redacted d id :
  Ingest.steps_1_to_4 lc svc file w = (w1, Returned (redacted, d)) ->
  db_document_create svc (new_document file redacted d) w1 = (w2, Returned id) ->
  let run := Ingest.POST lc svc (Returned (Some file)) w in
  documents (store run.1) !! id = Some (new_document file redacted d)
  /\ ((str_length redacted < 20)%N -> (str_length (trim redacted) < 20)%N)
  /\ ((str_length (trim redacted) < 20)%N ->
        run.2 = Returned (Json id)
        /\ embeddings (store run.1) = embeddings (store w))
  /\ ((20 <= str_length (trim redacted))%N -> run.2 = Returned (Json id) ->
        exists eid v,
          embeddings_create svc redacted = Returned v
          /\ embeddings (store run.1) = embeddings (store w) ++
               [{| embedding_id := eid; embedding_documentId := id;
                   embedding_vector := v |}]).
Proof.
  intros Hsteps Hcreate run.
  pose proof (steps_1_to_4_preserving lc svc file w) as Hp. rewrite Hsteps in Hp. cbn in Hp.
  apply db_document_create_returned in Hcreate as Hc. destruct Hc as (_ & _ & Hstore & _).
  pose proof (embedAndStore_run svc id redacted w2) as He. cbv zeta in He.
  assert (Hrun : run = if (20 <=? str_length (trim redacted))%N
                       then match Ingest.embedAndStore svc id redacted w2 with
                            | (w3, Thrown e) =>
                                (w3, Returned (JsonError 500 (message_or "Unknown error" e)))
                            | (w3, Returned _) => (w3, Returned (Json id))
                            end
                       else (w2, Returned (Json id))).
  { unfold run. rewrite ingest_POST_run, Hsteps, Hcreate. reflexivity. }
  clearbody run. subst run.
  assert (Hdoc2 : documents (store w2) !! id = Some (new_document file redacted d))
    by (rewrite Hstore; apply lookup_insert_eq).
  assert (Hemb2 : embeddings (store w2) = embeddings (store w))
    by (rewrite Hstore, Hp; reflexivity).
  split; [|split; [|split]].
  - destruct (20 <=? _)%N; [|exact Hdoc2].
    destruct (Ingest.embedAndStore svc id redacted w2) as [w3 [[]|e]];
      cbn in *; destruct He as (-> & _); exact Hdoc2.
  - pose proof (trim_length redacted). lia.
  - intros Hshort. apply N.leb_gt in Hshort. rewrite Hshort. cbn. auto.
  - intros Hlong. apply N.leb_le in Hlong. rewrite Hlong.
    destruct (Ingest.embedAndStore svc id redacted w2) as [w3 [[]|e]];
      cbn in *; [|discriminate].
    intros _. destruct He as (_ & _ & eid & v & Hv & Hembs).
    exists eid, v. rewrite Hembs, Hemb2. auto.
Qed.

(** C2, as stated, fails: a redacted text of 22 code units, 20 of them
    trailing spaces, is ingested with no Embedding row; and so is a longer
    text when the embedding service is down. *)
Lemma ingest_padded_text_has_no_embedding :
  let run := Ingest.POST toLowerCaseASCII (services_up padded_upload)
                         (Returned (Some sample_file)) empty_world in
  let failed := Ingest.POST toLowerCaseASCII services_embedding_down
                            (Returned (Some sample_file)) empty_world in
  run.2 = Returned (Json "doc-1"%string)
  /\ (text <$> documents (store run.1) !! "doc-1"%string) = Some padded_upload
  /\ str_length padded_upload = 22%N
  /\ embeddings (store run.1) = []
  /\ (str_length <$> (text <$> documents (store failed.1) !! "doc-1"%string)) = Some 29%N
  /\ embeddings (store failed.1) = [].
Proof. vm_compute. repeat split; reflexivity. Qed.

Lemma ingest_embedding_rows_witness :
  embeddings (store (Ingest.POST toLowerCaseASCII (services_up scenario_upload)
                                 (Returned (Some sample_file)) empty_world).1)
  = [{| embedding_id := "emb-1"; embedding_documentId := "doc-1";
        embedding_vector := zero_vector |}].
Proof.
  edestruct (ingest_embedding_rows toLowerCaseASCII (services_up scenario_upload)
               sample_file empty_world) as (_ & _ & _ & Hlong).
  - vm_compute. reflexivity.
  - vm_compute. reflexivity.
  - destruct Hlong as (eid & v & Hv & Hembs).
    + vm_compute. discriminate.
    + vm_compute. reflexivity.
    + vm_compute. reflexivity.
Defined.

(** What schema discovery returns is read off the parsed reply. *)
Lemma discoverSchemaAndExtract_returned svc t w w' d :
  Ingest.discoverSchemaAndExtract svc t w = (w', Returned d) ->
  exists reply parsed e,
    schema_completion svc (discovery_input t) = Returned (Some reply)
    /\ JSON_parse reply = Returned parsed
    /\ get_property parsed (js "extracted") = Returned e
    /\ discovered_extracted d = nullish_or e (JObject []).
Proof.
  unfold Ingest.discoverSchemaAndExtract. rewrite bind_run, call_run.
  destruct (schema_completion svc (discovery_input t)) as [[reply|]|]; try discriminate.
  destruct reply as [|raw|parsed]; try discriminate.
  unfold JSON_parse. rewrite bind_run. cbn [lift].
  rewrite bind_run. cbn [lift].
  destruct (get_property parsed (js "schema")) as [s|]; [|discriminate].
  rewrite bind_run. cbn [lift].
  destruct (get_property parsed (js "extracted")) as [e|] eqn:He; [|discriminate].
  rewrite bind_run. cbn [lift].
  destruct (get_property parsed (js "confidence")) as [c|]; [|discriminate].
  intros [= _ <-]. exists (JSONText parsed), parsed, e. auto.
Qed.

Lemma steps_1_to_4_returned lc svc file w w1 redacted d :
  Ingest.steps_1_to_4 lc svc file w = (w1, Returned (redacted, d)) ->
  exists reply parsed e,
    schema_completion svc (discovery_input redacted) = Returned (Some reply)
    /\ JSON_parse reply = Returned parsed
    /\ get_property parsed (js "extracted") = Returned e
    /\ discovered_extracted d = nullish_or e (JObject []).
Proof.
  unfold Ingest.steps_1_to_4. intros H.
  apply bind_returned in H as (rawText & w0 & _ & H).
  apply bind_returned in H as (d' & w0' & Hd & H).
  injection H as _ <- <-.
  eapply discoverSchemaAndExtract_returned, Hd.
Qed.

(** C7, as amended.  The [extracted] object of a Document produced by a
    successful ingestion is the value under the [extracted] key of the
    completion service's parsed reply, stored as received, or the empty
    object when that key is missing or [null]; the target shape is asked of
    the service and not enforced. *)
Theorem ingest_extracted_is_the_reply lc svc file w w' id :
  Ingest.POST lc svc (Returned (Some file)) w = (w', Returned (Json id)) ->
  exists doc reply parsed e,
    documents (store w') !! id = Some doc
    /\ schema_completion svc (discovery_input (text doc)) = Returned (Some reply)
    /\ JSON_parse reply = Returned parsed
    /\ get_property parsed (js "extracted") = Returned e
    /\ extracted doc = nullish_or e (JObject []).
Proof.
  intros Hpost.
  pose proof (ingest_POST_created _ _ _ _ _ _ Hpost) as (w1 & w2 & redacted & d & Hs & Hc & _).
  pose proof (ingest_embedding_rows_doc lc svc file w w1 w2 redacted d id Hs Hc) as Hdoc.
  rewrite Hpost in Hdoc. cbn in Hdoc.
  destruct (steps_1_to_4_returned _ _ _ _ _ _ _ Hs) as (reply & parsed & e & H1 & H2 & H3 & H4).
  exists (new_document file redacted d), reply, parsed, e. auto.
Qed.

(** C7, as stated, fails: a reply that fills in [doc_type] only is
    ingested as it is, with no [skills] and no [summary] key. *)
Lemma ingest_keeps_sparse_extracted :
  let run := Ingest.POST toLowerCaseASCII (services_up scenario_upload)
                         (Returned (Some sample_file)) empty_world in
  run.2 = Returned (Json "doc-1"%string)
  /\ (extracted <$> documents (store run.1) !! "doc-1"%string) = Some sparse_extracted
  /\ has_target_shape sparse_extracted = false
  /\ get_property sparse_extracted (js "skills") = Returned None
  /\ get_property sparse_extracted (js "summary") = Returned None.
Proof. vm_compute. repeat split; reflexivity. Qed.

Lemma ingest_extracted_is_the_reply_witness :
  exists doc, documents (store (Ingest.POST toLowerCaseASCII (services_up scenario_upload)
                                  (Returned (Some sample_file)) empty_world).1)
                !! "doc-1"%string = Some doc
              /\ extracted doc = sparse_extracted.
Proof.
  edestruct (ingest_extracted_is_the_reply toLowerCaseASCII (services_up scenario_upload)
               sample_file empty_world) as (doc & reply & parsed & e & Hdoc & Hreply & Hp & He & Hx).
  - vm_compute. reflexivity.
  - exists doc. split; [exact Hdoc|].
    rewrite Hx. vm_compute in Hreply. injection Hreply as <-.
    vm_compute in Hp. injection Hp as <-. vm_compute in He. injection He as <-.
    reflexivity.
Defined.

(** ** The conversation orchestrator *)

Lemma db_chatMessage_create_run svc docId r c calls w :
  let w' := (db_chatMessage_create svc docId r c calls w).1 in
  trace w' = trace w ++ [EvChatMessageCreate r]
  /\ documents (store w') = documents (store w)
  /\ embeddings (store w') = embeddings (store w)
  /\ match (db_chatMessage_create svc docId r c calls w).2 with
     | Returned _ =>
         exists id, chatMessages (store w') = chatMessages (store w) ++
           [{| message_id := id; message_documentId := docId; message_role := r;
               message_content := c; message_toolCalls := calls |}]
     | Thrown _ => chatMessages (store w') = chatMessages (store w)
     end.
Proof.
  unfold db_chatMessage_create. rewrite bind_run, call_run.
  destruct (chatMessage_create_id svc r) as [id|e]; [|cbn; auto].
  rewrite bind_run. cbn [get_store store].
  destruct (existsb _ _); [cbn; auto|].
  destruct (documents (store w) !! docId); cbn; eauto 6.
Qed.

Lemma db_document_findUnique_run svc id w :
  db_document_findUnique svc id w
  = ({| store := store w; trace := trace w ++ [EvDocumentFindUnique id] |},
     match document_findUnique_fault svc with
     | Some e => Thrown e
     | None => Returned (documents (store w) !! id)
     end).
Proof.
  unfold db_document_findUnique. rewrite bind_run, call_run.
  destruct (document_findUnique_fault svc); reflexivity.
Qed.

Lemma db_nearest_query_run svc q docId w :
  Chat.db_nearest_query svc q docId w
  = ({| store := store w; trace := trace w ++ [EvNearestQuery docId] |},
     match nearest_query_fault svc with
     | Some e => Thrown e
     | None => nearest_rows (store w) q docId
     end).
Proof.
  unfold Chat.db_nearest_query. rewrite bind_run, call_run.
  destruct (nearest_query_fault svc); reflexivity.
Qed.

(** *** Retrieval *)

Lemma joined_rows_text s q docId document es rows :
  documents s !! docId = Some document ->
  joined_rows s q docId es = Returned rows ->
  Forall (fun r => row_text r = text document) rows.
Proof.
  intros Hdoc. revert rows. induction es as [|e es IH]; intros rows.
  - intros [= <-]. constructor.
  - cbn [joined_rows].
    destruct (documents s !! embedding_documentId e) as [d|] eqn:Hd; [|apply IH].
    destruct (bool_decide_reflect (embedding_documentId e = docId)) as [Heq|]; [|apply IH].
    destruct (l2_distance_sq _ _); [|discriminate].
    destruct (joined_rows s q docId es) as [rows'|]; [|discriminate].
    intros [= <-]. constructor; [|apply IH; reflexivity].
    cbn. rewrite Heq, Hdoc in Hd. congruence.
Qed.

Lemma insert_by_distance_Forall (P : RelevantDoc -> Prop) r rows :
  P r -> Forall P rows -> Forall P (insert_by_distance r rows).
Proof.
  intros Hr. induction 1 as [|x rows Hx Hrows IH]; cbn.
  - repeat constructor; exact Hr.
  - destruct (Qle_bool _ _); repeat constructor; auto.
Qed.

Lemma order_by_distance_Forall (P : RelevantDoc -> Prop) rows :
  Forall P rows -> Forall P (order_by_distance rows).
Proof.
  induction 1 as [|x rows Hx Hrows IH]; cbn; [constructor|].
  apply insert_by_distance_Forall; assumption.
Qed.

Lemma nearest_rows_text s q docId document rows :
  documents s !! docId = Some document ->
  nearest_rows s q docId = Returned rows ->
  Forall (fun r => row_text r = text document) rows.
Proof.
  intros Hdoc. unfold nearest_rows.
  destruct (joined_rows s q docId (embeddings s)) as [all|] eqn:Hall; [|discriminate].
  intros [= <-]. apply Forall_take, order_by_distance_Forall.
  eapply joined_rows_text; eassumption.
Qed.

Lemma contextText_of_rows rows document :
  Forall (fun r => row_text r = text document) rows ->
  Chat.contextText rows document = text document.
Proof.
  intros H. destruct H as [|r rows Hr _]; [reflexivity|].
  cbn. rewrite Hr. destruct (text document); reflexivity.
Qed.

(** *** A turn that runs to completion *)

Lemma persist_assistant_returned {A} svc documentId c calls (r : A) w0 w' reply :
  (db_chatMessage_create svc documentId (js "assistant") c calls ≫= λ _ : (), mret r) w0
  = (w', Returned reply) ->
  reply = r
  /\ trace w' = trace w0 ++ [EvChatMessageCreate (js "assistant")]
  /\ exists aid, chatMessages (store w') = chatMessages (store w0) ++
        [{| message_id := aid; message_documentId := documentId;
            message_role := js "assistant"; message_content := c;
            message_toolCalls := calls |}].
Proof.
  intros H. apply bind_returned in H as ([] & wa & Ha & H).
  injection H as <- <-.
  pose proof (db_chatMessage_create_run svc documentId (js "assistant") c calls w0) as Hr.
  cbv zeta in Hr. rewrite Ha in Hr. cbn [fst snd] in Hr.
  destruct Hr as (Ht & _ & _ & aid & Hm). eauto.
Qed.

Lemma respond_returned lc inh svc documentId document messages lastMessage w w' reply :
  Chat.respond lc inh svc documentId document messages lastMessage w = (w', Returned reply) ->
  exists uid aid v s rows first requests final,
    embeddings_create svc (content lastMessage) = Returned v
    /\ documents s = documents (store w)
    /\ nearest_rows s v documentId = Returned rows
    /\ chat_completion svc (first_request rows document messages) = Returned first
    /\ trace w' = trace w ++
         [EvChatMessageCreate (js "user"); EvEmbeddingsCreate (content lastMessage);
          EvNearestQuery documentId]
         ++ List.map EvChatCompletion requests ++ [EvChatMessageCreate (js "assistant")]
    /\ chatMessages (store w') = chatMessages (store w) ++
         [{| message_id := uid; message_documentId := documentId;
             message_role := js "user"; message_content := content lastMessage;
             message_toolCalls := None |};
          {| message_id := aid; message_documentId := documentId;
             message_role := js "assistant";
             message_content := Chat.content_or_empty (assistant_content final);
             message_toolCalls := Chat.reply_toolCalls reply |}]
    /\ Chat.reply_message reply = final
    /\ match tool_calls first with
       | Some (c :: cs) =>
           exists results,
             Chat.run_tool_calls lc inh document (c :: cs) [] = Returned results
             /\ requests = [first_request rows document messages;
                            first_request rows document messages
                            ++ [MsgAssistant first] ++ List.map MsgTool results]
             /\ chat_completion svc (first_request rows document messages
                                     ++ [MsgAssistant first] ++ List.map MsgTool results)
                = Returned final
             /\ Chat.reply_toolCalls reply = Some (c :: cs)
       | _ =>
           requests = [first_request rows document messages]
           /\ final = first
           /\ Chat.reply_toolCalls reply = None
       end.
Proof.
  unfold Chat.respond. intros H.
  apply bind_returned in H as ([] & wa & Hu & H).
  apply bind_returned in H as (v & wb & He & H).
  apply bind_returned in H as (rows & wc & Hq & H).
  cbv zeta in H. fold (first_request rows document messages) in H.
  apply bind_returned in H as (first & wd & Hc & H).
  rewrite call_run in He. injection He as <- He.
  rewrite db_nearest_query_run in Hq. injection Hq as <- Hq. cbn [store trace] in *.
  rewrite call_run in Hc. injection Hc as <- Hc. cbn [store trace] in *.
  pose proof (db_chatMessage_create_run svc documentId (js "user")
                (content lastMessage) None w) as Hur.
  cbv zeta in Hur. rewrite Hu in Hur. cbn [fst snd] in Hur.
  destruct Hur as (Htu & Hdu & Heu & uid & Hmu).
  assert (Hrows : nearest_rows (store wa) v documentId = Returned rows).
  { destruct (nearest_query_fault svc); [discriminate|exact Hq]. }
  clear Hq Hu.
  destruct (tool_calls first) as [[|c cs]|] eqn:Htc.
  - apply persist_assistant_returned in H as (-> & Ht & aid & Hm).
    cbn [store trace] in *.
    exists uid, aid, v, (store wa), rows, first, [first_request rows document messages], first.
    rewrite Htc. repeat split; try assumption; try reflexivity.
    + rewrite Ht, Htu. cbn [List.map]. rewrite <- !app_assoc. reflexivity.
    + rewrite Hm, Hmu. cbn. rewrite <- app_assoc. reflexivity.
  - apply bind_returned in H as (results & we & Hr & H).
    injection Hr as <- Hr.
    apply bind_returned in H as (final & wf & Hf & H).
    rewrite call_run in Hf. injection Hf as <- Hf. cbn [store trace] in *.
    apply persist_assistant_returned in H as (-> & Ht & aid & Hm).
    cbn [store trace] in *.
    exists uid, aid, v, (store wa), rows, first,
      [first_request rows document messages;
       first_request rows document messages ++ [MsgAssistant first] ++ List.map MsgTool results],
      final.
    rewrite Htc. repeat split; try assumption; try reflexivity.
    + rewrite Ht, Htu. cbn [List.map]. rewrite <- !app_assoc. reflexivity.
    + rewrite Hm, Hmu. cbn. rewrite <- app_assoc. reflexivity.
    + exists results. auto.
  - apply persist_assistant_returned in H as (-> & Ht & aid & Hm).
    cbn [store trace] in *.
    exists uid, aid, v, (store wa), rows, first, [first_request rows document messages], first.
    rewrite Htc. repeat split; try assumption; try reflexivity.
    + rewrite Ht, Htu. cbn [List.map]. rewrite <- !app_assoc. reflexivity.
    + rewrite Hm, Hmu. cbn. rewrite <- app_assoc. reflexivity.
Qed.

(** *** The calls of a turn, whatever its outcome *)

Lemma first_request_begins rows document messages :
  Forall (fun r => row_text r = text document) rows ->
  begins_with_document document (first_request rows document messages).
Proof.
  intros H. unfold begins_with_document, first_request. cbn.
  rewrite (contextText_of_rows _ _ H). reflexivity.
Qed.

Lemma begins_with_document_app document request more :
  begins_with_document document request ->
  begins_with_document document (request ++ more).
Proof. destruct request; [discriminate|]. exact id. Qed.

Ltac close_leaf :=
  split; [auto|]; split; [auto|];
  first [ now (intros; reflexivity)
        | intros ? ? [= <-] Hanswer [Hno | Hno];
          match goal with
          | Hc : chat_completion _ _ = Returned _ |- _ =>
              rewrite Hc in Hanswer; injection Hanswer as <-
          end; congruence ].

Ltac close_trace Htu :=
  cbn [fst snd store trace]; rewrite ?Htu, <- ?app_assoc; cbn [app]; reflexivity.

Lemma respond_trace lc inh svc documentId document messages lastMessage w :
  documents (store w) !! documentId = Some document ->
  exists tr requests,
    trace (Chat.respond lc inh svc documentId document messages lastMessage w).1
    = trace w ++ tr
    /\ tr `prefix_of`
         [EvChatMessageCreate (js "user"); EvEmbeddingsCreate (content lastMessage);
          EvNearestQuery documentId]
         ++ List.map EvChatCompletion requests ++ [EvChatMessageCreate (js "assistant")]
    /\ (length requests = 1 \/ length requests = 2)
    /\ Forall (begins_with_document document) requests
    /\ forall request first,
         head requests = Some request ->
         chat_completion svc request = Returned first ->
         no_tool_calls first -> length requests = 1.
Proof.
  intros Hdoc. unfold Chat.respond.
  set (dummy := [MsgSystem (Chat.systemMessage (text document) document)]).
  assert (Hdummy : Forall (begins_with_document document) [dummy])
    by (repeat constructor).
  rewrite bind_run.
  pose proof (db_chatMessage_create_run svc documentId (js "user")
                (content lastMessage) None w) as Hu. cbv zeta in Hu.
  destruct (db_chatMessage_create svc documentId (js "user") (content lastMessage) None w)
    as [wa [[]|e]]; cbn [fst snd] in Hu; destruct Hu as (Htu & Hdu & _).
  2: { eexists _, [dummy]. split; [close_trace Htu|].
       split; [eexists; cbn; reflexivity|]. close_leaf. }
  rewrite bind_run, call_run.
  destruct (embeddings_create svc (content lastMessage)) as [v|e].
  2: { eexists _, [dummy]. split; [close_trace Htu|].
       split; [eexists; cbn; reflexivity|]. close_leaf. }
  rewrite bind_run, db_nearest_query_run. cbn [store trace].
  assert (Hq : match nearest_query_fault svc with
               | Some e => Thrown e
               | None => nearest_rows (store wa) v documentId
               end = nearest_rows (store wa) v documentId
               \/ exists e, match nearest_query_fault svc with
                            | Some e => Thrown e
                            | None => nearest_rows (store wa) v documentId
                            end = Thrown e)
    by (destruct (nearest_query_fault svc); eauto).
  destruct Hq as [-> | [e ->]].
  2: { eexists _, [dummy]. split; [close_trace Htu|].
       split; [eexists; cbn; reflexivity|]. close_leaf. }
  destruct (nearest_rows (store wa) v documentId) as [rows|e] eqn:Hrows.
  2: { eexists _, [dummy]. split; [close_trace Htu|].
       split; [eexists; cbn; reflexivity|]. close_leaf. }
  assert (Hfirst : begins_with_document document (first_request rows document messages)).
  { apply first_request_begins. eapply nearest_rows_text; [|exact Hrows].
    rewrite Hdu. exact Hdoc. }
  cbv zeta. fold (first_request rows document messages).
  rewrite bind_run, call_run. cbn [store trace].
  destruct (chat_completion svc (first_request rows document messages)) as [first|e]
    eqn:Hc.
  2: { eexists _, [first_request rows document messages]. split; [close_trace Htu|].
       split; [eexists; cbn; reflexivity|]. close_leaf. }
  destruct (tool_calls first) as [[|c cs]|] eqn:Htc.
  - rewrite bind_run.
    match goal with |- context [db_chatMessage_create ?a ?b ?c ?d ?e ?w0] =>
      pose proof (db_chatMessage_create_run a b c d e w0) as Ha; cbv zeta in Ha;
      destruct (db_chatMessage_create a b c d e w0) as [wz [[]|e']]
    end; cbn [fst snd store trace] in Ha; destruct Ha as (Hta & _);
      (eexists _, [first_request rows document messages];
       split; [cbn [fst snd mret Eff_ret]; rewrite Hta, Htu, <- ?app_assoc; cbn [app]; reflexivity|];
       split; [eexists; cbn; reflexivity|]; close_leaf).
  - rewrite bind_run. cbn [lift].
    destruct (Chat.run_tool_calls lc inh document (c :: cs) []) as [results|e].
    2: { eexists _, [first_request rows document messages]. split; [close_trace Htu|].
         split; [eexists; cbn; reflexivity|]. close_leaf. }
    rewrite bind_run, call_run. cbn [store trace].
    set (second := first_request rows document messages
                   ++ [MsgAssistant first] ++ List.map MsgTool results).
    assert (Hsecond : begins_with_document document second)
      by (apply begins_with_document_app, Hfirst).
    destruct (chat_completion svc second) as [final|e].
    2: { eexists _, [first_request rows document messages; second].
         split; [close_trace Htu|]. split; [eexists; cbn; reflexivity|]. close_leaf. }
    rewrite bind_run.
    match goal with |- context [db_chatMessage_create ?a ?b ?c ?d ?e ?w0] =>
      pose proof (db_chatMessage_create_run a b c d e w0) as Ha; cbv zeta in Ha;
      destruct (db_chatMessage_create a b c d e w0) as [wz [[]|e']]
    end; cbn [fst snd store trace] in Ha; destruct Ha as (Hta & _);
      (eexists _, [first_request rows document messages; second];
       split; [cbn [fst snd mret Eff_ret]; rewrite Hta, Htu, <- ?app_assoc; cbn [app]; reflexivity|];
       split; [eexists; cbn; reflexivity|]; close_leaf).
  - rewrite bind_run.
    match goal with |- context [db_chatMessage_create ?a ?b ?c ?d ?e ?w0] =>
      pose proof (db_chatMessage_create_run a b c d e w0) as Ha; cbv zeta in Ha;
      destruct (db_chatMessage_create a b c d e w0) as [wz [[]|e']]
    end; cbn [fst snd store trace] in Ha; destruct Ha as (Hta & _);
      (eexists _, [first_request rows document messages];
       split; [cbn [fst snd mret Eff_ret]; rewrite Hta, Htu, <- ?app_assoc; cbn [app]; reflexivity|];
       split; [eexists; cbn; reflexivity|]; close_leaf).
Qed.

(** *** The route *)

Lemma chat_POST_run lc inh svc body w :
  Chat.POST lc inh svc body w
  = match body with
    | Thrown e => (w, Returned (JsonError 500 (message_or "Unknown error" e)))
    | Returned b =>
        match Chat.body_documentId b, Chat.body_messages b with
        | Some documentId, Some messages =>
            if bool_decide (documentId = EmptyString)
            then (w, Returned (JsonError 400 "Missing documentId or messages"))
            else
              let w0 := {| store := store w;
                           trace := trace w ++ [EvDocumentFindUnique documentId] |} in
              match document_findUnique_fault svc with
              | Some e => (w0, Returned (JsonError 500 (message_or "Unknown error" e)))
              | None =>
                  match documents (store w) !! documentId with
                  | None => (w0, Returned (JsonError 404 "Document not found"))
                  | Some document =>
                      match last messages with
                      | Some lastMessage =>
                          if jsstring_eqb (role lastMessage) (js "user")
                          then
                            match Chat.respond lc inh svc documentId document
                                    messages lastMessage w0 with
                            | (w', Returned reply) => (w', Returned (Json reply))
                            | (w', Thrown e) =>
                                (w', Returned (JsonError 500 (message_or "Unknown error" e)))
                            end
                          else (w0, Returned (JsonError 400 "Last message must be from user"))
                      | None =>
                          (w0, Returned (JsonError 400 "Last message must be from user"))
                      end
                  end
              end
        | _, _ => (w, Returned (JsonError 400 "Missing documentId or messages"))
        end
    end.
Proof.
  unfold Chat.POST, try_catch. rewrite bind_run.
  destruct body as [b|e]; [|reflexivity]. cbn [lift].
  destruct (Chat.body_documentId b) as [documentId|]; [|reflexivity].
  destruct (Chat.body_messages b) as [messages|]; [|reflexivity].
  destruct (bool_decide (documentId = EmptyString)); [reflexivity|].
  rewrite bind_run, db_document_findUnique_run. cbv zeta.
  destruct (document_findUnique_fault svc); [reflexivity|].
  destruct (documents (store w) !! documentId) as [document|]; [|reflexivity].
  destruct (last messages) as [lastMessage|]; [|reflexivity].
  destruct (jsstring_eqb (role lastMessage) (js "user")); [|reflexivity].
  rewrite bind_run.
  destruct (Chat.respond lc inh svc documentId document messages lastMessage _)
    as [w' [reply|e]]; reflexivity.
Qed.

(** A turn that answers found the document and ran [respond] after the
    lookup. *)
Lemma chat_POST_returned lc inh svc body w w' reply :
  Chat.POST lc inh svc body w = (w', Returned (Json reply)) ->
  exists documentId messages document lastMessage,
    body = Returned {| Chat.body_messages := Some messages;
                       Chat.body_documentId := Some documentId |}
    /\ documents (store w) !! documentId = Some document
    /\ last messages = Some lastMessage
    /\ role lastMessage = js "user"
    /\ Chat.respond lc inh svc documentId document messages lastMessage
         {| store := store w; trace := trace w ++ [EvDocumentFindUnique documentId] |}
       = (w', Returned reply).
Proof.
  rewrite chat_POST_run.
  destruct body as [[[messages|] [documentId|]]|e];
    cbn [Chat.body_documentId Chat.body_messages]; try discriminate.
  destruct (bool_decide (documentId = EmptyString)); [discriminate|]. cbv zeta.
  destruct (document_findUnique_fault svc); [discriminate|].
  destruct (documents (store w) !! documentId) as [document|] eqn:Hdoc; [|discriminate].
  destruct (last messages) as [lastMessage|] eqn:Hlast; [|discriminate].
  destruct (jsstring_eqb (role lastMessage) (js "user")) eqn:Hrole; [|discriminate].
  destruct (Chat.respond lc inh svc documentId document messages lastMessage _)
    as [w1 [reply1|e]] eqn:Hrespond; [|discriminate].
  intros [= <- <-]. exists documentId, messages, document, lastMessage.
  repeat split; try assumption; try reflexivity.
  unfold jsstring_eqb in Hrole. apply bool_decide_eq_true in Hrole. exact Hrole.
Qed.

Lemma completion_requests_app tr1 tr2 :
  completion_requests (tr1 ++ tr2) = completion_requests tr1 ++ completion_requests tr2.
Proof.
  induction tr1 as [|ev tr1 IH]; [reflexivity|].
  destruct ev; cbn; rewrite ?IH; reflexivity.
Qed.

Lemma completion_requests_map requests :
  completion_requests (List.map EvChatCompletion requests) = requests.
Proof. induction requests as [|r rs IH]; cbn; [|rewrite IH]; reflexivity. Qed.

Lemma completion_requests_turn documentId query requests :
  completion_requests (turn_calls documentId query requests) = requests.
Proof.
  unfold turn_calls. rewrite !completion_requests_app, completion_requests_map.
  cbn. apply app_nil_r.
Qed.

(** The trace of a turn that answers. *)
Lemma chat_POST_returned_trace lc inh svc body w w' reply :
  Chat.POST lc inh svc body w = (w', Returned (Json reply)) ->
  exists documentId messages document lastMessage uid aid rows first final requests,
    body = Returned {| Chat.body_messages := Some messages;
                       Chat.body_documentId := Some documentId |}
    /\ documents (store w) !! documentId = Some document
    /\ last messages = Some lastMessage
    /\ chat_completion svc (first_request rows document messages) = Returned first
    /\ trace w' = trace w ++ turn_calls documentId (content lastMessage) requests
    /\ chatMessages (store w') = chatMessages (store w) ++
         [{| message_id := uid; message_documentId := documentId;
             message_role := js "user"; message_content := content lastMessage;
             message_toolCalls := None |};
          {| message_id := aid; message_documentId := documentId;
             message_role := js "assistant";
             message_content := Chat.content_or_empty (assistant_content final);
             message_toolCalls := Chat.reply_toolCalls reply |}]
    /\ Chat.reply_message reply = final
    /\ match tool_calls first with
       | Some (c :: cs) =>
           exists results,
             Chat.run_tool_calls lc inh document (c :: cs) [] = Returned results
             /\ requests = [first_request rows document messages;
                            first_request rows document messages
                            ++ [MsgAssistant first] ++ List.map MsgTool results]
             /\ chat_completion svc (first_request rows document messages
                                     ++ [MsgAssistant first] ++ List.map MsgTool results)
                = Returned final
             /\ Chat.reply_toolCalls reply = Some (c :: cs)
       | _ =>
           requests = [first_request rows document messages]
           /\ final = first
           /\ Chat.reply_toolCalls reply = None
       end.
Proof.
  intros H.
  apply chat_POST_returned in H
    as (documentId & messages & document & lastMessage & Hbody & Hdoc & Hlast & _ & H).
  apply respond_returned in H
    as (uid & aid & v & s & rows & first & requests & final
        & _ & _ & _ & Hfirst & Htrace & Hmsgs & Hreply & Hcalls).
  cbn [store trace] in *.
  exists documentId, messages, document, lastMessage, uid, aid, rows, first, final, requests.
  repeat split; try assumption.
  rewrite Htrace. unfold turn_calls. rewrite <- !app_assoc. reflexivity.
Qed.

Lemma completion_requests_prefix tr full :
  tr `prefix_of` full ->
  completion_requests tr `prefix_of` completion_requests full.
Proof. intros [k ->]. rewrite completion_requests_app. eexists. reflexivity. Qed.

Lemma Forall_prefix {A} (P : A -> Prop) (l1 l2 : list A) :
  l1 `prefix_of` l2 -> Forall P l2 -> Forall P l1.
Proof. intros [k ->] H. apply Forall_app in H. tauto. Qed.

Lemma prefix_of_requests tr user_calls requests last_calls :
  tr `prefix_of` user_calls ++ List.map EvChatCompletion requests ++ last_calls ->
  completion_requests user_calls = [] ->
  completion_requests last_calls = [] ->
  completion_requests tr `prefix_of` requests.
Proof.
  intros Hpre Hu Hl. apply completion_requests_prefix in Hpre.
  rewrite !completion_requests_app, completion_requests_map, Hu, Hl in Hpre.
  cbn in Hpre. rewrite app_nil_r in Hpre. exact Hpre.
Qed.

Lemma prefix_head {A} (l1 l2 : list A) (x : A) :
  l1 `prefix_of` l2 -> head l1 = Some x -> head l2 = Some x.
Proof. intros [k ->]. destruct l1; [discriminate|]. exact id. Qed.

Lemma prefix_of_one {A} (l1 l2 : list A) (x : A) :
  l1 `prefix_of` l2 -> head l1 = Some x -> length l2 = 1 -> l1 = [x].
Proof.
  intros [k ->]. destruct l1 as [|y l1]; [discriminate|].
  intros [= ->]. rewrite length_app. cbn. destruct l1; [reflexivity|cbn; lia].
Qed.

(** The calls of a turn are an initial segment of [turn_calls], and the
    completion requests among them begin with the text of the document. *)
Lemma chat_POST_trace lc inh svc body w :
  exists tr documentId query requests,
    trace (Chat.POST lc inh svc body w).1 = trace w ++ tr
    /\ tr `prefix_of` turn_calls documentId query requests
    /\ (length requests = 1 \/ length requests = 2)
    /\ (forall b id document,
         body = Returned b -> Chat.body_documentId b = Some id ->
         documents (store w) !! id = Some document ->
         Forall (begins_with_document document) (completion_requests tr))
    /\ forall request first,
         head (completion_requests tr) = Some request ->
         chat_completion svc request = Returned first ->
         no_tool_calls first -> completion_requests tr = [request].
Proof.
  assert (Hnone : forall tr' : list Event, tr' = [] ->
            exists tr documentId query requests,
              trace w = trace w ++ tr
              /\ tr `prefix_of` turn_calls documentId query requests
              /\ (length requests = 1 \/ length requests = 2)
              /\ (forall b id document,
                   body = Returned b -> Chat.body_documentId b = Some id ->
                   documents (store w) !! id = Some document ->
                   Forall (begins_with_document document) (completion_requests tr))
              /\ forall request first,
                   head (completion_requests tr) = Some request ->
                   chat_completion svc request = Returned first ->
                   no_tool_calls first -> completion_requests tr = [request]).
  { intros _ _. exists [], EmptyString, [], [[]].
    split; [symmetry; apply app_nil_r|]. split; [apply prefix_nil|].
    split; [auto|]. split; [intros; constructor|]. intros ? ? [=]. }
  assert (Hlookup : forall documentId,
            exists tr documentId' query requests,
              trace w ++ [EvDocumentFindUnique documentId] = trace w ++ tr
              /\ tr `prefix_of` turn_calls documentId' query requests
              /\ (length requests = 1 \/ length requests = 2)
              /\ (forall b id document,
                   body = Returned b -> Chat.body_documentId b = Some id ->
                   documents (store w) !! id = Some document ->
                   Forall (begins_with_document document) (completion_requests tr))
              /\ forall request first,
                   head (completion_requests tr) = Some request ->
                   chat_completion svc request = Returned first ->
                   no_tool_calls first -> completion_requests tr = [request]).
  { intros documentId. exists [EvDocumentFindUnique documentId], documentId, [], [[]].
    split; [reflexivity|]. split; [eexists; reflexivity|].
    split; [auto|]. split; [intros; constructor|]. intros ? ? [=]. }
  rewrite chat_POST_run.
  destruct body as [b|e]; [|apply (Hnone [] eq_refl)].
  destruct (Chat.body_documentId b) as [documentId|] eqn:Hid; [|apply (Hnone [] eq_refl)].
  destruct (Chat.body_messages b) as [messages|]; [|apply (Hnone [] eq_refl)].
  destruct (bool_decide (documentId = EmptyString)); [apply (Hnone [] eq_refl)|].
  cbv zeta.
  destruct (document_findUnique_fault svc); [apply Hlookup|].
  destruct (documents (store w) !! documentId) as [document|] eqn:Hdoc; [|apply Hlookup].
  destruct (last messages) as [lastMessage|]; [|apply Hlookup].
  destruct (jsstring_eqb (role lastMessage) (js "user")); [|apply Hlookup].
  clear Hnone Hlookup.
  match goal with |- context [Chat.respond _ _ _ _ _ _ _ ?w0] =>
    destruct (respond_trace lc inh svc documentId document messages lastMessage w0 Hdoc)
      as (tr & requests & Htr & Hprefix & Hlen & Hbegin & Hone);
    destruct (Chat.respond lc inh svc documentId document messages lastMessage w0)
      as [w' [reply|e]]
  end; cbn [fst snd store trace] in *;
    (exists (EvDocumentFindUnique documentId :: tr), documentId, (content lastMessage), requests;
     split; [rewrite Htr, <- app_assoc; reflexivity|];
     split; [unfold turn_calls; apply prefix_cons, Hprefix|];
     split; [exact Hlen|];
     assert (Hreqs : completion_requests tr `prefix_of` requests)
       by (eapply prefix_of_requests; [exact Hprefix|reflexivity..]);
     cbn [completion_requests];
     split;
     [ intros b' id document' [= <-] Hid' Hdoc';
       assert (id = documentId) as -> by congruence;
       assert (document' = document) as -> by congruence;
       eapply Forall_prefix; [exact Hreqs|exact Hbegin]
     | intros request first Hhead Hanswer Hno;
       eapply prefix_of_one; [exact Hreqs|exact Hhead|];
       eapply Hone; [|exact Hanswer|exact Hno];
       eapply prefix_head; [exact Hreqs|exact Hhead] ]).
Qed.

(** *** Order of the calls *)

Lemma user_is_not_assistant : js "user" <> js "assistant".
Proof. vm_compute. discriminate. Qed.

Ltac index_cases H :=
  repeat (match type of H with
          | (_ :: _) !! ?i = Some _ =>
              destruct i as [|i]; cbn [lookup list_lookup] in H
          | [] !! _ = Some _ => discriminate H
          end).

(** Service calls come after the insert of the user message, which is the
    second call. *)
Lemma service_calls_follow_user tr documentId query requests i ev :
  tr `prefix_of` turn_calls documentId query requests ->
  tr !! i = Some ev -> is_service_call ev = true ->
  1 < i /\ tr !! 1 = Some (EvChatMessageCreate (js "user")).
Proof.
  intros Hpre Hi Hs.
  pose proof (prefix_lookup_Some _ _ _ _ Hi Hpre) as HL.
  pose proof (lookup_lt_Some _ _ _ Hi) as Hlen.
  assert (1 < i) as Hlt.
  { unfold turn_calls in HL. cbn [app] in HL.
    destruct i as [|[|i]]; cbn in HL; [| |lia]; injection HL as <-; discriminate Hs. }
  split; [exact Hlt|].
  rewrite (prefix_lookup_lt tr _ 1 ltac:(lia) Hpre). reflexivity.
Qed.

(** Before the insert of the user message there is the lookup only. *)
Lemma lookup_precedes_user tr documentId query requests i ev :
  tr `prefix_of` turn_calls documentId query requests ->
  tr !! i = Some ev -> i < 1 -> ev = EvDocumentFindUnique documentId.
Proof.
  intros Hpre Hi Hlt.
  pose proof (prefix_lookup_Some _ _ _ _ Hi Hpre) as HL.
  destruct i; [|lia]. cbn in HL. congruence.
Qed.

(** The insert of the assistant message is the last call, right after the
    final completion call. *)
Lemma assistant_is_last tr documentId query requests i :
  tr `prefix_of` turn_calls documentId query requests ->
  length requests = 1 \/ length requests = 2 ->
  tr !! i = Some (EvChatMessageCreate (js "assistant")) ->
  S i = length tr
  /\ (exists request, last requests = Some request
                      /\ tr !! (i - 1) = Some (EvChatCompletion request))
  /\ forall j ev, tr !! j = Some ev -> is_service_call ev = true -> j < i.
Proof.
  intros Hpre Hlen Hi.
  pose proof (prefix_lookup_Some _ _ _ _ Hi Hpre) as HL.
  pose proof (lookup_lt_Some _ _ _ Hi) as Hlti.
  pose proof (prefix_length _ _ Hpre) as Hle.
  assert (Hne : EvChatMessageCreate (js "user") <> EvChatMessageCreate (js "assistant"))
    by (intros [= H]; exact (user_is_not_assistant H)).
  unfold turn_calls in *.
  destruct requests as [|r1 [|r2 [|r3 rs]]]; cbn in Hlen;
    try (exfalso; destruct Hlen; discriminate || lia); clear Hlen;
    cbn [List.map app length] in *; index_cases HL;
    try discriminate HL; try (injection HL as HL; congruence).
  - assert (tr = [EvDocumentFindUnique documentId; EvChatMessageCreate (js "user");
                  EvEmbeddingsCreate query; EvNearestQuery documentId;
                  EvChatCompletion r1; EvChatMessageCreate (js "assistant")]) as ->
      by (apply prefix_length_eq; [exact Hpre|cbn; lia]).
    split; [reflexivity|]. split; [eexists; split; reflexivity|].
    intros j ev Hj Hs. index_cases Hj; try lia; injection Hj as <-; discriminate Hs.
  - assert (tr = [EvDocumentFindUnique documentId; EvChatMessageCreate (js "user");
                  EvEmbeddingsCreate query; EvNearestQuery documentId;
                  EvChatCompletion r1; EvChatCompletion r2;
                  EvChatMessageCreate (js "assistant")]) as ->
      by (apply prefix_length_eq; [exact Hpre|cbn; lia]).
    split; [reflexivity|]. split; [eexists; split; reflexivity|].
    intros j ev Hj Hs. index_cases Hj; try lia; injection Hj as <-; discriminate Hs.
Qed.

(** *** The turn *)

(** C3, as amended.  The calls of a turn are an initial segment of: the
    lookup of the document, the insert of the user message, the embedding
    call, the retrieval query, one or two completion calls, the insert of
    the assistant message.  So the user message is persisted before every
    call to the embedding service, the retrieval query and the completion
    service, with the lookup of the document (a store read) being the one
    call before it; and the assistant message is persisted last, right after the
    final completion call. *)
Theorem turn_call_order lc inh svc body w :
  exists tr documentId query requests,
    trace (Chat.POST lc inh svc body w).1 = trace w ++ tr
    /\ tr `prefix_of` turn_calls documentId query requests
    /\ (length requests = 1 \/ length requests = 2)
    /\ (forall i ev, tr !! i = Some ev -> is_service_call ev = true ->
          1 < i /\ tr !! 1 = Some (EvChatMessageCreate (js "user")))
    /\ (forall i ev, tr !! i = Some ev -> i < 1 -> ev = EvDocumentFindUnique documentId)
    /\ (forall i, tr !! i = Some (EvChatMessageCreate (js "assistant")) ->
          S i = length tr
          /\ (exists request, last requests = Some request
                              /\ tr !! (i - 1) = Some (EvChatCompletion request))
          /\ forall j ev, tr !! j = Some ev -> is_service_call ev = true -> j < i).
Proof.
  destruct (chat_POST_trace lc inh svc body w)
    as (tr & documentId & query & requests & Htr & Hpre & Hlen & _).
  exists tr, documentId, query, requests.
  split; [exact Htr|]. split; [exact Hpre|]. split; [exact Hlen|].
  split; [|split].
  - intros i ev. eapply service_calls_follow_user, Hpre.
  - intros i ev. eapply lookup_precedes_user, Hpre.
  - intros i. eapply assistant_is_last; eassumption.
Qed.

(** C3, as stated, fails: the first call of a turn is a store read, the
    lookup of the document, and the user message is persisted after it. *)
Lemma turn_reads_store_before_user_message :
  take 2 (trace (Chat.POST toLowerCaseASCII no_inherited (chat_services chat_with_tools)
                           (Returned question_body) invoice_world).1)
  = [EvDocumentFindUnique "doc-1"; EvChatMessageCreate (js "user")].
Proof. vm_compute. reflexivity. Qed.

(** C8.  The context text of a turn is the full stored text of the
    document, whatever the query vector and the embeddings: every row of
    the nearest-neighbour query carries that text, so both branches of
    [contextText] give it, and every completion request of the turn begins
    with the system message built from it. *)
Theorem context_is_document_text lc inh svc b documentId document w :
  Chat.body_documentId b = Some documentId ->
  documents (store w) !! documentId = Some document ->
  (forall q rows, nearest_rows (store w) q documentId = Returned rows ->
     Chat.contextText rows document = text document)
  /\ exists tr,
       trace (Chat.POST lc inh svc (Returned b) w).1 = trace w ++ tr
       /\ Forall (begins_with_document document) (completion_requests tr).
Proof.
  intros Hid Hdoc. split.
  - intros q rows Hrows. apply contextText_of_rows.
    eapply nearest_rows_text; eassumption.
  - destruct (chat_POST_trace lc inh svc (Returned b) w)
      as (tr & _ & _ & _ & Htr & _ & _ & Hbegin & _).
    exists tr. split; [exact Htr|]. eapply Hbegin; [reflexivity|eassumption..].
Qed.

(** *** Tool calls *)

Lemma run_tool_call_unanswered lc inh document toolCall toolResults :
  is_answered toolCall = false ->
  Chat.run_tool_call lc inh document toolCall toolResults = Returned toolResults.
Proof.
  destruct toolCall as [id name arguments|id name input]; [|reflexivity].
  cbn [is_answered Chat.run_tool_call]. intros H.
  apply orb_false_elim in H as [-> ->]. reflexivity.
Qed.

Lemma run_tool_call_answered lc inh document toolCall toolResults toolResults' :
  is_answered toolCall = true ->
  Chat.run_tool_call lc inh document toolCall toolResults = Returned toolResults' ->
  exists r, toolResults' = toolResults ++ [r] /\ tool_call_id r = call_id toolCall.
Proof.
  destruct toolCall as [id name arguments|id name input]; [|discriminate].
  cbn [is_answered Chat.run_tool_call call_id]. intros Ha.
  destruct (jsstring_eqb name (js "get_extracted_data")).
  - destruct (Chat.get_extracted_data inh document arguments) as [c|];
      cbn [mbind outcome_bind mret outcome_ret]; [|discriminate].
    intros [= <-]. eexists. split; reflexivity.
  - destruct (jsstring_eqb name (js "search_document_text")).
    + destruct (Chat.search_document_text lc document arguments) as [c|];
        cbn [mbind outcome_bind mret outcome_ret]; [|discriminate].
      intros [= <-]. eexists. split; reflexivity.
    + discriminate Ha.
Qed.

(** Unanswered calls do not take part in the loop. *)
Lemma run_tool_calls_filter lc inh document calls toolResults :
  Chat.run_tool_calls lc inh document (List.filter is_answered calls) toolResults
  = Chat.run_tool_calls lc inh document calls toolResults.
Proof.
  revert toolResults. induction calls as [|c calls IH]; intros toolResults; [reflexivity|].
  cbn [List.filter Chat.run_tool_calls]. destruct (is_answered c) eqn:Hc.
  - cbn [Chat.run_tool_calls].
    destruct (Chat.run_tool_call lc inh document c toolResults); cbn; [apply IH|reflexivity].
  - rewrite (run_tool_call_unanswered _ _ _ _ _ Hc). cbn. apply IH.
Qed.

(** The results are, in order, those of the answered calls. *)
Lemma run_tool_calls_ids lc inh document calls toolResults results :
  Chat.run_tool_calls lc inh document calls toolResults = Returned results ->
  List.map tool_call_id results
  = List.map tool_call_id toolResults ++ List.map call_id (List.filter is_answered calls).
Proof.
  revert toolResults. induction calls as [|c calls IH]; intros toolResults.
  - intros [= <-]. cbn. symmetry. apply app_nil_r.
  - cbn [Chat.run_tool_calls List.filter].
    destruct (Chat.run_tool_call lc inh document c toolResults) as [acc|] eqn:Hstep;
      [|discriminate].
    cbn. intros Hrest. apply IH in Hrest. rewrite Hrest.
    destruct (is_answered c) eqn:Hc.
    + destruct (run_tool_call_answered _ _ _ _ _ _ Hc Hstep) as (r & -> & Hr).
      rewrite List.map_app. cbn. rewrite Hr, <- app_assoc. reflexivity.
    + rewrite (run_tool_call_unanswered _ _ _ _ _ Hc) in Hstep.
      injection Hstep as <-. reflexivity.
Qed.

Lemma last_of_two {A} (l : list A) (x y : A) : last (l ++ [x; y]) = Some y.
Proof.
  replace (l ++ [x; y]) with ((l ++ [x]) ++ [y]) by (rewrite <- app_assoc; reflexivity).
  apply last_snoc.
Qed.

(** C9.  In a turn that runs to completion, a tool call of the first
    response that is not a function call to [get_extracted_data] or
    [search_document_text] leaves the tool results as they are: the second
    completion request carries the results of the answered calls only, in
    order, and the persisted assistant message records all the calls of the
    first response, this one included. *)
Theorem unanswered_tool_call lc inh svc body w w' reply tr request first calls toolCall :
  Chat.POST lc inh svc body w = (w', Returned (Json reply)) ->
  trace w' = trace w ++ tr ->
  head (completion_requests tr) = Some request ->
  chat_completion svc request = Returned first ->
  tool_calls first = Some calls ->
  In toolCall calls ->
  is_answered toolCall = false ->
  (forall document toolResults,
     Chat.run_tool_call lc inh document toolCall toolResults = Returned toolResults)
  /\ exists results assistant,
       completion_requests tr
       = [request; request ++ [MsgAssistant first] ++ List.map MsgTool results]
       /\ List.map tool_call_id results = List.map call_id (List.filter is_answered calls)
       /\ last (chatMessages (store w')) = Some assistant
       /\ message_role assistant = js "assistant"
       /\ message_toolCalls assistant = Some calls
       /\ In toolCall calls.
Proof.
  intros H Htr Hhead Hfirst Hcalls Hin Hun.
  split; [intros; apply run_tool_call_unanswered; exact Hun|].
  apply chat_POST_returned_trace in H
    as (documentId & messages & document & lastMessage & uid & aid & rows & first0 & final
        & requests & _ & _ & _ & Hfirst0 & Htrace & Hmsgs & _ & Hrun).
  rewrite Htr in Htrace. apply app_inv_head in Htrace. subst tr.
  rewrite completion_requests_turn in *.
  assert (Hreq : request = first_request rows document messages).
  { destruct (tool_calls first0) as [[|c cs]|];
      [destruct Hrun as (-> & _)|destruct Hrun as (? & _ & -> & _)
      |destruct Hrun as (-> & _)]; cbn in Hhead; congruence. }
  subst request. assert (first0 = first) as -> by congruence.
  rewrite Hcalls in Hrun. destruct calls as [|c cs]; [destruct Hin|].
  destruct Hrun as (results & Hresults & -> & _ & Hrecorded).
  eexists results, _. split; [reflexivity|].
  split; [apply run_tool_calls_ids in Hresults; exact Hresults|].
  split; [rewrite Hmsgs; apply last_of_two|].
  cbn [message_role message_toolCalls]. auto.
Qed.

(** *** Rows appended to the transcript *)

Lemma appends_preserving {A} (m : Eff A) : store_preserving m -> appends m [].
Proof.
  intros Hm w. exists []. rewrite Hm, app_nil_r. repeat split. apply prefix_nil.
Qed.

Lemma appends_bind {A B} (m : Eff A) (f : A -> Eff B) roles1 roles2 :
  appends m roles1 -> (forall a, appends (f a) roles2) ->
  appends (m ≫= f) (roles1 ++ roles2).
Proof.
  intros Hm Hf w. rewrite bind_run.
  destruct (Hm w) as (new1 & H1 & P1 & R1).
  destruct (m w) as [w1 [a|e]]; cbn [fst snd] in *.
  - destruct (Hf a w1) as (new2 & H2 & P2 & R2).
    exists (new1 ++ new2). rewrite H2, H1, <- app_assoc, List.map_app, (R1 a eq_refl).
    split; [reflexivity|]. split; [apply prefix_app, P2|].
    intros b Hb. rewrite (R2 b Hb). reflexivity.
  - exists new1. split; [exact H1|]. split; [apply prefix_app_r, P1|]. discriminate.
Qed.

Lemma appends_create svc docId r c calls :
  appends (db_chatMessage_create svc docId r c calls) [r].
Proof.
  intros w. pose proof (db_chatMessage_create_run svc docId r c calls w) as H.
  cbv zeta in H. destruct H as (_ & _ & _ & H).
  destruct (db_chatMessage_create svc docId r c calls w) as [w' [[]|e]]; cbn [fst snd] in *.
  - destruct H as (id & ->). eexists. split; [reflexivity|]. split; reflexivity.
  - exists []. rewrite app_nil_r. split; [exact H|]. split; [apply prefix_nil|discriminate].
Qed.

Lemma db_nearest_query_preserving svc q docId :
  store_preserving (Chat.db_nearest_query svc q docId).
Proof. intros w. rewrite db_nearest_query_run. reflexivity. Qed.

Lemma respond_appends lc inh svc documentId document messages lastMessage :
  appends (Chat.respond lc inh svc documentId document messages lastMessage)
          [js "user"; js "assistant"].
Proof.
  unfold Chat.respond.
  apply (appends_bind _ _ [_] [_]); [apply appends_create|intros _].
  apply (appends_bind _ _ [] [_]);
    [apply appends_preserving; auto with store_preserving|intros v].
  apply (appends_bind _ _ [] [_]);
    [apply appends_preserving, db_nearest_query_preserving|intros rows].
  cbv zeta.
  apply (appends_bind _ _ [] [_]);
    [apply appends_preserving; auto with store_preserving|intros first].
  destruct (tool_calls first) as [[|c cs]|].
  - apply (appends_bind _ _ [_] []); [apply appends_create|intros _].
    apply appends_preserving; auto with store_preserving.
  - apply (appends_bind _ _ [] [_]);
      [apply appends_preserving; auto with store_preserving|intros results].
    apply (appends_bind _ _ [] [_]);
      [apply appends_preserving; auto with store_preserving|intros final].
    apply (appends_bind _ _ [_] []); [apply appends_create|intros _].
    apply appends_preserving; auto with store_preserving.
  - apply (appends_bind _ _ [_] []); [apply appends_create|intros _].
    apply appends_preserving; auto with store_preserving.
Qed.

(** A turn appends the user message, then the assistant message, and
    nothing else; both when it answers. *)
Lemma chat_POST_appends lc inh svc body w :
  exists new,
    chatMessages (store (Chat.POST lc inh svc body w).1) = chatMessages (store w) ++ new
    /\ List.map message_role new `prefix_of` [js "user"; js "assistant"]
    /\ forall reply, (Chat.POST lc inh svc body w).2 = Returned (Json reply) ->
         List.map message_role new = [js "user"; js "assistant"].
Proof.
  assert (Hnone : forall (s : Store) (r : Response Chat.Reply),
            s = store w -> (forall reply, r <> Json reply) ->
            exists new,
              chatMessages s = chatMessages (store w) ++ new
              /\ List.map message_role new `prefix_of` [js "user"; js "assistant"]
              /\ forall reply, Returned r = Returned (Json reply) ->
                   List.map message_role new = [js "user"; js "assistant"]).
  { intros s r -> Hr. exists []. rewrite app_nil_r. split; [reflexivity|].
    split; [apply prefix_nil|]. intros reply [= ->]. destruct (Hr reply eq_refl). }
  rewrite chat_POST_run.
  destruct body as [b|e]; [|apply Hnone; [reflexivity|discriminate]].
  destruct (Chat.body_documentId b) as [documentId|];
    [|apply Hnone; [reflexivity|discriminate]].
  destruct (Chat.body_messages b) as [messages|];
    [|apply Hnone; [reflexivity|discriminate]].
  destruct (bool_decide (documentId = EmptyString));
    [apply Hnone; [reflexivity|discriminate]|].
  cbv zeta.
  destruct (document_findUnique_fault svc); [apply Hnone; [reflexivity|discriminate]|].
  destruct (documents (store w) !! documentId) as [document|];
    [|apply Hnone; [reflexivity|discriminate]].
  destruct (last messages) as [lastMessage|]; [|apply Hnone; [reflexivity|discriminate]].
  destruct (jsstring_eqb (role lastMessage) (js "user"));
    [|apply Hnone; [reflexivity|discriminate]].
  match goal with |- context [Chat.respond _ _ _ _ _ _ _ ?w0] =>
    destruct (respond_appends lc inh svc documentId document messages lastMessage w0)
      as (new & Hnew & Hpre & Hall);
    destruct (Chat.respond lc inh svc documentId document messages lastMessage w0)
      as [w' [reply|e]]
  end; cbn [fst snd store] in *; exists new; (split; [exact Hnew|]); (split; [exact Hpre|]).
  - intros _ _. exact (Hall reply eq_refl).
  - discriminate.
Qed.

(** *** The rows of a turn *)

Lemma store_eq (s s' : Store) :
  documents s = documents s' -> embeddings s = embeddings s' ->
  chatMessages s = chatMessages s' -> s = s'.
Proof. destruct s, s'; cbn; congruence. Qed.

Lemma persists_reply_bind {A} documentId (m : Eff A) (f : A -> Eff Chat.Reply) :
  store_preserving m -> (forall a, persists_reply documentId (f a)) ->
  persists_reply documentId (m ≫= f).
Proof.
  intros Hm Hf w. rewrite bind_run. specialize (Hm w).
  destruct (m w) as [w1 [a|e]]; cbn [fst snd] in *; [|exact Hm].
  specialize (Hf a w1). rewrite Hm in Hf. exact Hf.
Qed.

Lemma persists_reply_create svc documentId final calls :
  persists_reply documentId
    (db_chatMessage_create svc documentId (js "assistant")
       (Chat.content_or_empty (assistant_content final)) calls;;
     mret {| Chat.reply_message := final; Chat.reply_toolCalls := calls |}).
Proof.
  intros w. rewrite bind_run.
  pose proof (db_chatMessage_create_run svc documentId (js "assistant")
                (Chat.content_or_empty (assistant_content final)) calls w) as H.
  cbv zeta in H. destruct H as (_ & Hd & He & Hm).
  destruct (db_chatMessage_create _ _ _ _ _ w) as [w1 [[]|e]]; cbn [fst snd mret Eff_ret] in *.
  - split; [exact Hd|]. split; [exact He|]. exact Hm.
  - apply store_eq; assumption.
Qed.

Lemma respond_store lc inh svc documentId document messages lastMessage w :
  let run := Chat.respond lc inh svc documentId document messages lastMessage w in
  documents (store run.1) = documents (store w)
  /\ embeddings (store run.1) = embeddings (store w)
  /\ exists new,
       chatMessages (store run.1) = chatMessages (store w) ++ new
       /\ match run.2 with
          | Thrown _ => new = [] \/ exists uid, new = [user_row uid documentId lastMessage]
          | Returned reply =>
              exists uid aid, new = [user_row uid documentId lastMessage;
                                     assistant_row aid documentId reply]
          end.
Proof.
  cbv zeta. unfold Chat.respond. rewrite bind_run.
  pose proof (db_chatMessage_create_run svc documentId (js "user")
                (content lastMessage) None w) as Hu. cbv zeta in Hu.
  destruct Hu as (_ & Hdu & Heu & Hmu).
  destruct (db_chatMessage_create svc documentId (js "user") (content lastMessage) None w)
    as [wa [[]|e]]; cbn [fst snd] in *.
  2: { split; [exact Hdu|]. split; [exact Heu|]. exists []. rewrite app_nil_r. auto. }
  destruct Hmu as (uid & Hmu).
  match goal with |- context [(?rest wa).1] =>
    assert (Hrest : persists_reply documentId rest)
  end.
  { apply persists_reply_bind; [auto with store_preserving|intros v].
    apply persists_reply_bind; [apply db_nearest_query_preserving|intros rows].
    cbv zeta.
    apply persists_reply_bind; [auto with store_preserving|intros first].
    destruct (tool_calls first) as [[|c cs]|]; try apply persists_reply_create.
    apply persists_reply_bind; [auto with store_preserving|intros results].
    apply persists_reply_bind; [auto with store_preserving|intros final].
    apply persists_reply_create. }
  specialize (Hrest wa).
  match goal with |- context [(?rest wa).1] => destruct (rest wa) as [w' [reply|e]] end;
    cbn [fst snd] in *.
  - destruct Hrest as (Hd & He & aid & Hm).
    split; [congruence|]. split; [congruence|].
    eexists. split; [rewrite Hm, Hmu, <- app_assoc; reflexivity|].
    exists uid, aid. reflexivity.
  - rewrite Hrest. split; [exact Hdu|]. split; [exact Heu|].
    eexists. split; [exact Hmu|]. right. exists uid. reflexivity.
Qed.

(** A turn answered with an error has written no assistant row. *)
Lemma chat_POST_error_rows lc inh svc body w status error :
  (Chat.POST lc inh svc body w).2 = Returned (JsonError status error) ->
  exists new,
    chatMessages (store (Chat.POST lc inh svc body w).1) = chatMessages (store w) ++ new
    /\ List.map message_role new `prefix_of` [js "user"].
Proof.
  rewrite chat_POST_run.
  assert (Hnone : forall (s : Store) (o : outcome (Response Chat.Reply)), s = store w ->
            exists new, chatMessages s = chatMessages (store w) ++ new
                        /\ List.map message_role new `prefix_of` [js "user"]).
  { intros s _ ->. exists []. rewrite app_nil_r. split; [reflexivity|apply prefix_nil]. }
  destruct body as [b|e]; [|intros _; apply (Hnone _ (Thrown e)); reflexivity].
  destruct (Chat.body_documentId b) as [documentId|];
    [|intros _; apply (Hnone _ (Thrown None)); reflexivity].
  destruct (Chat.body_messages b) as [messages|];
    [|intros _; apply (Hnone _ (Thrown None)); reflexivity].
  destruct (bool_decide (documentId = EmptyString));
    [intros _; apply (Hnone _ (Thrown None)); reflexivity|].
  cbv zeta.
  destruct (document_findUnique_fault svc);
    [intros _; apply (Hnone _ (Thrown None)); reflexivity|].
  destruct (documents (store w) !! documentId) as [document|];
    [|intros _; apply (Hnone _ (Thrown None)); reflexivity].
  destruct (last messages) as [lastMessage|];
    [|intros _; apply (Hnone _ (Thrown None)); reflexivity].
  destruct (jsstring_eqb (role lastMessage) (js "user"));
    [|intros _; apply (Hnone _ (Thrown None)); reflexivity].
  pose proof (respond_store lc inh svc documentId document messages lastMessage
                {| store := store w; trace := trace w ++ [EvDocumentFindUnique documentId] |})
    as Hr. cbv zeta in Hr.
  destruct (Chat.respond lc inh svc documentId document messages lastMessage _)
    as [w1 [reply|e]]; cbn [fst snd store] in *; [discriminate|].
  intros _. destruct Hr as (_ & _ & new & Hm & [-> | (uid & ->)]).
  - exists []. split; [exact Hm|apply prefix_nil].
  - eexists. split; [exact Hm|reflexivity].
Qed.

(** C6, as amended.  In every turn at most two completion calls are made
    and at most one assistant message is persisted, after the user message;
    when the first completion response has no tool calls, no further
    completion call is made; and a turn that answers with an error (a call,
    a tool or an insert has thrown) has persisted no assistant message.  In
    a turn that answers with a reply, exactly one assistant message is
    persisted: with [toolCalls] null when the first response has no tool
    calls; and when it has N of them, with [toolCalls] the list of all N
    calls, after exactly one more completion call, whose response is the
    reply whatever it contains. *)
Theorem chat_turn_rounds lc inh svc body w :
  let run := Chat.POST lc inh svc body w in
  exists tr new,
    trace run.1 = trace w ++ tr
    /\ chatMessages (store run.1) = chatMessages (store w) ++ new
    /\ length (completion_requests tr) <= 2
    /\ List.map message_role new `prefix_of` [js "user"; js "assistant"]
    /\ (forall request first,
          head (completion_requests tr) = Some request ->
          chat_completion svc request = Returned first ->
          no_tool_calls first -> completion_requests tr = [request])
    /\ (forall status error,
          run.2 = Returned (JsonError status error) ->
          List.map message_role new `prefix_of` [js "user"])
    /\ forall reply, run.2 = Returned (Json reply) ->
         exists request first user assistant,
           head (completion_requests tr) = Some request
           /\ chat_completion svc request = Returned first
           /\ new = [user; assistant]
           /\ message_role user = js "user"
           /\ message_role assistant = js "assistant"
           /\ match tool_calls first with
              | Some (c :: cs) =>
                  exists second final,
                    completion_requests tr = [request; second]
                    /\ chat_completion svc second = Returned final
                    /\ message_toolCalls assistant = Some (c :: cs)
                    /\ message_content assistant
                       = Chat.content_or_empty (assistant_content final)
                    /\ Chat.reply_message reply = final
              | _ =>
                  completion_requests tr = [request]
                  /\ message_toolCalls assistant = None
                  /\ message_content assistant
                     = Chat.content_or_empty (assistant_content first)
                  /\ Chat.reply_message reply = first
              end.
Proof.
  intros run. subst run.
  destruct (chat_POST_trace lc inh svc body w)
    as (tr & documentId0 & query0 & requests0 & Htr & Hpre & Hlen & _ & Hone).
  destruct (chat_POST_appends lc inh svc body w) as (new & Hnew & Hroles & _).
  exists tr, new. split; [exact Htr|]. split; [exact Hnew|].
  split.
  { assert (completion_requests tr `prefix_of` requests0) as Hreqs
      by (unfold turn_calls in Hpre; eapply prefix_of_requests;
          [exact Hpre|reflexivity..]).
    apply prefix_length in Hreqs. destruct Hlen; lia. }
  split; [exact Hroles|]. split; [exact Hone|].
  split.
  { intros status error Herror.
    destruct (chat_POST_error_rows _ _ _ _ _ _ _ Herror) as (new' & Hnew' & Hroles').
    rewrite Hnew in Hnew'. apply app_inv_head in Hnew'. subst new'. exact Hroles'. }
  intros reply Hreply.
  destruct (Chat.POST lc inh svc body w) as [w' r] eqn:Hrun. cbn [fst snd] in *. subst r.
  apply chat_POST_returned_trace in Hrun
    as (documentId & messages & document & lastMessage & uid & aid & rows & first & final
        & requests & _ & _ & _ & Hfirst & Htrace & Hmsgs & Hfinal & Hcalls).
  rewrite Htr in Htrace. apply app_inv_head in Htrace. subst tr.
  rewrite Hnew in Hmsgs. apply app_inv_head in Hmsgs. subst new.
  rewrite completion_requests_turn.
  eexists (first_request rows document messages), first, _, _.
  split; [|split; [exact Hfirst|split; [reflexivity|split; [reflexivity|split; [reflexivity|]]]]].
  - destruct (tool_calls first) as [[|c cs]|];
      [destruct Hcalls as (-> & _)|destruct Hcalls as (? & _ & -> & _)
      |destruct Hcalls as (-> & _)]; reflexivity.
  - cbn [message_toolCalls message_content].
    destruct (tool_calls first) as [[|c cs]|].
    + destruct Hcalls as (-> & -> & ->). auto.
    + destruct Hcalls as (results & _ & -> & Hsecond & ->).
      eexists _, final. auto.
    + destruct Hcalls as (-> & -> & ->). auto.
Qed.

(** A turn whose first completion response carries one tool call, with
    arguments that are not JSON: the tool throws, no further completion
    call is made and no assistant message is persisted. *)
Lemma turn_with_failing_tool_persists_no_assistant :
  let svc := chat_services chat_malformed in
  let run := Chat.POST toLowerCaseASCII no_inherited svc
               (Returned question_body) invoice_world in
  (chat_completion svc <$> head (completion_requests (trace run.1)))
  = Some (Returned {| assistant_content := None; tool_calls := Some [malformed_call] |})
  /\ length (completion_requests (trace run.1)) = 1
  /\ List.filter (fun m => jsstring_eqb (message_role m) (js "assistant"))
                 (chatMessages (store run.1)) = []
  /\ List.map message_role (chatMessages (store run.1)) = [js "user"]
  /\ run.2 = Returned (JsonError 500 "Unexpected token in JSON").
Proof. vm_compute. repeat split; reflexivity. Qed.

(** ** The model on concrete inputs *)

Example sanitize_example :
  sanitizeForPostgresText [0; 74; 11; 9; 111; 31; 10; 13; 104; 12; 110]%N
  = [74; 9; 111; 10; 13; 104; 110]%N.
Proof. reflexivity. Qed.

Example trim_example :
  trim (js "  padded text " ++ [10; 160; 8232]%N) = js "padded text".
Proof. reflexivity. Qed.

Example own_property_examples :
  own_property (JArray [JNull; JBool true]) (js "1") = Some (JBool true)
  /\ own_property (JArray [JNull; JBool true]) (js "01") = None
  /\ own_property (JArray [JNull; JBool true]) (js "2") = None
  /\ own_property (JArray [JNull; JBool true]) (js "length") = Some (JNumber 2)
  /\ own_property (JString (js "text")) (js "length") = None.
Proof. repeat split; reflexivity. Qed.

(** The scenario of the specification: one Document row with the redacted
    text and status REVIEW_REQUIRED, one Embedding row. *)
Example ingest_scenario :
  let run := Ingest.POST toLowerCaseASCII (services_up scenario_upload)
                         (Returned (Some sample_file)) empty_world in
  run.2 = Returned (Json "doc-1"%string)
  /\ documents (store run.1) !! "doc-1"%string
     = Some {| filename := js "notes.txt";
               text := js "John Doe, SSN [REDACTED_SSN].";
               schema := JObject [];
               extracted := sparse_extracted;
               confidence := JObject [];
               status := js "REVIEW_REQUIRED" |}
  /\ List.map embedding_documentId (embeddings (store run.1)) = ["doc-1"%string]
  /\ trace run.1
     = [EvFileText; EvSchemaCompletion (js "John Doe, SSN [REDACTED_SSN].");
        EvDocumentCreate; EvEmbeddingsCreate (js "John Doe, SSN [REDACTED_SSN].");
        EvEmbeddingInsert "doc-1"].
Proof. vm_compute. repeat split; reflexivity. Qed.

(** A file that is neither text nor PDF is ingested with the empty text. *)
Example ingest_image :
  let run := Ingest.POST toLowerCaseASCII (services_up scenario_upload)
               (Returned (Some {| file_name := js "scan.PNG"; file_type := js "image/png" |}))
               empty_world in
  run.2 = Returned (Json "doc-1"%string)
  /\ (text <$> documents (store run.1) !! "doc-1"%string) = Some []
  /\ trace run.1 = [EvFileArrayBuffer; EvSchemaCompletion (js "(empty)"); EvDocumentCreate].
Proof. vm_compute. repeat split; reflexivity. Qed.

Example ingest_missing_file :
  Ingest.POST toLowerCaseASCII (services_up scenario_upload) (Returned None) empty_world
  = (empty_world, Returned (JsonError 400 "Missing file")).
Proof. reflexivity. Qed.

Example get_extracted_data_examples :
  Chat.get_extracted_data no_inherited invoice EmptyText
  = Returned (Stringified sparse_extracted)
  /\ Chat.get_extracted_data no_inherited invoice
       (JSONText (JObject [(js "field", JString (js "doc_type"))]))
     = Returned (Stringified (JString (js "invoice")))
  /\ Chat.get_extracted_data no_inherited invoice
       (JSONText (JObject [(js "field", JString (js "person.name"))]))
     = Returned (Stringified JNull)
  /\ Chat.get_extracted_data no_inherited invoice
       (JSONText (JObject [(js "field", JNumber 1)]))
     = Thrown TypeError
  /\ Chat.get_extracted_data no_inherited invoice (NotJSON (js "{field:"))
     = Thrown SyntaxError.
Proof. repeat split; reflexivity. Qed.

Example search_document_text_examples :
  Chat.search_document_text toLowerCaseASCII invoice
    (JSONText (JObject [(js "query", JString (js "TOTAL"))]))
  = Returned (Literal (js "Total: 100 EUR"))
  /\ Chat.search_document_text toLowerCaseASCII invoice
       (JSONText (JObject [(js "query", JString (js "refund"))]))
     = Returned (Literal Chat.NO_MATCH)
  /\ Chat.search_document_text toLowerCaseASCII invoice
       (JSONText (JObject [(js "query", JNumber 42)]))
     = Thrown TypeError.
Proof. vm_compute. repeat split; reflexivity. Qed.

(** A turn with tool calls: seven calls, two rows in the transcript. *)
Example turn_with_tools :
  let run := Chat.POST toLowerCaseASCII no_inherited (chat_services chat_with_tools)
                       (Returned question_body) invoice_world in
  List.map is_service_call (trace run.1) = [false; false; true; true; true; true; false]
  /\ List.map message_role (chatMessages (store run.1)) = [js "user"; js "assistant"]
  /\ List.map (fun request => length request) (completion_requests (trace run.1)) = [2; 4].
Proof. vm_compute. repeat split; reflexivity. Qed.

(** A turn whose tool call carries arguments that are not JSON stops after
    the first completion call: the user message stays, no reply is saved. *)
Example turn_with_malformed_arguments :
  let chat := fun _ : list Message =>
    Returned {| assistant_content := None;
                tool_calls := Some [FunctionToolCall (js "call_1") (js "get_extracted_data")
                                      (NotJSON (js "{field:"))] |} in
  let run := Chat.POST toLowerCaseASCII no_inherited (chat_services chat)
                       (Returned question_body) invoice_world in
  run.2 = Returned (JsonError 500 "Unexpected token in JSON")
  /\ List.map message_role (chatMessages (store run.1)) = [js "user"]
  /\ length (completion_requests (trace run.1)) = 1.
Proof. vm_compute. repeat split; reflexivity. Qed.

Example turn_on_unknown_document :
  let run := Chat.POST toLowerCaseASCII no_inherited (chat_services chat_with_tools)
               (Returned {| Chat.body_messages := Some [question];
                            Chat.body_documentId := Some "doc-2"%string |})
               invoice_world in
  run.2 = Returned (JsonError 404 "Document not found")
  /\ chatMessages (store run.1) = []
  /\ trace run.1 = [EvDocumentFindUnique "doc-2"].
Proof. vm_compute. repeat split; reflexivity. Qed.

(** ** Concrete runs *)

Lemma ingest_failure_writes_no_row_witness :
  store (Ingest.POST toLowerCaseASCII services_not_JSON
                     (Returned (Some sample_file)) empty_world).1
  = empty_store.
Proof.
  destruct (ingest_failure_writes_no_row toLowerCaseASCII services_not_JSON
              sample_file empty_world) as (w' & e & Hpost & Hstore).
  - right. do 3 eexists. split; [vm_compute; reflexivity|].
    split; [vm_compute; reflexivity|]. right; right. eexists; reflexivity.
  - rewrite Hpost. exact Hstore.
Defined.

Lemma search_with_empty_query_witness :
  Chat.search_document_text toLowerCaseASCII invoice EmptyText
  = Returned (Literal (join [10%N] (take 5 invoice_lines))).
Proof.
  destruct (search_with_empty_query toLowerCaseASCII invoice EmptyText (JObject []) None)
    as (_ & _ & H).
  - reflexivity.
  - reflexivity.
  - reflexivity.
  - left; reflexivity.
  - rewrite H. vm_compute. reflexivity.
Defined.

Lemma context_is_document_text_witness :
  exists tr,
    trace (Chat.POST toLowerCaseASCII no_inherited (chat_services chat_with_tools)
                     (Returned question_body) invoice_world).1
    = trace invoice_world ++ tr
    /\ Forall (begins_with_document invoice) (completion_requests tr).
Proof.
  exact (proj2 (context_is_document_text toLowerCaseASCII no_inherited
                  (chat_services chat_with_tools) question_body "doc-1" invoice
                  invoice_world eq_refl ltac:(vm_compute; reflexivity))).
Defined.

Lemma chat_turn_rounds_witness :
  exists w' user assistant,
    Chat.POST toLowerCaseASCII no_inherited (chat_services chat_with_tools)
              (Returned question_body) invoice_world
    = (w', Returned (Json {| Chat.reply_message := final_response;
                             Chat.reply_toolCalls := Some [search_call; unknown_call] |}))
    /\ chatMessages (store w') = [user; assistant]
    /\ message_toolCalls assistant = Some [search_call; unknown_call]
    /\ length (completion_requests (trace w')) = 2.
Proof.
  pose proof (chat_turn_rounds toLowerCaseASCII no_inherited (chat_services chat_with_tools)
                (Returned question_body) invoice_world) as H. cbv zeta in H.
  destruct (Chat.POST toLowerCaseASCII no_inherited (chat_services chat_with_tools)
              (Returned question_body) invoice_world) as [w' r] eqn:Hrun.
  assert (Hr : r = Returned (Json {| Chat.reply_message := final_response;
                                     Chat.reply_toolCalls := Some [search_call; unknown_call] |})).
  { apply (f_equal snd) in Hrun. vm_compute in Hrun. rewrite <- Hrun.
    vm_compute. reflexivity. }
  subst r. cbn [fst snd] in H.
  destruct H as (tr & new & Htr & Hnew & _ & _ & _ & _ & Hdone).
  destruct (Hdone _ eq_refl)
    as (request & first & user & assistant & Hhead & Hfirst & -> & _ & _ & Hm).
  cbn [trace chatMessages store invoice_world app] in Htr, Hnew. subst tr.
  assert (Hfirst' : first = tool_response).
  { change (chat_completion (chat_services chat_with_tools) request)
      with (chat_with_tools request) in Hfirst.
    unfold chat_with_tools in Hfirst. injection Hfirst as <-.
    apply (f_equal fst) in Hrun. cbn [fst] in Hrun. rewrite <- Hrun in Hhead.
    vm_compute in Hhead. injection Hhead as <-. vm_compute. reflexivity. }
  subst first. cbn [tool_calls tool_response] in Hm.
  destruct Hm as (second & final & Hreqs & _ & Hcalls & _).
  exists w', user, assistant. split; [reflexivity|].
  split; [exact Hnew|]. split; [exact Hcalls|]. rewrite Hreqs. reflexivity.
Defined.

Lemma unanswered_tool_call_witness :
  exists w' results assistant,
    Chat.POST toLowerCaseASCII no_inherited (chat_services chat_with_tools)
              (Returned question_body) invoice_world
    = (w', Returned (Json {| Chat.reply_message := final_response;
                             Chat.reply_toolCalls := Some [search_call; unknown_call] |}))
    /\ List.map tool_call_id results = [js "call_1"]
    /\ last (chatMessages (store w')) = Some assistant
    /\ message_toolCalls assistant = Some [search_call; unknown_call].
Proof.
  destruct (Chat.POST toLowerCaseASCII no_inherited (chat_services chat_with_tools)
              (Returned question_body) invoice_world) as [w' r] eqn:Hrun.
  assert (Hr : r = Returned (Json {| Chat.reply_message := final_response;
                                     Chat.reply_toolCalls := Some [search_call; unknown_call] |})).
  { apply (f_equal snd) in Hrun. vm_compute in Hrun. rewrite <- Hrun.
    vm_compute. reflexivity. }
  subst r.
  assert (Htrace : exists request rest,
             completion_requests (trace w') = request :: rest
             /\ is_second_round request = false).
  { apply (f_equal fst) in Hrun. cbn [fst] in Hrun. rewrite <- Hrun.
    do 2 eexists. split; vm_compute; reflexivity. }
  destruct Htrace as (request & rest & Hreqs & Hround).
  edestruct (unanswered_tool_call toLowerCaseASCII no_inherited
               (chat_services chat_with_tools) (Returned question_body) invoice_world
               w' _ (trace w') request tool_response [search_call; unknown_call] unknown_call
               Hrun)
    as (_ & results & assistant & _ & Hids & Hlast & _ & Hcalls & _).
  - reflexivity.
  - rewrite Hreqs. reflexivity.
  - change (chat_completion (chat_services chat_with_tools) request)
      with (chat_with_tools request).
    unfold chat_with_tools. rewrite Hround. reflexivity.
  - reflexivity.
  - right; left; reflexivity.
  - vm_compute. reflexivity.
  - exists w', results, assistant. split; [reflexivity|].
    split; [rewrite Hids; vm_compute; reflexivity|]. auto.
Defined.

(** * Further properties *)


(** ** Redaction *)

Section ReplaceBounded.

#[local] Unset Default Proof Using.

(** The pattern replaced, its placeholder, and the pattern looked for in
    the output.  Both patterns begin and end with a class of word
    characters, as [\d{3}-\d{2}-\d{4}] and [\d{16}] do, and no code unit of
    the placeholder belongs to a class of [Q]. *)
Variables (P Q : list (code_unit -> bool)) (ph : jsstring).
Variables (p0 q0 : code_unit -> bool) (P' Q' : list (code_unit -> bool)).
Hypothesis P_cons : P = p0 :: P'.
Hypothesis Q_cons : Q = q0 :: Q'.
Hypothesis p0_word : forall c, p0 c = true -> is_word c = true.
Hypothesis q0_word : forall c, q0 c = true -> is_word c = true.
Hypothesis P_last_word : forall p c, last P = Some p -> p c = true -> is_word c = true.
Hypothesis Q_last_word : forall q c, last Q = Some q -> q c = true -> is_word c = true.
Hypothesis ph_not_nil : ph <> [].
Hypothesis ph_rejected : rejected_by Q ph = true.

Lemma match_classes_last (pat : list (code_unit -> bool)) s rest :
  pat <> [] ->
  match_classes pat s = Some rest ->
  exists p c, last pat = Some p
              /\ last (firstn (length pat) s) = Some c
              /\ p c = true.
Proof.
  revert s. induction pat as [|p pat IH]; intros s Hne H; [congruence|].
  destruct s as [|c s]; [discriminate|]. cbn [match_classes] in H.
  destruct (p c) eqn:Hp; [|discriminate].
  destruct pat as [|p' pat].
  - exists p, c. cbn. auto.
  - destruct (IH s ltac:(discriminate) H) as (pl & cl & Hl & Hc & Hpc).
    exists pl, cl. split; [exact Hl|]. split; [|exact Hpc].
    cbn [length firstn] in *. destruct s as [|d s]; [discriminate|].
    cbn [firstn] in *. rewrite last_cons_cons. exact Hc.
Qed.

(** After a match of a pattern that ends with a word class, the next code
    unit is not a word character. *)
Lemma bounded_match_at_after (pat : list (code_unit -> bool)) prev s :
  pat <> [] ->
  (forall p c, last pat = Some p -> p c = true -> is_word c = true) ->
  bounded_match_at pat prev s = true ->
  exists rest, match_classes pat s = Some rest /\ is_word_at (head rest) = false.
Proof.
  intros Hne Hlast H. unfold bounded_match_at in H.
  destruct (match_classes pat s) as [rest|] eqn:Hm; [|discriminate].
  exists rest. split; [reflexivity|].
  apply andb_true_iff in H as [_ H].
  destruct (match_classes_last pat s rest Hne Hm) as (p & c & Hp & Hc & Hpc).
  rewrite Hc in H. unfold word_boundary in H. cbn [is_word_at] in H.
  rewrite (Hlast p c Hp Hpc) in H. destruct (is_word_at (head rest)); [discriminate|reflexivity].
Qed.

(** A pattern that begins with a word class does not match at a code unit
    that is not a word character. *)
Lemma bounded_match_at_head (pat : list (code_unit -> bool)) p pat' prev s :
  pat = p :: pat' ->
  (forall c, p c = true -> is_word c = true) ->
  is_word_at (head s) = false ->
  bounded_match_at pat prev s = false.
Proof.
  intros -> Hp Hs. unfold bounded_match_at. destruct s as [|c s]; [reflexivity|].
  cbn [match_classes]. destruct (p c) eqn:Hpc; [|reflexivity].
  cbn in Hs. rewrite (Hp c Hpc) in Hs. discriminate.
Qed.

(** No match of [Q] begins inside the placeholder. *)
Lemma has_match_placeholder l ctx X :
  rejected_by Q l = true -> l <> [] ->
  exists ctx', has_match Q ctx (l ++ X) = has_match Q ctx' X.
Proof.
  revert ctx. induction l as [|c l IH]; intros ctx Hrej Hne; [congruence|].
  cbn [rejected_by forallb] in Hrej. apply andb_true_iff in Hrej as [Hc Hl].
  cbn [app has_match].
  assert (bounded_match_at Q ctx (c :: l ++ X) = false) as ->.
  { unfold bounded_match_at. rewrite Q_cons in *. cbn [match_classes forallb] in *.
    apply andb_true_iff in Hc as [Hc _]. apply negb_true_iff in Hc. rewrite Hc. reflexivity. }
  cbn [orb]. destruct l as [|d l]; [exists (Some c); reflexivity|].
  apply IH; [exact Hl|discriminate].
Qed.

(** A match of [P] does not begin right after a word character. *)
Lemma no_match_after_word prev s :
  is_word_at prev = true -> bounded_match_at P prev s = false.
Proof.
  intros Hprev. unfold bounded_match_at. rewrite P_cons.
  destruct s as [|c s]; [reflexivity|]. cbn [match_classes].
  destruct (p0 c) eqn:Hc; [|reflexivity].
  destruct (match_classes P' s); [|reflexivity].
  unfold word_boundary. cbn [head is_word_at]. rewrite Hprev, (p0_word c Hc). reflexivity.
Qed.

Lemma replace_bounded_head prev s :
  is_word_at prev = true ->
  head (replace_bounded P ph prev 0 s) = head s.
Proof.
  intros Hprev. destruct s as [|c s]; [reflexivity|]. cbn [replace_bounded].
  rewrite (no_match_after_word prev (c :: s) Hprev). reflexivity.
Qed.

(** Classes that reject the placeholder read the same code units off the
    output of the scan as off its input. *)
Lemma match_classes_replace_bounded (R : list (code_unit -> bool)) prev s r :
  rejected_by R ph = true ->
  match_classes R (replace_bounded P ph prev 0 s) = Some r ->
  exists r' pv,
    match_classes R s = Some r'
    /\ r = replace_bounded P ph pv 0 r'
    /\ firstn (length R) (replace_bounded P ph prev 0 s) = firstn (length R) s
    /\ (R = [] /\ pv = prev
        \/ exists p c, last R = Some p /\ pv = Some c /\ p c = true).
Proof.
  revert prev s. induction R as [|q R IH]; intros prev s Hrej H.
  - injection H as <-. exists s, prev. repeat split; auto.
  - destruct s as [|c s]; [discriminate|]. cbn [replace_bounded] in *.
    assert (Hq : forallb (fun x => negb (q x)) ph = true /\ rejected_by R ph = true).
    { clear -Hrej. unfold rejected_by in *. induction ph as [|x l IHl]; [auto|].
      cbn [forallb] in *. apply andb_true_iff in Hrej as [Hx Hl].
      apply andb_true_iff in Hx as [Hx1 Hx2]. destruct (IHl Hl) as [H1 H2].
      rewrite Hx1, Hx2, H1. auto. }
    destruct Hq as [Hq HR].
    destruct (bounded_match_at P prev (c :: s)).
    + destruct ph as [|x l]; [congruence|]. cbn [app match_classes forallb] in *.
      apply andb_true_iff in Hq as [Hq _]. apply negb_true_iff in Hq.
      rewrite Hq in H. discriminate.
    + cbn [match_classes] in *. destruct (q c) eqn:Hqc; [|discriminate].
      destruct (IH (Some c) s HR H) as (r' & pv & Hm & Hr & Hfirst & Hpv).
      exists r', pv. split; [exact Hm|]. split; [exact Hr|].
      split; [cbn [length firstn]; rewrite Hfirst; reflexivity|].
      right. destruct Hpv as [[-> ->] | (p & d & Hl & -> & Hpd)].
      * exists q, c. auto.
      * exists p, d. split; [|auto]. destruct R; [discriminate|].
        rewrite last_cons_cons. exact Hl.
Qed.

(** A match of [Q] at a copied code unit of the output is a match of [Q]
    at that code unit of the input. *)
Lemma bounded_match_at_copied prev c s :
  bounded_match_at Q prev (c :: replace_bounded P ph (Some c) 0 s) = true ->
  bounded_match_at Q prev (c :: s) = true.
Proof.
  unfold bounded_match_at. rewrite Q_cons. cbn [match_classes length firstn head].
  destruct (q0 c) eqn:Hc; [|discriminate].
  destruct (match_classes Q' (replace_bounded P ph (Some c) 0 s)) as [r|] eqn:Hm;
    [|discriminate].
  assert (HQ' : rejected_by Q' ph = true).
  { clear -ph_rejected Q_cons. rewrite Q_cons in ph_rejected. unfold rejected_by in *.
    induction ph as [|x l IHl]; [reflexivity|]. cbn [forallb] in *.
    apply andb_true_iff in ph_rejected as [Hx Hl].
    apply andb_true_iff in Hx as [_ Hx]. rewrite Hx, (IHl Hl). reflexivity. }
  destruct (match_classes_replace_bounded Q' (Some c) s r HQ' Hm)
    as (r' & pv & -> & -> & -> & Hpv).
  intros H. apply andb_true_iff in H as [Hb Ha]. rewrite Hb. cbn [andb].
  rewrite replace_bounded_head in Ha; [exact Ha|].
  destruct Hpv as [[HQnil ->] | (p & d & Hl & -> & Hpd)].
  - cbn. apply (Q_last_word q0 c); [|exact Hc]. rewrite Q_cons, HQnil. reflexivity.
  - cbn. apply (Q_last_word p d); [|exact Hpd]. rewrite Q_cons.
    destruct Q'; [discriminate|]. rewrite last_cons_cons. exact Hl.
Qed.

(** A match of [Q] in the output of the scan comes from a match of [Q] at
    a copied position of the input.  During a match of [P] the scan still
    has the classes [R] to pass, and the code unit after them is no word
    character. *)
Lemma output_match_is_copied s : forall prev skip ctx,
  (skip = 0 /\ ctx = prev
   \/ exists R rest, length R = skip /\ match_classes R s = Some rest
                     /\ is_word_at (head rest) = false) ->
  has_match Q ctx (replace_bounded P ph prev skip s) = true ->
  has_copied_match Q P prev skip s = true.
Proof.
  induction s as [|c s IH]; intros prev skip ctx Hpre; [discriminate|].
  destruct skip as [|k]; cbn [replace_bounded has_copied_match].
  - destruct (bounded_match_at P prev (c :: s)) eqn:HP.
    + intros Hm.
      destruct (has_match_placeholder ph ctx
                  (replace_bounded P ph (Some c) (length P - 1) s) ph_rejected ph_not_nil)
        as [ctx' E].
      rewrite E in Hm. apply (IH _ _ ctx'); [right|exact Hm].
      destruct (bounded_match_at_after P prev (c :: s)) as (rest & Hrest & Hword);
        [rewrite P_cons; discriminate|exact P_last_word|exact HP|].
      rewrite P_cons in *. cbn [match_classes] in Hrest.
      destruct (p0 c); [|discriminate].
      exists P', rest. split; [cbn [length]; lia|]. auto.
    + cbn [has_match]. intros Hm. apply orb_true_iff in Hm as [Hw | Hrest].
      * destruct Hpre as [[_ ->] | (R & rest & HR & Hrest & Hword)].
        -- rewrite (bounded_match_at_copied prev c s Hw). reflexivity.
        -- destruct R; [|discriminate]. injection Hrest as <-.
           rewrite (bounded_match_at_head Q q0 Q' ctx
                      (c :: replace_bounded P ph (Some c) 0 s) Q_cons q0_word Hword) in Hw.
           discriminate.
      * rewrite (IH _ _ _ (or_introl (conj eq_refl eq_refl)) Hrest). apply orb_true_r.
  - destruct Hpre as [[[=] _] | (R & rest & HR & Hrest & Hword)].
    destruct R as [|x R]; [discriminate|]. cbn [match_classes] in Hrest.
    destruct (x c); [|discriminate]. injection HR as HR.
    apply IH. right. exists R, rest. auto.
Qed.

(** Among the copied positions there is no match of [P] itself. *)
Lemma has_copied_match_self s : forall prev skip, has_copied_match P P prev skip s = false.
Proof.
  induction s as [|c s IH]; intros prev skip; [reflexivity|].
  destruct skip; cbn [has_copied_match]; [|apply IH].
  destruct (bounded_match_at P prev (c :: s)); [apply IH|]. cbn. apply IH.
Qed.

Lemma has_copied_match_has_match s : forall prev skip,
  has_copied_match Q P prev skip s = true -> has_match Q prev s = true.
Proof.
  induction s as [|c s IH]; intros prev skip; [discriminate|].
  cbn [has_copied_match has_match]. destruct skip.
  - destruct (bounded_match_at P prev (c :: s)).
    + intros H. rewrite (IH _ _ H). apply orb_true_r.
    + intros H. apply orb_true_iff in H as [-> | H]; [reflexivity|].
      rewrite (IH _ _ H). apply orb_true_r.
  - intros H. rewrite (IH _ _ H). apply orb_true_r.
Qed.

(** The scan introduces no match of [Q]. *)
Lemma replace_bounded_no_new_match s prev :
  has_match Q prev s = false ->
  has_match Q prev (replace_bounded P ph prev 0 s) = false.
Proof.
  intros H. destruct (has_match Q prev (replace_bounded P ph prev 0 s)) eqn:E; [|reflexivity].
  apply output_match_is_copied in E; [|left; auto].
  apply has_copied_match_has_match in E. congruence.
Qed.

End ReplaceBounded.

(** A text without a match is left as it is. *)
Lemma replace_bounded_id pat placeholder s : forall prev,
  has_match pat prev s = false -> replace_bounded pat placeholder prev 0 s = s.
Proof.
  induction s as [|c s IH]; intros prev H; [reflexivity|].
  cbn [has_match] in H. apply orb_false_iff in H as [H1 H2].
  cbn [replace_bounded]. rewrite H1, (IH _ H2). reflexivity.
Qed.

Lemma digit_is_word c : is_digit c = true -> is_word c = true.
Proof. unfold is_digit, is_word. intros ->. reflexivity. Qed.

Lemma last_class_is_digit (pat : list (code_unit -> bool)) :
  last pat = Some is_digit ->
  forall p c, last pat = Some p -> p c = true -> is_word c = true.
Proof. intros -> p c [= <-]. apply digit_is_word. Qed.

(** One pass of the redactor leaves no match of its own pattern. *)
Lemma ssn_pass_complete s :
  has_match ssn_pattern None (replace_bounded ssn_pattern SSN_PLACEHOLDER None 0 s) = false.
Proof.
  destruct (has_match ssn_pattern None _) eqn:E; [|reflexivity].
  apply (output_match_is_copied ssn_pattern ssn_pattern SSN_PLACEHOLDER
           is_digit is_digit (tail ssn_pattern) (tail ssn_pattern)
           eq_refl eq_refl digit_is_word digit_is_word
           (last_class_is_digit ssn_pattern eq_refl)
           (last_class_is_digit ssn_pattern eq_refl)
           ltac:(discriminate) eq_refl) in E; [|left; auto].
  rewrite has_copied_match_self in E. discriminate.
Qed.

Lemma card_pass_complete s :
  has_match card_pattern None (replace_bounded card_pattern CARD_PLACEHOLDER None 0 s) = false.
Proof.
  destruct (has_match card_pattern None _) eqn:E; [|reflexivity].
  apply (output_match_is_copied card_pattern card_pattern CARD_PLACEHOLDER
           is_digit is_digit (tail card_pattern) (tail card_pattern)
           eq_refl eq_refl digit_is_word digit_is_word
           (last_class_is_digit card_pattern eq_refl)
           (last_class_is_digit card_pattern eq_refl)
           ltac:(discriminate) eq_refl) in E; [|left; auto].
  rewrite has_copied_match_self in E. discriminate.
Qed.

(** The second pass brings no SSN-shaped token back. *)
Lemma card_pass_keeps_ssn_free s :
  has_match ssn_pattern None s = false ->
  has_match ssn_pattern None (replace_bounded card_pattern CARD_PLACEHOLDER None 0 s) = false.
Proof.
  apply (replace_bounded_no_new_match card_pattern ssn_pattern CARD_PLACEHOLDER
           is_digit is_digit (tail card_pattern) (tail ssn_pattern)
           eq_refl eq_refl digit_is_word digit_is_word
           (last_class_is_digit card_pattern eq_refl)
           (last_class_is_digit ssn_pattern eq_refl)
           ltac:(discriminate) eq_refl).
Qed.

Lemma redactPII_leaves_no_match_aux (t : jsstring) :
  has_match ssn_pattern None (redactPII t) = false
  /\ has_match card_pattern None (redactPII t) = false.
Proof.
  unfold redactPII. split.
  - apply card_pass_keeps_ssn_free, ssn_pass_complete.
  - apply card_pass_complete.
Qed.

(** X1.  After redaction no SSN-shaped token [ddd-dd-dddd] and no run of
    16 digits, delimited by word boundaries, is left anywhere in the text. *)
Theorem redactPII_leaves_no_match (t : jsstring) :
  has_match ssn_pattern None (redactPII t) = false
  /\ has_match card_pattern None (redactPII t) = false.
Proof. apply redactPII_leaves_no_match_aux. Qed.

(** X2.  Redaction is idempotent. *)
Theorem redactPII_idempotent (t : jsstring) : redactPII (redactPII t) = redactPII t.
Proof.
  destruct (redactPII_leaves_no_match_aux t) as [Hssn Hcard].
  unfold redactPII at 1.
  rewrite (replace_bounded_id ssn_pattern _ _ None Hssn).
  apply (replace_bounded_id card_pattern _ _ None Hcard).
Qed.

(** X3.  A text with no SSN-shaped token and no run of 16 digits between
    word boundaries is returned unchanged. *)
Theorem redactPII_keeps_clean_text (t : jsstring) :
  has_match ssn_pattern None t = false ->
  has_match card_pattern None t = false ->
  redactPII t = t.
Proof.
  intros Hssn Hcard. unfold redactPII.
  rewrite (replace_bounded_id ssn_pattern _ _ None Hssn).
  apply (replace_bounded_id card_pattern _ _ None Hcard).
Qed.

Lemma redactPII_keeps_clean_text_witness :
  redactPII (js "Call 555-1234 or 12345678901234567 (ref x123-45-6789).")
  = js "Call 555-1234 or 12345678901234567 (ref x123-45-6789).".
Proof. apply redactPII_keeps_clean_text; vm_compute; reflexivity. Defined.

(** ** Sanitization and the stored text *)

(** X4.  Sanitizing a sanitized text changes nothing. *)
Theorem sanitize_idempotent (input : jsstring) :
  sanitizeForPostgresText (sanitizeForPostgresText input) = sanitizeForPostgresText input.
Proof.
  rewrite !sanitize_as_filter.
  induction input as [|c input IH]; [reflexivity|].
  cbn [List.filter]. destruct (negb (is_C0 c && negb (is_tab_lf_cr c))) eqn:Hc.
  - cbn [List.filter]. rewrite Hc, IH. reflexivity.
  - exact IH.
Qed.

(** The scan emits code units of its input and of the placeholder only. *)
Lemma replace_bounded_units pat placeholder s : forall prev skip,
  Forall (fun c => In c s \/ In c placeholder) (replace_bounded pat placeholder prev skip s).
Proof.
  induction s as [|c s IH]; intros prev skip; [constructor|].
  assert (Hweaken : forall l, Forall (fun x => In x s \/ In x placeholder) l ->
                              Forall (fun x => In x (c :: s) \/ In x placeholder) l).
  { intros l. apply List.Forall_impl. intros x [H | H]; [left; right; exact H | right; exact H]. }
  cbn [replace_bounded]. destruct skip; [|apply Hweaken, IH].
  destruct (bounded_match_at pat prev (c :: s)).
  - apply Forall_app. split; [|apply Hweaken, IH].
    apply List.Forall_forall. intros x Hx. right. exact Hx.
  - constructor; [left; left; reflexivity|apply Hweaken, IH].
Qed.

Lemma redactPII_units (t : jsstring) :
  Forall (fun c => In c t \/ In c SSN_PLACEHOLDER \/ In c CARD_PLACEHOLDER) (redactPII t).
Proof.
  unfold redactPII.
  pose proof (replace_bounded_units card_pattern CARD_PLACEHOLDER
                (replace_bounded ssn_pattern SSN_PLACEHOLDER None 0 t) None 0) as H2.
  pose proof (replace_bounded_units ssn_pattern SSN_PLACEHOLDER t None 0) as H1.
  rewrite List.Forall_forall in *. intros c Hc.
  destruct (H2 c Hc) as [Hin | Hin]; [|auto].
  destruct (H1 c Hin); auto.
Qed.

(** The text the pipeline hands to the store. *)
Lemma redacted_sanitized_is_clean (rawText : jsstring) :
  is_clean_text (redactPII (sanitizeForPostgresText rawText)).
Proof.
  split; [|apply redactPII_leaves_no_match_aux].
  pose proof (redactPII_units (sanitizeForPostgresText rawText)) as H.
  rewrite List.Forall_forall in *. intros c Hc.
  destruct (H c Hc) as [Hin | Hin].
  - rewrite sanitize_as_filter in Hin. apply List.filter_In in Hin as [_ Hin].
    unfold is_storable_code_unit.
    destruct (is_C0 c) eqn:H0, (is_tab_lf_cr c) eqn:Ht; try discriminate; split; auto;
      intros ->; discriminate.
  - assert (Hph : forallb (fun x => negb (x =? 0)%N && is_storable_code_unit x)
                    (SSN_PLACEHOLDER ++ CARD_PLACEHOLDER) = true) by (vm_compute; reflexivity).
    rewrite List.forallb_forall in Hph. specialize (Hph c).
    rewrite List.in_app_iff in Hph. specialize (Hph Hin).
    apply andb_true_iff in Hph as [Hz Hs]. split; [|exact Hs].
    intros ->. discriminate.
Qed.

Lemma steps_1_to_4_text lc svc file w w1 redacted d :
  Ingest.steps_1_to_4 lc svc file w = (w1, Returned (redacted, d)) ->
  exists rawText w0,
    Ingest.extractTextFromFile lc svc file w = (w0, Returned rawText)
    /\ redacted = redactPII (sanitizeForPostgresText rawText).
Proof.
  unfold Ingest.steps_1_to_4. intros H.
  apply bind_returned in H as (rawText & w0 & Hx & H).
  apply bind_returned in H as (d' & w0' & _ & H).
  injection H as _ <- _. eauto.
Qed.

(** X5.  The text of every Document written by a successful ingestion is
    the extracted text, sanitized and then redacted: it holds no null
    character, no C0 control other than tab, line feed and carriage return,
    no SSN-shaped token and no run of 16 digits. *)
Theorem ingest_stores_clean_text lc svc file w w' id :
  Ingest.POST lc svc (Returned (Some file)) w = (w', Returned (Json id)) ->
  exists doc rawText w0,
    documents (store w') !! id = Some doc
    /\ Ingest.extractTextFromFile lc svc file w = (w0, Returned rawText)
    /\ text doc = redactPII (sanitizeForPostgresText rawText)
    /\ is_clean_text (text doc).
Proof.
  intros Hpost.
  destruct (ingest_POST_created _ _ _ _ _ _ Hpost) as (w1 & w2 & redacted & d & Hs & Hc & _).
  pose proof (ingest_embedding_rows_doc lc svc file w w1 w2 redacted d id Hs Hc) as Hdoc.
  rewrite Hpost in Hdoc. cbn [fst] in Hdoc.
  destruct (steps_1_to_4_text _ _ _ _ _ _ _ Hs) as (rawText & w0 & Hx & ->).
  exists (new_document file (redactPII (sanitizeForPostgresText rawText)) d), rawText, w0.
  repeat split; try assumption; try reflexivity;
    apply redacted_sanitized_is_clean.
Qed.

Lemma ingest_stores_clean_text_witness :
  exists doc,
    documents (store (Ingest.POST toLowerCaseASCII (services_up scenario_upload)
                        (Returned (Some sample_file)) empty_world).1) !! "doc-1"%string
    = Some doc
    /\ is_clean_text (text doc).
Proof.
  edestruct (ingest_stores_clean_text toLowerCaseASCII (services_up scenario_upload)
               sample_file empty_world) as (doc & rawText & w0 & Hdoc & _ & _ & Hclean).
  - vm_compute. reflexivity.
  - exists doc. split; [exact Hdoc|exact Hclean].
Defined.

(** ** Schema discovery *)

Lemma discovery_input_length (t : jsstring) :
  (1 <= str_length (discovery_input t) <= 40000)%N.
Proof.
  unfold discovery_input.
  destruct (40000 <? str_length t)%N eqn:Hlong.
  - apply N.ltb_lt in Hlong. unfold str_length, slice0 in *.
    destruct (firstn (N.to_nat 40000) t) as [|c l] eqn:Hcut.
    + apply (f_equal (@length _)) in Hcut. rewrite length_firstn in Hcut. cbn in Hcut. lia.
    + rewrite <- Hcut, length_firstn. lia.
  - apply N.ltb_ge in Hlong. destruct t as [|c t].
    + vm_compute. split; discriminate.
    + unfold str_length in *. cbn [length] in *. lia.
Qed.

(** X6.  Whatever the length of the text, the user message sent to the
    completion service for schema discovery has between 1 and 40,000 code
    units: it is the text cut to its first 40,000 code units, or the literal
    "(empty)" for the empty text. *)
Theorem discovery_input_bounded (t : jsstring) :
  (1 <= str_length (discovery_input t) <= 40000)%N
  /\ (t = [] -> discovery_input t = js "(empty)")
  /\ (t <> [] -> discovery_input t = firstn (N.to_nat 40000) t).
Proof.
  split; [apply discovery_input_length|]. split.
  - intros ->. reflexivity.
  - intros Hne. unfold discovery_input.
    destruct (40000 <? str_length t)%N eqn:Hlong.
    + apply N.ltb_lt in Hlong. unfold slice0, str_length in *.
      destruct (firstn (N.to_nat 40000) t) eqn:Hcut; [|reflexivity].
      apply (f_equal (@length _)) in Hcut. rewrite length_firstn in Hcut. cbn in Hcut. lia.
    + apply N.ltb_ge in Hlong. destruct t; [congruence|].
      unfold str_length in Hlong. rewrite firstn_all2 by lia. reflexivity.
Qed.

(** X7.  A reply of schema discovery that is valid JSON but no object (a
    number, a string, a boolean or an array) is accepted: discovery returns
    the empty object for the schema, the extracted data and the confidence.
    The reply [null] makes it throw a TypeError. *)
Theorem discovery_of_non_object svc t parsed w :
  schema_completion svc (discovery_input t) = Returned (Some (JSONText parsed)) ->
  (is_scalar_or_array parsed = true ->
     (Ingest.discoverSchemaAndExtract svc t w).2 = Returned empty_discovery)
  /\ (parsed = JNull ->
        (Ingest.discoverSchemaAndExtract svc t w).2 = Thrown TypeError).
Proof.
  intros Hreply. unfold Ingest.discoverSchemaAndExtract.
  rewrite bind_run, call_run, Hreply. split.
  - destruct parsed; try discriminate; reflexivity.
  - intros ->. reflexivity.
Qed.

Lemma discovery_of_non_object_witness :
  (Ingest.discoverSchemaAndExtract
     (sample_services scenario_upload (Returned (Some (JSONText (JArray [])))) no_chat
                      (Returned zero_vector))
     scenario_upload empty_world).2
  = Returned empty_discovery.
Proof.
  refine (proj1 (discovery_of_non_object _ scenario_upload (JArray []) empty_world _) _);
    reflexivity.
Defined.

(** ** The calls and the writes of an ingestion *)

Lemma silent_lift {A} (o : outcome A) : silent (lift o).
Proof. intros w. reflexivity. Qed.

Lemma silent_ret {A} (a : A) : silent (mret a : Eff A).
Proof. intros w. reflexivity. Qed.

Lemma silent_throw {A} e : silent (throw e : Eff A).
Proof. intros w. reflexivity. Qed.

Lemma silent_bind {A B} (m : Eff A) (f : A -> Eff B) :
  silent m -> (forall a, silent (f a)) -> silent (m ≫= f).
Proof.
  intros Hm Hf w. rewrite bind_run. specialize (Hm w).
  destruct (m w) as [w1 [a|e]]; cbn [fst] in *; subst; [apply Hf|reflexivity].
Qed.

Lemma discoverSchemaAndExtract_trace svc t w :
  trace (Ingest.discoverSchemaAndExtract svc t w).1
  = trace w ++ [EvSchemaCompletion (discovery_input t)].
Proof.
  unfold Ingest.discoverSchemaAndExtract. rewrite bind_run, call_run.
  destruct (schema_completion svc (discovery_input t)) as [content|e]; [|reflexivity].
  match goal with |- trace (?m ?w0).1 = _ =>
    assert (Hs : silent m); [|rewrite (Hs w0); reflexivity]
  end.
  destruct content as [[| |]|]; try apply silent_throw;
    repeat (apply silent_bind; [apply silent_lift|intros ?]); apply silent_ret.
Qed.

Lemma extractTextFromFile_trace lc svc file w :
  exists reading tr,
    In reading reading_calls
    /\ trace (Ingest.extractTextFromFile lc svc file w).1 = trace w ++ tr
    /\ tr `prefix_of` reading
    /\ forall rawText, (Ingest.extractTextFromFile lc svc file w).2 = Returned rawText ->
                       tr = reading.
Proof.
  unfold Ingest.extractTextFromFile, reading_calls.
  destruct (startsWith _ _).
  - exists [EvFileText], [EvFileText]. rewrite call_run. cbn. auto 6.
  - rewrite bind_run, call_run.
    destruct (file_arrayBuffer svc file) as [[]|e].
    + destruct (_ || _).
      * exists [EvFileArrayBuffer; EvExtractText], [EvFileArrayBuffer; EvExtractText].
        rewrite call_run. cbn. rewrite <- app_assoc. auto 7.
      * exists [EvFileArrayBuffer], [EvFileArrayBuffer]. cbn. auto 6.
    + exists [EvFileArrayBuffer], [EvFileArrayBuffer]. cbn. auto 6.
Qed.

Lemma steps_1_to_4_trace lc svc file w :
  exists reading input tr,
    In reading reading_calls
    /\ trace (Ingest.steps_1_to_4 lc svc file w).1 = trace w ++ tr
    /\ tr `prefix_of` reading ++ [EvSchemaCompletion input]
    /\ forall redacted d,
         (Ingest.steps_1_to_4 lc svc file w).2 = Returned (redacted, d) ->
         tr = reading ++ [EvSchemaCompletion input].
Proof.
  destruct (extractTextFromFile_trace lc svc file w)
    as (reading & tr & Hin & Htr & Hpre & Hfull).
  unfold Ingest.steps_1_to_4. rewrite bind_run.
  destruct (Ingest.extractTextFromFile lc svc file w) as [w0 [rawText|e]];
    cbn [fst snd] in *.
  - rewrite (Hfull rawText eq_refl) in *. clear Hfull Hpre.
    set (redacted := redactPII (sanitizeForPostgresText rawText)).
    exists reading, (discovery_input redacted), (reading ++ [EvSchemaCompletion (discovery_input redacted)]).
    split; [exact Hin|].
    pose proof (discoverSchemaAndExtract_trace svc redacted w0) as Ht.
    rewrite bind_run.
    destruct (Ingest.discoverSchemaAndExtract svc redacted w0) as [w1 [d|e]];
      cbn [fst snd mret Eff_ret] in *; rewrite Ht, Htr, <- app_assoc; auto.
  - exists reading, [], tr. split; [exact Hin|]. split; [exact Htr|].
    split; [apply prefix_app_r, Hpre|discriminate].
Qed.

Lemma db_document_create_trace svc d w :
  trace (db_document_create svc d w).1 = trace w ++ [EvDocumentCreate].
Proof.
  unfold db_document_create. rewrite bind_run, call_run.
  destruct (document_create_id svc) as [id|e]; [|reflexivity].
  rewrite bind_run. cbn [get_store store].
  destruct (documents (store w) !! id); reflexivity.
Qed.

Lemma embedAndStore_trace svc id t w :
  exists tr,
    trace (Ingest.embedAndStore svc id t w).1 = trace w ++ tr
    /\ tr `prefix_of` [EvEmbeddingsCreate t; EvEmbeddingInsert id].
Proof.
  unfold Ingest.embedAndStore. rewrite bind_run, call_run.
  destruct (embeddings_create svc t) as [v|e].
  - match goal with |- context [db_insert_embedding svc id v ?w0] =>
      destruct (db_insert_embedding_run svc id v w0) as (_ & _ & Ht & _)
    end.
    eexists. rewrite Ht. cbn [trace]. rewrite <- app_assoc. split; reflexivity.
  - exists [EvEmbeddingsCreate t]. split; [reflexivity|]. eexists. reflexivity.
Qed.

(** X8.  The external calls of an ingestion are an initial segment of: the
    reading of the upload, one completion call for schema discovery, the
    insert of the Document row, one embedding call, the insert of the
    Embedding row.  So each is made at most once, and the embedding
    service is called only after the Document row was written. *)
Theorem ingest_call_order lc svc form w :
  exists tr reading input t id,
    trace (Ingest.POST lc svc form w).1 = trace w ++ tr
    /\ In reading reading_calls
    /\ tr `prefix_of` reading ++ ingest_calls input t id.
Proof.
  assert (Hnone : exists tr reading input t id,
             trace w = trace w ++ tr
             /\ In reading reading_calls
             /\ tr `prefix_of` reading ++ ingest_calls input t id).
  { exists [], [EvFileText], [], [], EmptyString. rewrite app_nil_r.
    split; [reflexivity|]. split; [left; reflexivity|apply prefix_nil]. }
  destruct form as [[file|]|e]; [|exact Hnone|exact Hnone].
  clear Hnone. rewrite ingest_POST_run.
  destruct (steps_1_to_4_trace lc svc file w) as (reading & input & tr & Hin & Htr & Hpre & Hfull).
  destruct (Ingest.steps_1_to_4 lc svc file w) as [w1 [[redacted d]|e]]; cbn [fst snd] in *.
  2: { exists tr, reading, input, [], EmptyString. split; [exact Htr|]. split; [exact Hin|].
       unfold ingest_calls.
       change (reading ++ EvSchemaCompletion input :: ?l)
         with (reading ++ ([EvSchemaCompletion input] ++ l)).
       rewrite app_assoc. apply prefix_app_r, Hpre. }
  rewrite (Hfull redacted d eq_refl) in Htr. clear Hfull Hpre tr.
  pose proof (db_document_create_trace svc (new_document file redacted d) w1) as Hc.
  destruct (db_document_create svc (new_document file redacted d) w1) as [w2 [id|e]];
    cbn [fst snd] in *.
  2: { eexists _, reading, input, [], EmptyString.
       split; [rewrite Hc, Htr, <- !app_assoc; reflexivity|]. split; [exact Hin|].
       apply prefix_app. eexists. reflexivity. }
  destruct (20 <=? str_length (trim redacted))%N.
  - destruct (embedAndStore_trace svc id redacted w2) as (tr3 & Ht3 & [k Hk]).
    destruct (Ingest.embedAndStore svc id redacted w2) as [w3 [[]|e]]; cbn [fst snd] in *;
      (exists (reading ++ [EvSchemaCompletion input; EvDocumentCreate] ++ tr3), reading,
         input, redacted, id;
       split; [rewrite Ht3, Hc, Htr, <- !app_assoc; reflexivity|]; split; [exact Hin|];
       apply prefix_app; unfold ingest_calls; exists k; cbn [app]; rewrite Hk; reflexivity).
  - eexists _, reading, input, [], EmptyString.
    split; [cbn [fst]; rewrite Hc, Htr, <- !app_assoc; reflexivity|]. split; [exact Hin|].
    apply prefix_app. eexists. reflexivity.
Qed.

(** X9.  An ingestion only adds rows: it leaves the ChatMessage table and
    every existing Document and Embedding row as they are, writes at most
    one Document row, under a key that was free, and at most one Embedding
    row, which references that Document. *)
Theorem ingest_only_adds lc svc form w :
  let w' := (Ingest.POST lc svc form w).1 in
  chatMessages (store w') = chatMessages (store w)
  /\ (store w' = store w
      \/ exists id doc,
           documents (store w) !! id = None
           /\ documents (store w') = <[id := doc]> (documents (store w))
           /\ (embeddings (store w') = embeddings (store w)
               \/ exists eid v,
                    embeddings (store w') = embeddings (store w) ++
                      [{| embedding_id := eid; embedding_documentId := id;
                          embedding_vector := v |}])).
Proof.
  cbv zeta. destruct form as [[file|]|e]; [|cbn; auto..].
  rewrite ingest_POST_run.
  pose proof (steps_1_to_4_preserving lc svc file w) as Hp.
  destruct (Ingest.steps_1_to_4 lc svc file w) as [w1 [[redacted d]|e]]; cbn [fst] in *.
  2: { rewrite Hp. auto. }
  destruct (db_document_create svc (new_document file redacted d) w1) as [w2 [id|e]] eqn:Hc.
  2: { apply db_document_create_thrown in Hc. cbn [fst]. rewrite Hc, Hp. auto. }
  apply db_document_create_returned in Hc as (_ & Hfresh & Hstore & _).
  rewrite Hp in *.
  assert (Hw2 : chatMessages (store w2) = chatMessages (store w)
                /\ documents (store w2) = <[id := new_document file redacted d]> (documents (store w))
                /\ embeddings (store w2) = embeddings (store w))
    by (rewrite Hstore; auto).
  destruct Hw2 as (Hm2 & Hd2 & He2).
  destruct (20 <=? str_length (trim redacted))%N.
  - pose proof (embedAndStore_run svc id redacted w2) as He. cbv zeta in He.
    destruct (Ingest.embedAndStore svc id redacted w2) as [w3 [[]|e]]; cbn [fst snd] in *;
      destruct He as (Hd3 & Hm3 & He3); (split; [congruence|]); right;
      exists id, (new_document file redacted d);
      (split; [exact Hfresh|]); (split; [congruence|]).
    + right. destruct He3 as (eid & v & _ & He3). exists eid, v. congruence.
    + left. congruence.
  - cbn [fst]. split; [exact Hm2|]. right. exists id, (new_document file redacted d). auto.
Qed.

(** X10.  An upload that is neither text nor PDF (by its type and by its
    name) is not handed to the text extractor: it goes through the pipeline
    as the empty text.  Schema discovery is sent the literal "(empty)", no
    embedding is computed, and a successful run stores a Document whose text
    is empty. *)
Theorem ingest_of_unreadable_upload lc svc file w :
  startsWith (js "text/") (file_type file) = false ->
  file_type file <> js "application/pdf" ->
  endsWith (js ".pdf") (lc (file_name file)) = false ->
  let run := Ingest.POST lc svc (Returned (Some file)) w in
  exists tr,
    trace run.1 = trace w ++ tr
    /\ tr `prefix_of` [EvFileArrayBuffer; EvSchemaCompletion (js "(empty)"); EvDocumentCreate]
    /\ embeddings (store run.1) = embeddings (store w)
    /\ forall id, run.2 = Returned (Json id) ->
         exists doc, documents (store run.1) !! id = Some doc /\ text doc = [].
Proof.
  intros Htext Hpdf Hname run. subst run. rewrite ingest_POST_run.
  assert (Hsteps : Ingest.steps_1_to_4 lc svc file w
            = match file_arrayBuffer svc file with
              | Thrown e =>
                  ({| store := store w; trace := trace w ++ [EvFileArrayBuffer] |}, Thrown e)
              | Returned _ =>
                  match Ingest.discoverSchemaAndExtract svc []
                          {| store := store w; trace := trace w ++ [EvFileArrayBuffer] |} with
                  | (w1, Returned d) => (w1, Returned ([], d))
                  | (w1, Thrown e) => (w1, Thrown e)
                  end
              end).
  { unfold Ingest.steps_1_to_4, Ingest.extractTextFromFile. rewrite Htext, Hname.
    assert (jsstring_eqb (file_type file) (js "application/pdf") = false) as ->
      by (apply bool_decide_eq_false; exact Hpdf).
    cbn [orb]. rewrite !bind_run, call_run.
    destruct (file_arrayBuffer svc file) as [[]|e]; [|reflexivity].
    cbn [mret Eff_ret]. rewrite bind_run.
    change (redactPII (sanitizeForPostgresText [])) with ([] : jsstring).
    destruct (Ingest.discoverSchemaAndExtract svc [] _) as [w1 [d|e]]; reflexivity. }
  rewrite Hsteps. clear Hsteps.
  destruct (file_arrayBuffer svc file) as [[]|e].
  2: { eexists. cbn [fst snd store trace]. split; [reflexivity|].
       split; [eexists; reflexivity|]. split; [reflexivity|discriminate]. }
  match goal with |- context [Ingest.discoverSchemaAndExtract svc [] ?w0] =>
    pose proof (discoverSchemaAndExtract_trace svc [] w0) as Ht;
    pose proof (discoverSchemaAndExtract_preserving svc [] w0) as Hp;
    destruct (Ingest.discoverSchemaAndExtract svc [] w0) as [w1 [d|e]]
  end; cbn [fst snd store trace] in *.
  2: { eexists. split; [rewrite Ht, <- app_assoc; reflexivity|].
       split; [eexists; reflexivity|]. split; [rewrite Hp; reflexivity|discriminate]. }
  pose proof (db_document_create_trace svc (new_document file [] d) w1) as Hct.
  destruct (db_document_create svc (new_document file [] d) w1) as [w2 [id|e]] eqn:Hc;
    cbn [fst snd] in *.
  - apply db_document_create_returned in Hc as (_ & _ & Hstore & _).
    change (20 <=? str_length (trim []))%N with false. cbn [fst snd].
    eexists. split; [rewrite Hct, Ht, <- !app_assoc; reflexivity|].
    split; [eexists; reflexivity|]. split; [rewrite Hstore, Hp; reflexivity|].
    intros id' [= <-]. exists (new_document file [] d).
    split; [rewrite Hstore; apply lookup_insert_eq|reflexivity].
  - apply db_document_create_thrown in Hc.
    eexists. split; [rewrite Hct, Ht, <- !app_assoc; reflexivity|].
    split; [eexists; reflexivity|]. split; [rewrite Hc, Hp; reflexivity|discriminate].
Qed.

Lemma ingest_of_unreadable_upload_witness :
  exists doc,
    documents (store (Ingest.POST toLowerCaseASCII (services_up scenario_upload)
                        (Returned (Some {| file_name := js "scan.PNG";
                                           file_type := js "image/png" |}))
                        empty_world).1) !! "doc-1"%string = Some doc
    /\ text doc = [].
Proof.
  edestruct (ingest_of_unreadable_upload toLowerCaseASCII (services_up scenario_upload)
               {| file_name := js "scan.PNG"; file_type := js "image/png" |} empty_world)
    as (tr & _ & _ & _ & Hdoc).
  - reflexivity.
  - vm_compute. discriminate.
  - reflexivity.
  - apply (Hdoc "doc-1"%string). vm_compute. reflexivity.
Defined.

(** ** Ordering by distance *)

Section OrderBy.

Context {A : Type} (key : A -> Q).

Lemma insert_by_perm r rows : insert_by key r rows ≡ₚ r :: rows.
Proof.
  induction rows as [|x rows IH]; [reflexivity|]. cbn [insert_by].
  destruct (Qle_bool (key r) (key x)); [reflexivity|].
  rewrite IH. apply Permutation_swap.
Qed.

Lemma order_by_perm rows : order_by key rows ≡ₚ rows.
Proof.
  induction rows as [|x rows IH]; [reflexivity|].
  cbn [order_by foldr]. rewrite insert_by_perm. fold (order_by key rows).
  rewrite IH. reflexivity.
Qed.

Lemma insert_by_ascending r rows :
  ascending_by key rows -> ascending_by key (insert_by key r rows).
Proof.
  induction rows as [|x rows IH]; intros Hs; [cbn; auto|].
  destruct Hs as [Hx Hs]. cbn [insert_by].
  destruct (Qle_bool (key r) (key x)) eqn:Hle.
  - apply Qle_bool_iff in Hle. cbn [ascending_by]. split; [|split; assumption].
    constructor; [exact Hle|].
    eapply List.Forall_impl; [|exact Hx]. intros y Hy. cbn in Hy.
    eapply Qle_trans; eassumption.
  - assert (key x <= key r)%Q as Hxr.
    { apply Qlt_le_weak, Qnot_le_lt. intros H. apply Qle_bool_iff in H. congruence. }
    cbn [ascending_by]. split; [|apply IH, Hs].
    rewrite insert_by_perm. constructor; assumption.
Qed.

Lemma order_by_ascending rows : ascending_by key (order_by key rows).
Proof.
  induction rows as [|x rows IH]; [exact I|].
  cbn [order_by foldr]. apply insert_by_ascending, IH.
Qed.

Lemma ascending_by_app l1 l2 :
  ascending_by key (l1 ++ l2) ->
  ascending_by key l1
  /\ forall a b, In a l1 -> In b l2 -> (key a <= key b)%Q.
Proof.
  induction l1 as [|x l1 IH]; [cbn; intros _; split; [exact I|intros ? ? []]|].
  cbn [app ascending_by]. intros [Hx Hs]. destruct (IH Hs) as [H1 H2].
  apply Forall_app in Hx as [Hx1 Hx2]. split; [split; assumption|].
  intros a b [<- | Ha] Hb; [|apply H2; assumption].
  rewrite List.Forall_forall in Hx2. apply Hx2, Hb.
Qed.

(** The first [k] rows in order of distance are [k] nearest rows. *)
Lemma take_order_by_nearest k rows :
  let nearest := firstn k (order_by key rows) in
  let others := skipn k (order_by key rows) in
  length nearest = Nat.min k (length rows)
  /\ ascending_by key nearest
  /\ rows ≡ₚ nearest ++ others
  /\ forall a b, In a nearest -> In b others -> (key a <= key b)%Q.
Proof.
  cbv zeta. pose proof (order_by_ascending rows) as Hs.
  rewrite <- (firstn_skipn k (order_by key rows)) in Hs.
  apply ascending_by_app in Hs as [H1 H2].
  split; [rewrite length_firstn, (Permutation_length (order_by_perm rows)); reflexivity|].
  split; [exact H1|]. split; [|exact H2].
  rewrite firstn_skipn. symmetry. apply order_by_perm.
Qed.

End OrderBy.

Lemma insert_by_distance_eq r rows :
  insert_by_distance r rows = insert_by row_distance_sq r rows.
Proof. induction rows as [|x rows IH]; cbn; [|rewrite IH]; reflexivity. Qed.

Lemma order_by_distance_eq rows : order_by_distance rows = order_by row_distance_sq rows.
Proof.
  induction rows as [|x rows IH]; [reflexivity|].
  cbn [order_by_distance order_by foldr]. fold (order_by_distance rows).
  fold (order_by row_distance_sq rows). rewrite IH. apply insert_by_distance_eq.
Qed.

Lemma l2_distance_sq_None a b : l2_distance_sq a b = None <-> length a <> length b.
Proof.
  revert b. induction a as [|x a IH]; intros [|y b]; cbn [l2_distance_sq length].
  - split; [discriminate|congruence].
  - split; [intros _; discriminate|reflexivity].
  - split; [intros _; discriminate|reflexivity].
  - specialize (IH b). destruct (l2_distance_sq a b); cbn.
    + split; [discriminate|]. intros H. exfalso. apply H. f_equal.
      destruct (Nat.eq_dec (length a) (length b)) as [E|E]; [exact E|].
      apply IH in E. discriminate.
    + split; [|reflexivity]. intros _ H. injection H as H. apply IH in H; [exact H|reflexivity].
Qed.

Lemma joined_row_eq docId d q e :
  joined_row docId d q e
  = match l2_distance_sq (embedding_vector e) q with
    | Some dist => Some {| row_id := docId; row_text := text d;
                           row_extracted := extracted d; row_schema := schema d;
                           row_distance_sq := dist |}
    | None => None
    end.
Proof. unfold joined_row. destruct (l2_distance_sq _ _); reflexivity. Qed.

Lemma joined_rows_mapM s q docId d es :
  documents s !! docId = Some d ->
  joined_rows s q docId es
  = match mapM (joined_row docId d q)
            (List.filter (fun e => bool_decide (embedding_documentId e = docId)) es) with
    | Some rows => Returned rows
    | None => Thrown DimensionMismatch
    end.
Proof.
  intros Hd. induction es as [|e es IH]; [reflexivity|].
  cbn [joined_rows List.filter].
  destruct (bool_decide_reflect (embedding_documentId e = docId)) as [Heq|Hne].
  - rewrite Heq, Hd. cbn [mapM]. rewrite (joined_row_eq docId d q e).
    destruct (l2_distance_sq (embedding_vector e) q) as [dist|]; cbn; [|reflexivity].
    rewrite IH.
    destruct (mapM _ _); reflexivity.
  - destruct (documents s !! embedding_documentId e); exact IH.
Qed.

Lemma joined_rows_no_document s q docId es :
  documents s !! docId = None -> joined_rows s q docId es = Returned [].
Proof.
  intros Hd. induction es as [|e es IH]; [reflexivity|]. cbn [joined_rows].
  destruct (documents s !! embedding_documentId e) eqn:He; [|exact IH].
  destruct (bool_decide_reflect (embedding_documentId e = docId)) as [Heq|]; [|exact IH].
  congruence.
Qed.

(** X11.  The retrieval query of a turn returns, of the rows that join the
    document with its embeddings, the three nearest to the query vector (all
    of them when there are fewer), in ascending order of distance: every
    row left out is at least as far as every row returned. *)
Theorem nearest_rows_are_nearest s q docId d rows :
  documents s !! docId = Some d ->
  nearest_rows s q docId = Returned rows ->
  exists all others,
    mapM (joined_row docId d q) (embeddings_of s docId) = Some all
    /\ length rows = Nat.min 3 (length (embeddings_of s docId))
    /\ ascending_by row_distance_sq rows
    /\ all ≡ₚ rows ++ others
    /\ forall a b, In a rows -> In b others ->
         (row_distance_sq a <= row_distance_sq b)%Q.
Proof.
  intros Hd. unfold nearest_rows. rewrite (joined_rows_mapM _ _ _ _ _ Hd).
  fold (embeddings_of s docId).
  destruct (mapM _ _) as [all|] eqn:Hall; [|discriminate].
  cbn. intros [= <-]. rewrite order_by_distance_eq.
  destruct (take_order_by_nearest row_distance_sq 3 all) as (Hlen & Hasc & Hperm & Hle).
  exists all, (skipn 3 (order_by row_distance_sq all)).
  split; [reflexivity|]. split; [|auto].
  rewrite Hlen. apply mapM_Some_1, Forall2_length in Hall. rewrite Hall. reflexivity.
Qed.

Lemma nearest_rows_are_nearest_witness :
  exists rows,
    nearest_rows plane_store [0; 0]%Q "doc-1" = Returned rows
    /\ List.map row_distance_sq rows = [1; 4; 9]%Q
    /\ length rows = 3
    /\ ascending_by row_distance_sq rows.
Proof.
  eexists. split; [vm_compute; reflexivity|]. split; [reflexivity|].
  edestruct (nearest_rows_are_nearest plane_store [0; 0]%Q "doc-1" invoice)
    as (all & others & _ & Hlen & Hasc & _); [reflexivity|vm_compute; reflexivity|].
  split; [exact Hlen|exact Hasc].
Defined.

Lemma mapM_joined_row_None docId d q es :
  mapM (joined_row docId d q) es = None
  <-> exists e, In e es /\ length (embedding_vector e) <> length q.
Proof.
  induction es as [|e es IH]; cbn [mapM].
  - split; [discriminate|intros (e & [] & _)].
  - rewrite (joined_row_eq docId d q e).
    destruct (l2_distance_sq (embedding_vector e) q) as [dist|] eqn:Hdist; cbn.
    + destruct (mapM (joined_row docId d q) es) as [rows|]; cbn.
      * split; [discriminate|]. intros (e' & [<- | He'] & Hlen).
        -- apply l2_distance_sq_None in Hlen. congruence.
        -- assert (Some rows = None) as H by (apply IH; exists e'; auto).
           discriminate.
      * split; [|reflexivity]. intros _.
        destruct (proj1 IH eq_refl) as (e' & He' & Hlen). exists e'. split; [right|]; assumption.
    + split; [|reflexivity]. intros _. exists e. split; [left; reflexivity|].
      apply l2_distance_sq_None, Hdist.
Qed.

(** X12.  For a stored document, the retrieval query throws a dimension
    mismatch exactly when one of the embeddings of the document has a
    dimension other than that of the query vector. *)
Theorem nearest_rows_throws s q docId d :
  documents s !! docId = Some d ->
  (exists e, In e (embeddings_of s docId)
             /\ length (embedding_vector e) <> length q)
  <-> nearest_rows s q docId = Thrown DimensionMismatch.
Proof.
  intros Hd. unfold nearest_rows. rewrite (joined_rows_mapM _ _ _ _ _ Hd).
  fold (embeddings_of s docId). rewrite <- (mapM_joined_row_None docId d).
  destruct (mapM _ _) as [all|]; cbn; split; intros H; (reflexivity || discriminate H).
Qed.

Lemma nearest_rows_throws_witness :
  nearest_rows plane_store [0]%Q "doc-1" = Thrown DimensionMismatch.
Proof.
  apply (proj1 (nearest_rows_throws plane_store [0]%Q "doc-1" invoice eq_refl)).
  exists {| embedding_id := "emb-1"; embedding_documentId := "doc-1";
            embedding_vector := [3; 0]%Q |}.
  split; [left; reflexivity|discriminate].
Defined.

(** ** What a turn writes *)

(** X13.  A request the chat route rejects with a status other than 500
    leaves the store unchanged and made at most one external call, the
    lookup of the document: status 400 without any call when [documentId]
    or [messages] is missing, 404 after the lookup when the document does
    not exist, 400 after the lookup when the last message is not the
    user's. *)
Theorem chat_rejects_without_writing lc inh svc body w status error :
  (Chat.POST lc inh svc body w).2 = Returned (JsonError status error) ->
  status <> 500%N ->
  let w' := (Chat.POST lc inh svc body w).1 in
  store w' = store w
  /\ ((status = 400%N /\ error = "Missing documentId or messages"%string
       /\ trace w' = trace w)
      \/ exists b id,
           body = Returned b /\ Chat.body_documentId b = Some id
           /\ trace w' = trace w ++ [EvDocumentFindUnique id]
           /\ ((status = 404%N /\ error = "Document not found"%string
                /\ documents (store w) !! id = None)
               \/ (status = 400%N /\ error = "Last message must be from user"%string
                   /\ is_Some (documents (store w) !! id)))).
Proof.
  cbv zeta. rewrite chat_POST_run.
  destruct body as [b|e]; cbn [fst snd]; [|intros [= <- _] []; reflexivity].
  destruct (Chat.body_documentId b) as [documentId|] eqn:Hid;
    [|intros [= <- <-] _; split; [reflexivity|left; auto]].
  destruct (Chat.body_messages b) as [messages|];
    [|intros [= <- <-] _; split; [reflexivity|left; auto]].
  destruct (bool_decide (documentId = EmptyString));
    [intros [= <- <-] _; split; [reflexivity|left; auto]|].
  cbv zeta.
  destruct (document_findUnique_fault svc); cbn [fst snd]; [intros [= <- _] []; reflexivity|].
  destruct (documents (store w) !! documentId) as [document|] eqn:Hdoc; cbn [fst snd].
  2: { intros [= <- <-] _. split; [reflexivity|]. right. exists b, documentId.
       split; [reflexivity|]. split; [exact Hid|]. split; [reflexivity|]. left. auto. }
  assert (Hlast : forall s e' (r := @JsonError Chat.Reply 400 "Last message must be from user"),
            Returned r = Returned (JsonError s e') ->
            s = 400%N /\ e' = "Last message must be from user"%string /\ is_Some (Some document))
    by (intros s e' r [= <- <-]; eauto).
  destruct (last messages) as [lastMessage|]; cbn [fst snd].
  2: { intros H _. apply Hlast in H as (-> & -> & Hs). split; [reflexivity|].
       right. exists b, documentId.
       split; [reflexivity|]. split; [exact Hid|]. split; [reflexivity|]. right. auto. }
  destruct (jsstring_eqb (role lastMessage) (js "user")); cbn [fst snd].
  2: { intros H _. apply Hlast in H as (-> & -> & Hs). split; [reflexivity|].
       right. exists b, documentId.
       split; [reflexivity|]. split; [exact Hid|]. split; [reflexivity|]. right. auto. }
  destruct (Chat.respond lc inh svc documentId document messages lastMessage _)
    as [w1 [reply|e]]; cbn [fst snd]; [discriminate|].
  intros [= <- _] []. reflexivity.
Qed.

Lemma chat_rejects_without_writing_witness :
  let body := Returned {| Chat.body_messages := Some [question];
                          Chat.body_documentId := Some "doc-9"%string |} in
  let run := Chat.POST toLowerCaseASCII no_inherited (chat_services chat_without_tools)
               body invoice_world in
  run.2 = Returned (JsonError 404 "Document not found")
  /\ store run.1 = store invoice_world
  /\ trace run.1 = [EvDocumentFindUnique "doc-9"].
Proof.
  cbv zeta.
  assert (H : (Chat.POST toLowerCaseASCII no_inherited (chat_services chat_without_tools)
                 (Returned {| Chat.body_messages := Some [question];
                              Chat.body_documentId := Some "doc-9"%string |})
                 invoice_world).2
              = Returned (JsonError 404 "Document not found"))
    by (vm_compute; reflexivity).
  split; [exact H|].
  destruct (chat_rejects_without_writing _ _ _ _ _ _ _ H) as (Hs & _); [discriminate|].
  split; [exact Hs|]. vm_compute. reflexivity.
Defined.

(** X14.  Whatever its outcome, a chat turn returns a response, leaves the
    Document and Embedding tables unchanged and only appends ChatMessage
    rows, for the document of the request, which exists: the row of the
    user's message followed by the row of the reply when it answers, and
    nothing or the user's row alone when it answers with an error, whose
    status is then 500. *)
Theorem chat_turn_writes lc inh svc body w :
  let run := Chat.POST lc inh svc body w in
  documents (store run.1) = documents (store w)
  /\ embeddings (store run.1) = embeddings (store w)
  /\ exists r new,
       run.2 = Returned r
       /\ chatMessages (store run.1) = chatMessages (store w) ++ new
       /\ (new = []
           \/ exists b id messages lastMessage uid,
                body = Returned b
                /\ Chat.body_documentId b = Some id
                /\ Chat.body_messages b = Some messages
                /\ last messages = Some lastMessage
                /\ is_Some (documents (store w) !! id)
                /\ match r with
                   | Json reply =>
                       exists aid, new = [user_row uid id lastMessage;
                                          assistant_row aid id reply]
                   | JsonError status _ =>
                       status = 500%N /\ new = [user_row uid id lastMessage]
                   end)
       /\ forall reply, r = Json reply -> length new = 2.
Proof.
  cbv zeta. rewrite chat_POST_run.
  assert (Hnone : forall (tr : list Event) status error,
            let w0 := {| store := store w; trace := tr |} in
            let run := (w0, Returned (@JsonError Chat.Reply status error)) in
            documents (store run.1) = documents (store w)
            /\ embeddings (store run.1) = embeddings (store w)
            /\ exists r new,
                 run.2 = Returned r
                 /\ chatMessages (store run.1) = chatMessages (store w) ++ new
                 /\ (new = []
                     \/ exists b id messages lastMessage uid,
                          body = Returned b
                          /\ Chat.body_documentId b = Some id
                          /\ Chat.body_messages b = Some messages
                          /\ last messages = Some lastMessage
                          /\ is_Some (documents (store w) !! id)
                          /\ match r with
                             | Json reply =>
                                 exists aid, new = [user_row uid id lastMessage;
                                                    assistant_row aid id reply]
                             | JsonError status _ =>
                                 status = 500%N /\ new = [user_row uid id lastMessage]
                             end)
                 /\ forall reply, r = Json reply -> length new = 2).
  { intros tr status error. cbv zeta. cbn [fst snd store].
    split; [reflexivity|]. split; [reflexivity|].
    eexists _, []. rewrite app_nil_r. repeat split; [left; reflexivity|discriminate]. }
  assert (Hsame : forall r : outcome (Response Chat.Reply),
            (w, r) = ({| store := store w; trace := trace w |}, r))
    by (destruct w; reflexivity).
  destruct body as [b|e]; [|rewrite Hsame; apply Hnone].
  destruct (Chat.body_documentId b) as [documentId|] eqn:Hid; [|rewrite Hsame; apply Hnone].
  destruct (Chat.body_messages b) as [messages|] eqn:Hmsgs; [|rewrite Hsame; apply Hnone].
  destruct (bool_decide (documentId = EmptyString)); [rewrite Hsame; apply Hnone|].
  cbv zeta.
  destruct (document_findUnique_fault svc); [apply Hnone|].
  destruct (documents (store w) !! documentId) as [document|] eqn:Hdoc; [|apply Hnone].
  destruct (last messages) as [lastMessage|] eqn:Hlast; [|apply Hnone].
  destruct (jsstring_eqb (role lastMessage) (js "user")); [|apply Hnone].
  pose proof (respond_store lc inh svc documentId document messages lastMessage
                {| store := store w; trace := trace w ++ [EvDocumentFindUnique documentId] |})
    as Hr. cbv zeta in Hr.
  destruct (Chat.respond lc inh svc documentId document messages lastMessage _)
    as [w1 [reply|e]]; cbn [fst snd store] in *;
    destruct Hr as (Hd & He & new & Hm & Hnew);
    (split; [exact Hd|]); (split; [exact He|]); eexists _, new;
    (split; [reflexivity|]); (split; [exact Hm|]).
  - destruct Hnew as (uid & aid & ->). split; [|reflexivity].
    right. exists b, documentId, messages, lastMessage, uid.
    rewrite Hdoc. eauto 10.
  - split; [|discriminate]. destruct Hnew as [-> | (uid & ->)]; [left; reflexivity|].
    right. exists b, documentId, messages, lastMessage, uid.
    rewrite Hdoc. eauto 10.
Qed.

(** *** A tool that throws *)

Lemma app_self_nil {A} (l tr : list A) : l = l ++ tr -> tr = [].
Proof.
  intros H. rewrite <- (app_nil_r l) in H at 1. apply app_inv_head in H. congruence.
Qed.

Ltac read_trace Htu :=
  cbn [fst snd store trace mret Eff_ret]; rewrite ?Htu, <- ?app_assoc;
  let Htr := fresh "Htr" in
  intros Htr;
  first [apply app_self_nil in Htr | apply app_inv_head in Htr]; subst.

(** X15.  A tool call that throws fails the turn.  When the first
    completion response carries tool calls and running them throws (on
    arguments that are not JSON, for one), the route answers with status 500
    and the thrown message, the first completion call is the last call of
    the turn, and the user's message is persisted without an assistant
    message. *)
Theorem chat_tool_failure lc inh svc b id document w tr request first calls e :
  Chat.body_documentId b = Some id ->
  documents (store w) !! id = Some document ->
  let run := Chat.POST lc inh svc (Returned b) w in
  trace run.1 = trace w ++ tr ->
  head (completion_requests tr) = Some request ->
  chat_completion svc request = Returned first ->
  tool_calls first = Some calls ->
  Chat.run_tool_calls lc inh document calls [] = Thrown e ->
  run.2 = Returned (JsonError 500 (message_or "Unknown error" e))
  /\ completion_requests tr = [request]
  /\ last tr = Some (EvChatCompletion request)
  /\ exists uid lastMessage,
       chatMessages (store run.1)
       = chatMessages (store w) ++ [user_row uid id lastMessage].
Proof.
  intros Hid Hdoc. cbv zeta. rewrite chat_POST_run, Hid.
  intros Htr Hhead Hfirst Hcalls Hrun. revert Htr.
  destruct (Chat.body_messages b) as [messages|]; [|read_trace Hid; discriminate].
  destruct (bool_decide (id = EmptyString)); [read_trace Hid; discriminate|].
  cbv zeta. destruct (document_findUnique_fault svc); [read_trace Hid; discriminate|].
  rewrite Hdoc.
  destruct (last messages) as [lastMessage|]; [|read_trace Hid; discriminate].
  destruct (jsstring_eqb (role lastMessage) (js "user")); [|read_trace Hid; discriminate].
  unfold Chat.respond. rewrite bind_run.
  pose proof (db_chatMessage_create_run svc id (js "user") (content lastMessage) None
                {| store := store w; trace := trace w ++ [EvDocumentFindUnique id] |}) as Hu.
  cbv zeta in Hu.
  destruct (db_chatMessage_create svc id (js "user") (content lastMessage) None _)
    as [wa [[]|e0]]; cbn [fst snd store trace] in Hu; destruct Hu as (Htu & _ & _ & Hmu).
  2: { read_trace Htu. discriminate. }
  destruct Hmu as (uid & Hmu).
  rewrite bind_run, call_run.
  destruct (embeddings_create svc (content lastMessage)) as [v|e0];
    [|read_trace Htu; discriminate].
  rewrite bind_run, db_nearest_query_run. cbn [store trace].
  destruct (match nearest_query_fault svc with
            | Some e0 => Thrown e0
            | None => nearest_rows (store wa) v id
            end) as [rows|e0]; [|read_trace Htu; discriminate].
  cbv zeta. fold (first_request rows document messages).
  rewrite bind_run, call_run. cbn [store trace].
  destruct (chat_completion svc (first_request rows document messages)) as [first'|e0]
    eqn:Hc.
  2: { read_trace Htu. injection Hhead as <-. congruence. }
  destruct (tool_calls first') as [[|c cs]|] eqn:Htc.
  - rewrite bind_run.
    match goal with |- context [db_chatMessage_create ?a ?b ?c ?d ?e ?w0] =>
      pose proof (db_chatMessage_create_run a b c d e w0) as Ha; cbv zeta in Ha;
      destruct (db_chatMessage_create a b c d e w0) as [wz [[]|e']]
    end; cbn [fst snd store trace] in Ha; destruct Ha as (Hta & _);
      cbn [fst snd mret Eff_ret]; rewrite Hta; read_trace Htu;
      injection Hhead as <-; rewrite Hc in Hfirst; injection Hfirst as ->;
      rewrite Htc in Hcalls; injection Hcalls as <-; discriminate.
  - rewrite bind_run. cbn [lift].
    destruct (Chat.run_tool_calls lc inh document (c :: cs) []) as [results|e1] eqn:Hr.
    + rewrite bind_run, call_run. cbn [store trace].
      match goal with |- context [chat_completion svc ?second] =>
        destruct (chat_completion svc second) as [final|e2]
      end.
      2: { read_trace Htu. injection Hhead as <-. rewrite Hc in Hfirst.
           injection Hfirst as ->. congruence. }
      rewrite bind_run.
      match goal with |- context [db_chatMessage_create ?a ?b ?c ?d ?e ?w0] =>
        pose proof (db_chatMessage_create_run a b c d e w0) as Ha; cbv zeta in Ha;
        destruct (db_chatMessage_create a b c d e w0) as [wz [[]|e']]
      end; cbn [fst snd store trace] in Ha; destruct Ha as (Hta & _);
        cbn [fst snd mret Eff_ret]; rewrite Hta; read_trace Htu;
        injection Hhead as <-; rewrite Hc in Hfirst; injection Hfirst as ->; congruence.
    + read_trace Htu. injection Hhead as <-. rewrite Hc in Hfirst. injection Hfirst as ->.
      assert (e1 = e) as -> by congruence.
      split; [reflexivity|]. split; [reflexivity|]. split; [reflexivity|].
      exists uid, lastMessage. exact Hmu.
  - rewrite bind_run.
    match goal with |- context [db_chatMessage_create ?a ?b ?c ?d ?e ?w0] =>
      pose proof (db_chatMessage_create_run a b c d e w0) as Ha; cbv zeta in Ha;
      destruct (db_chatMessage_create a b c d e w0) as [wz [[]|e']]
    end; cbn [fst snd store trace] in Ha; destruct Ha as (Hta & _);
      cbn [fst snd mret Eff_ret]; rewrite Hta; read_trace Htu;
      injection Hhead as <-; rewrite Hc in Hfirst; injection Hfirst as ->; congruence.
Qed.

Lemma chat_tool_failure_witness :
  let run := Chat.POST toLowerCaseASCII no_inherited (chat_services chat_malformed)
               (Returned question_body) invoice_world in
  run.2 = Returned (JsonError 500 "Unexpected token in JSON")
  /\ length (completion_requests (trace run.1)) = 1
  /\ List.map message_role (chatMessages (store run.1)) = [js "user"].
Proof.
  cbv zeta.
  edestruct (chat_tool_failure toLowerCaseASCII no_inherited (chat_services chat_malformed)
               question_body "doc-1" invoice invoice_world
               (trace (Chat.POST toLowerCaseASCII no_inherited (chat_services chat_malformed)
                         (Returned question_body) invoice_world).1)
               (default [] (head (completion_requests
                  (trace (Chat.POST toLowerCaseASCII no_inherited
                            (chat_services chat_malformed)
                            (Returned question_body) invoice_world).1))))
               {| assistant_content := None; tool_calls := Some [malformed_call] |}
               [malformed_call] SyntaxError)
    as (H1 & H2 & H3 & uid & lastMessage & H4);
    [reflexivity|reflexivity|reflexivity|vm_compute; reflexivity|reflexivity
    |reflexivity|reflexivity|].
  split; [exact H1|]. split; [rewrite H2; reflexivity|]. rewrite H4. reflexivity.
Defined.

(** ** The constraints of the schema *)

Lemma existsb_id_fresh {A} (key : A -> string) id rows :
  Forall (fun r => key r <> id) rows ->
  existsb (fun r => bool_decide (key r = id)) rows = false.
Proof.
  induction 1 as [|r rows Hr _ IH]; [reflexivity|]. cbn [existsb].
  rewrite bool_decide_false by exact Hr. exact IH.
Qed.

(** X16.  The Embedding row of an ingestion passes the foreign-key check
    of the schema, because the route inserts it for the id of the Document
    row it has just written.  When steps 1 to 4 return, the store hands out
    an id that is free for the Document row, the redacted text has at least
    20 code units once trimmed, the embedding service returns a vector of
    3072 dimensions and the store hands out an id that is free for the
    Embedding row, the ingestion answers with the document id, and the
    store holds the new Document row and one more Embedding row, which
    references it. *)
Theorem ingest_writes_both_rows lc svc file w w1 redacted d id v eid :
  Ingest.steps_1_to_4 lc svc file w = (w1, Returned (redacted, d)) ->
  document_create_id svc = Returned id ->
  documents (store w) !! id = None ->
  (20 <= str_length (trim redacted))%N ->
  embeddings_create svc redacted = Returned v ->
  N.of_nat (length v) = EMBEDDING_DIMENSIONS ->
  embedding_insert_id svc = Returned eid ->
  Forall (fun e => embedding_id e <> eid) (embeddings (store w)) ->
  let run := Ingest.POST lc svc (Returned (Some file)) w in
  run.2 = Returned (Json id)
  /\ documents (store run.1)
     = <[id := new_document file redacted d]> (documents (store w))
  /\ embeddings (store run.1)
     = embeddings (store w) ++
       [{| embedding_id := eid; embedding_documentId := id; embedding_vector := v |}]
  /\ chatMessages (store run.1) = chatMessages (store w).
Proof.
  intros Hsteps Hid Hfree Hlong Hv Hdim Heid Hefree. cbv zeta.
  pose proof (steps_1_to_4_preserving lc svc file w) as Hstore.
  rewrite Hsteps in Hstore. cbn [fst] in Hstore.
  rewrite ingest_POST_run, Hsteps.
  unfold db_document_create. rewrite bind_run, call_run, Hid, bind_run.
  cbn [get_store store]. rewrite Hstore, Hfree.
  rewrite bind_run. cbn [put_store mret Eff_ret].
  apply N.leb_le in Hlong. rewrite Hlong.
  unfold Ingest.embedAndStore. rewrite bind_run, call_run, Hv.
  unfold db_insert_embedding. rewrite bind_run, call_run, Heid, bind_run.
  cbn [get_store store trace embeddings documents chatMessages].
  rewrite (existsb_id_fresh embedding_id eid _ Hefree).
  apply N.eqb_eq in Hdim. rewrite Hdim. cbn [negb].
  rewrite lookup_insert_eq. cbn [put_store fst snd store documents embeddings chatMessages].
  auto.
Qed.

Lemma ingest_writes_both_rows_witness :
  let run := Ingest.POST toLowerCaseASCII (services_up scenario_upload)
               (Returned (Some sample_file)) empty_world in
  run.2 = Returned (Json "doc-1"%string)
  /\ List.map embedding_documentId (embeddings (store run.1)) = ["doc-1"%string].
Proof.
  cbv zeta.
  edestruct (ingest_writes_both_rows toLowerCaseASCII (services_up scenario_upload)
               sample_file empty_world)
    as (Hrun & _ & Hrows & _);
    [vm_compute; reflexivity|reflexivity|reflexivity|vm_compute; discriminate
    |reflexivity|vm_compute; reflexivity|reflexivity|constructor|].
  split; [exact Hrun|]. rewrite Hrows. reflexivity.
Defined.

Lemma invoice_world_satisfies_constraints : satisfies_constraints (store invoice_world).
Proof.
  unfold satisfies_constraints. cbn [store invoice_world documents embeddings chatMessages].
  split; [|split; [constructor|split; [|constructor]]].
  - constructor; [|constructor]. split; [exists invoice; reflexivity|vm_compute; reflexivity].
  - cbn. apply NoDup_singleton.
Qed.

(** X17.  In a store that satisfies the constraints, retrieval for an
    existing document with a query vector of 3072 dimensions does not
    throw: it returns min(3, number of embeddings of the document) rows,
    each with the id, text, extracted data and schema of that document. *)
Theorem retrieval_under_constraints s q docId d :
  satisfies_constraints s ->
  documents s !! docId = Some d ->
  N.of_nat (length q) = EMBEDDING_DIMENSIONS ->
  exists rows,
    nearest_rows s q docId = Returned rows
    /\ length rows = Nat.min 3 (length (embeddings_of s docId))
    /\ Forall (fun r => row_id r = docId /\ row_text r = text d
                        /\ row_extracted r = extracted d /\ row_schema r = schema d) rows.
Proof.
  intros (He & _) Hd Hq. unfold nearest_rows. rewrite (joined_rows_mapM _ _ _ _ _ Hd).
  fold (embeddings_of s docId).
  destruct (mapM _ _) as [all|] eqn:Hall.
  - cbn. eexists. split; [reflexivity|]. rewrite order_by_distance_eq.
    destruct (take_order_by_nearest row_distance_sq 3 all) as (Hlen & _ & _ & _).
    split.
    + rewrite Hlen. apply mapM_Some_1, Forall2_length in Hall. rewrite Hall. reflexivity.
    + apply Forall_take. rewrite <- order_by_distance_eq. apply order_by_distance_Forall.
      apply mapM_Some_1 in Hall. clear -Hall.
      induction Hall as [|e r es rs Her _ IH]; constructor; [|exact IH].
      rewrite joined_row_eq in Her. destruct (l2_distance_sq _ _); [|discriminate].
      injection Her as <-. cbn. auto.
  - exfalso. apply mapM_joined_row_None in Hall as (e & Hin & Hlen).
    unfold embeddings_of in Hin. apply filter_In in Hin as [Hin _].
    rewrite List.Forall_forall in He. destruct (He e Hin) as [_ Hdim]. apply Hlen, Nat2N.inj. congruence.
Qed.

Lemma retrieval_under_constraints_witness :
  exists rows,
    nearest_rows (store invoice_world) zero_vector "doc-1" = Returned rows
    /\ length rows = 1.
Proof.
  destruct (retrieval_under_constraints (store invoice_world) zero_vector "doc-1" invoice
              invoice_world_satisfies_constraints eq_refl)
    as (rows & Hrows & Hlen & _); [vm_compute; reflexivity|].
  exists rows. split; [exact Hrows|exact Hlen].
Defined.

(** ** Splitting and joining *)

Lemma split_on_free sep w : ~ In sep w -> split_on sep w = [w].
Proof.
  induction w as [|c w IH]; intros Hw; [reflexivity|]. cbn [split_on].
  destruct (N.eqb_spec c sep) as [->|Hc]; [exfalso; apply Hw; left; reflexivity|].
  rewrite IH; [reflexivity|]. intros H. apply Hw. right. exact H.
Qed.

Lemma split_on_app_sep sep w s :
  ~ In sep w -> split_on sep (w ++ sep :: s) = w :: split_on sep s.
Proof.
  induction w as [|c w IH]; intros Hw; cbn [app split_on].
  - rewrite N.eqb_refl. reflexivity.
  - destruct (N.eqb_spec c sep) as [->|Hc]; [exfalso; apply Hw; left; reflexivity|].
    rewrite IH; [reflexivity|]. intros H. apply Hw. right. exact H.
Qed.

Lemma split_on_no_sep sep s : Forall (fun line => ~ In sep line) (split_on sep s).
Proof.
  induction s as [|c s IH]; cbn [split_on]; [repeat constructor; intros []|].
  destruct (N.eqb_spec c sep) as [->|Hc]; [constructor; [intros []|exact IH]|].
  destruct (split_on sep s) as [|w ws]; [repeat constructor; intros [H|[]]; congruence|].
  inversion IH as [|? ? Hw Hws]; subst. constructor; [|exact Hws].
  intros [H|H]; [congruence|exact (Hw H)].
Qed.

(** Splitting what was joined gives the parts back. *)
Lemma split_on_join sep parts :
  parts <> [] -> Forall (fun part => ~ In sep part) parts ->
  split_on sep (join [sep] parts) = parts.
Proof.
  induction parts as [|w ws IH]; [congruence|]. intros _ Hfree.
  inversion Hfree as [|? ? Hw Hws]; subst.
  destruct ws as [|w' ws]; [apply split_on_free, Hw|].
  change (join [sep] (w :: w' :: ws)) with (w ++ sep :: join [sep] (w' :: ws)).
  rewrite (split_on_app_sep _ _ _ Hw), IH; [reflexivity|discriminate|exact Hws].
Qed.

(** Joining what was split gives the string back. *)
Lemma join_split_on sep s : join [sep] (split_on sep s) = s.
Proof.
  induction s as [|c s IH]; [reflexivity|]. cbn [split_on].
  pose proof (split_on_not_nil sep s) as Hne.
  destruct (N.eqb_spec c sep) as [->|Hc]; destruct (split_on sep s) as [|w ws];
    try congruence.
  - change (join [sep] ([] :: w :: ws)) with (sep :: join [sep] (w :: ws)).
    rewrite IH. reflexivity.
  - destruct ws as [|w' ws]; [cbn in *; congruence|].
    change (join [sep] ((c :: w) :: w' :: ws))
      with (c :: (w ++ [sep] ++ join [sep] (w' :: ws))).
    change (join [sep] (w :: w' :: ws)) with (w ++ [sep] ++ join [sep] (w' :: ws)) in IH.
    rewrite IH. reflexivity.
Qed.

Lemma filter_sublist {A} (p : A -> bool) (l : list A) : List.filter p l `sublist_of` l.
Proof.
  induction l as [|x l IH]; [constructor|]. cbn [List.filter].
  destruct (p x); [apply sublist_skip|apply sublist_cons]; exact IH.
Qed.

Lemma firstn_filter_complete {A} (p : A -> bool) n (l : list A) x :
  length (firstn n (List.filter p l)) < n -> In x l -> p x = true ->
  In x (firstn n (List.filter p l)).
Proof.
  intros Hlen Hx Hp. rewrite firstn_all2.
  - apply filter_In. auto.
  - rewrite length_firstn in Hlen. lia.
Qed.

(** ** The tools *)

Lemma filter_Forall_keep {A} (P : A -> Prop) (p : A -> bool) (l : list A) :
  Forall P l -> Forall P (List.filter p l).
Proof.
  induction 1 as [|x l Hx _ IH]; [constructor|]. cbn [List.filter].
  destruct (p x); [constructor|]; assumption.
Qed.

Lemma filter_Forall_true {A} (p : A -> bool) (l : list A) :
  Forall (fun x => p x = true) (List.filter p l).
Proof.
  induction l as [|x l IH]; [constructor|]. cbn [List.filter].
  destruct (p x) eqn:Hx; [constructor|]; assumption.
Qed.

Lemma filter_none {A} (p : A -> bool) (l : list A) :
  (forall x, In x l -> p x = false) -> List.filter p l = [].
Proof.
  induction l as [|x l IH]; [reflexivity|]. intros H. cbn [List.filter].
  rewrite (H x (or_introl eq_refl)). apply IH. intros y Hy. apply H. right. exact Hy.
Qed.

(** X18.  With a string [query] the search tool does not throw.  Its
    result is the marker when no line of the text contains the query; and
    when the result is not the marker, its lines are at most five lines of
    the document text, in the order of the document, each containing the
    query up to case, and they are all such lines when fewer than five. *)
Theorem search_tool_result lc document args s :
  get_property args (js "query") = Returned (Some (JString s)) ->
  let lines := split_on 10%N (text document) in
  let matches line := includes (lc s) (lc line) in
  exists out,
    Chat.search_document_text lc document (JSONText args) = Returned (Literal out)
    /\ ((forall line, In line lines -> matches line = false) -> out = Chat.NO_MATCH)
    /\ (out <> Chat.NO_MATCH ->
        let hits := split_on 10%N out in
        length hits <= 5
        /\ hits `sublist_of` lines
        /\ Forall (fun line => matches line = true) hits
        /\ (length hits < 5 ->
            forall line, In line lines -> matches line = true -> In line hits)).
Proof.
  intros Hq. cbv zeta. unfold Chat.search_document_text.
  cbn [Chat.parse_arguments JSON_parse mbind outcome_bind]. rewrite Hq.
  cbn [mbind outcome_bind mret outcome_ret].
  set (p := fun line => includes (lc s) (lc line)).
  set (hits := firstn 5 (List.filter p (split_on 10%N (text document)))).
  eexists. split; [reflexivity|]. split.
  - intros Hnone. subst hits. rewrite (filter_none p _ Hnone). reflexivity.
  - destruct (join [10%N] hits) as [|c out] eqn:Hjoin; [congruence|]. intros _.
    assert (Hsplit : split_on 10%N (c :: out) = hits).
    { rewrite <- Hjoin. apply split_on_join.
      - intros Hnil. rewrite Hnil in Hjoin. discriminate.
      - apply Forall_take, filter_Forall_keep, split_on_no_sep. }
    rewrite Hsplit. subst hits. split; [rewrite length_firstn; lia|].
    split; [etransitivity; [apply sublist_take|apply filter_sublist]|].
    split; [apply Forall_take, filter_Forall_true|].
    intros Hlen line Hin Hline. apply firstn_filter_complete; assumption.
Qed.

Lemma search_tool_result_witness :
  Chat.search_document_text toLowerCaseASCII invoice
    (JSONText (JObject [(js "query", JString (js "Total"))]))
  = Returned (Literal (js "Total: 100 EUR"))
  /\ split_on 10%N (js "Total: 100 EUR") `sublist_of` split_on 10%N (text invoice).
Proof.
  destruct (search_tool_result toLowerCaseASCII invoice
              (JObject [(js "query", JString (js "Total"))]) (js "Total") eq_refl)
    as (out & Hout & _ & Hhits).
  assert (out = js "Total: 100 EUR") as ->
    by (vm_compute in Hout; injection Hout as <-; reflexivity).
  split; [exact Hout|]. apply Hhits. discriminate.
Defined.

Lemma walk_path_member_at inh v path x :
  member_at v path = Some x -> Chat.walk_path inh v path = Stringified x.
Proof.
  revert v. induction path as [|key rest IH]; intros v; cbn [member_at Chat.walk_path].
  - intros [= ->]. reflexivity.
  - destruct v; try discriminate. cbn [own_property].
    destruct (own_member key members) as [m|]; [|discriminate]. cbn. apply IH.
Qed.

Lemma walk_path_beyond_scalar inh v path x more :
  member_at v path = Some x -> is_scalar x = true -> more <> [] ->
  Chat.walk_path inh v (path ++ more) = Stringified JNull.
Proof.
  revert v. induction path as [|key rest IH]; intros v; cbn [member_at app].
  - intros [= ->] Hx Hmore. destruct more as [|key more]; [congruence|].
    cbn [Chat.walk_path]. destruct x; try discriminate; reflexivity.
  - destruct v; try discriminate. cbn [Chat.walk_path own_property].
    destruct (own_member key members) as [m|]; [|discriminate]. cbn. apply IH.
Qed.

Lemma get_extracted_data_field inh document f :
  f <> [] ->
  Chat.get_extracted_data inh document (field_arguments f)
  = Returned (Chat.walk_path inh (extracted document) (split_on 46%N f)).
Proof.
  intros Hf. unfold Chat.get_extracted_data, field_arguments.
  cbn [Chat.parse_arguments JSON_parse mbind outcome_bind get_property own_member].
  unfold jsstring_eqb. rewrite bool_decide_true by reflexivity.
  cbn [mbind outcome_bind truthy]. destruct f; [congruence|]. reflexivity.
Qed.

(** X19.  A dotted [field] addresses nested members: when following the
    keys of a path (none of which contains a dot) through own members of
    the extracted data leads to a value, [get_extracted_data] returns that
    value, whatever the prototype chain holds; and a path that goes on
    beyond a value that is neither object nor array returns null. *)
Theorem get_extracted_data_follows_path inh document path v :
  Forall (fun key => ~ In 46%N key) path ->
  join [46%N] path <> [] ->
  member_at (extracted document) path = Some v ->
  Chat.get_extracted_data inh document (field_arguments (join [46%N] path))
  = Returned (Stringified v)
  /\ forall more,
       is_scalar v = true -> more <> [] -> Forall (fun key => ~ In 46%N key) more ->
       Chat.get_extracted_data inh document (field_arguments (join [46%N] (path ++ more)))
       = Returned (Stringified JNull).
Proof.
  intros Hpath Hjoin Hv.
  assert (Hne : path <> []) by (intros ->; apply Hjoin; reflexivity).
  split.
  - rewrite (get_extracted_data_field _ _ _ Hjoin).
    replace (split_on 46%N (join [46%N] path)) with path
      by (symmetry; apply split_on_join; assumption).
    f_equal. apply walk_path_member_at, Hv.
  - intros more Hscalar Hmore Hfree.
    assert (Hne' : path ++ more <> []) by (destruct path; [congruence|discriminate]).
    assert (Hfree' : Forall (fun key => ~ In 46%N key) (path ++ more))
      by (apply Forall_app; split; assumption).
    assert (Hsplit : split_on 46%N (join [46%N] (path ++ more)) = path ++ more)
      by (apply split_on_join; assumption).
    assert (Hjoin' : join [46%N] (path ++ more) <> []).
    { intros H. rewrite H in Hsplit.
      destruct path as [|key rest]; [congruence|]. destruct more as [|k more]; [congruence|].
      destruct rest; discriminate Hsplit. }
    rewrite (get_extracted_data_field _ _ _ Hjoin'), Hsplit.
    f_equal. eapply walk_path_beyond_scalar; eassumption.
Qed.

Lemma get_extracted_data_follows_path_witness :
  let document :=
    {| filename := []; text := []; schema := JObject [];
       extracted := JObject [(js "parties", JObject [(js "buyer", JString (js "ACME"))])];
       confidence := JObject []; status := [] |} in
  Chat.get_extracted_data no_inherited document (field_arguments (js "parties.buyer"))
  = Returned (Stringified (JString (js "ACME")))
  /\ Chat.get_extracted_data no_inherited document
       (field_arguments (js "parties.buyer.name"))
     = Returned (Stringified JNull).
Proof.
  cbv zeta.
  edestruct (get_extracted_data_follows_path no_inherited
               {| filename := []; text := []; schema := JObject [];
                  extracted := JObject [(js "parties",
                                         JObject [(js "buyer", JString (js "ACME"))])];
                  confidence := JObject []; status := [] |}
               [js "parties"; js "buyer"] (JString (js "ACME")))
    as (Hone & Hmore).
  - repeat constructor; vm_compute; intuition discriminate.
  - discriminate.
  - vm_compute. reflexivity.
  - split; [exact Hone|].
    apply (Hmore [js "name"]); [reflexivity|discriminate|].
    repeat constructor; vm_compute; intuition discriminate.
Defined.

(** ** The review page *)

(** X20.  Badge and icon of a status.  The check icon is shown exactly
    with the default badge, a destructive badge always has the alert icon
    and an outline badge the clock.  A secondary badge (pending,
    processing) has the clock, unless the status also mentions an error or
    a failure: the icon is then the alert, although the badge is not
    destructive. *)
Theorem status_icon_and_variant lc status :
  let variant := Review.getStatusVariant lc status in
  let icon := Review.getStatusIcon lc status in
  (icon = CheckCircle2 <-> variant = VariantDefault)
  /\ (variant = VariantDestructive -> icon = AlertCircle)
  /\ (variant = VariantOutline -> icon = Clock)
  /\ (variant = VariantSecondary ->
      icon = if mentions_failure lc status then AlertCircle else Clock).
Proof.
  cbv zeta. unfold Review.getStatusVariant, Review.getStatusIcon, mentions_failure.
  destruct (includes (js "complete") (lc status) || includes (js "success") (lc status));
    destruct (includes (js "pending") (lc status) || includes (js "processing") (lc status));
    destruct (includes (js "error") (lc status) || includes (js "failed") (lc status));
    repeat split; intros; congruence.
Qed.

Lemma status_icon_and_variant_witness :
  let status := js "Pending: retry after error" in
  Review.getStatusVariant toLowerCaseASCII status = VariantSecondary
  /\ Review.getStatusIcon toLowerCaseASCII status = AlertCircle.
Proof.
  cbv zeta.
  destruct (status_icon_and_variant toLowerCaseASCII (js "Pending: retry after error"))
    as (_ & _ & _ & H).
  split; [vm_compute; reflexivity|]. rewrite H; vm_compute; reflexivity.
Defined.

(** X21.  Every Document written by a successful ingestion has the status
    REVIEW_REQUIRED, which the review page shows with the outline badge and
    the clock icon (for a lower-casing that maps REVIEW_REQUIRED to
    review_required). *)
Theorem ingested_document_badge lc svc file w w' id :
  lc (js "REVIEW_REQUIRED") = js "review_required" ->
  Ingest.POST lc svc (Returned (Some file)) w = (w', Returned (Json id)) ->
  exists doc,
    documents (store w') !! id = Some doc
    /\ status doc = js "REVIEW_REQUIRED"
    /\ Review.getStatusVariant lc (status doc) = VariantOutline
    /\ Review.getStatusIcon lc (status doc) = Clock.
Proof.
  intros Hlc Hrun.
  apply ingest_POST_created in Hrun as (w1 & w2 & redacted & d & _ & Hcreate & Hrest).
  apply db_document_create_returned in Hcreate as (_ & _ & Hstore & _).
  assert (Hdocs : documents (store w') = documents (store w2)).
  { destruct (20 <=? str_length (trim redacted))%N; [|congruence].
    pose proof (embedAndStore_run svc id redacted w2) as He. cbv zeta in He.
    rewrite Hrest in He. apply He. }
  exists (new_document file redacted d).
  rewrite Hdocs, Hstore. cbn [documents]. rewrite lookup_insert_eq.
  split; [reflexivity|]. split; [reflexivity|].
  unfold Review.getStatusVariant, Review.getStatusIcon. cbn [status new_document].
  rewrite Hlc. split; vm_compute; reflexivity.
Qed.

Lemma ingested_document_badge_witness :
  exists doc,
    documents (store (Ingest.POST toLowerCaseASCII (services_up scenario_upload)
                        (Returned (Some sample_file)) empty_world).1) !! "doc-1"%string
    = Some doc
    /\ Review.getStatusVariant toLowerCaseASCII (status doc) = VariantOutline
    /\ Review.getStatusIcon toLowerCaseASCII (status doc) = Clock.
Proof.
  edestruct (ingested_document_badge toLowerCaseASCII (services_up scenario_upload)
               sample_file empty_world) as (doc & Hdoc & _ & Hvariant & Hicon).
  - vm_compute. reflexivity.
  - vm_compute. reflexivity.
  - exists doc. split; [exact Hdoc|]. split; [exact Hvariant|exact Hicon].
Defined.

(** ** The chat component *)

(** X22.  A request the chat component sends for a non-empty document id
    is never rejected with status 400: its messages end with the user's
    message, whose content is the trimmed input and is not empty; and the
    first row the route appends, if any, is the user's row with that
    content. *)
Theorem handleSend_request_is_accepted lc inh svc documentId messages input isLoading b w :
  handleSend_body documentId messages input isLoading = Some b ->
  documentId <> EmptyString ->
  let run := Chat.POST lc inh svc (Returned b) w in
  let userMessage := {| role := js "user"; content := trim input |} in
  trim input <> []
  /\ (forall error, run.2 <> Returned (JsonError 400 error))
  /\ exists new,
       chatMessages (store run.1) = chatMessages (store w) ++ new
       /\ (new = [] \/ exists uid rest, new = user_row uid documentId userMessage :: rest).
Proof.
  intros Hbody Hid. cbv zeta. unfold handleSend_body in Hbody.
  destruct (trim input) as [|c t] eqn:Htrim; [discriminate|].
  destruct isLoading; [discriminate|]. cbn [orb] in Hbody. injection Hbody as <-.
  split; [discriminate|].
  rewrite chat_POST_run. cbn [Chat.body_documentId Chat.body_messages].
  rewrite bool_decide_false by exact Hid. cbv zeta.
  assert (Hnone : forall (tr : list Event) status error,
            status <> 400%N ->
            let run := ({| store := store w; trace := tr |},
                        Returned (@JsonError Chat.Reply status error)) in
            (forall error', run.2 <> Returned (JsonError 400 error'))
            /\ exists new,
                 chatMessages (store run.1) = chatMessages (store w) ++ new
                 /\ (new = [] \/ exists uid rest,
                        new = user_row uid documentId
                                {| role := js "user"; content := c :: t |} :: rest)).
  { intros tr status error Hstatus. cbv zeta. cbn [fst snd store].
    split; [intros error' [= H _]; congruence|].
    exists []. rewrite app_nil_r. auto. }
  destruct (document_findUnique_fault svc); [apply Hnone; discriminate|].
  destruct (documents (store w) !! documentId) as [document|]; [|apply Hnone; discriminate].
  rewrite last_snoc. unfold jsstring_eqb at 1. cbn [role].
  rewrite bool_decide_true by reflexivity.
  pose proof (respond_store lc inh svc documentId document
                (messages ++ [{| role := js "user"; content := c :: t |}])
                {| role := js "user"; content := c :: t |}
                {| store := store w; trace := trace w ++ [EvDocumentFindUnique documentId] |})
    as Hr. cbv zeta in Hr.
  destruct (Chat.respond lc inh svc documentId document _ _ _) as [w1 [reply|e]];
    cbn [fst snd store] in *; destruct Hr as (_ & _ & new & Hm & Hnew);
    (split; [discriminate|]); exists new; (split; [exact Hm|]).
  - destruct Hnew as (uid & aid & ->). right. eauto.
  - destruct Hnew as [-> | (uid & ->)]; [left; reflexivity|right; eauto].
Qed.

Lemma handleSend_request_is_accepted_witness :
  handleSend_body "doc-1" [] (js "  What is the total? ") false = Some question_body
  /\ exists new,
       chatMessages (store (Chat.POST toLowerCaseASCII no_inherited
                              (chat_services chat_without_tools)
                              (Returned question_body) invoice_world).1)
       = chatMessages (store invoice_world) ++ new.
Proof.
  split; [vm_compute; reflexivity|].
  edestruct (handleSend_request_is_accepted toLowerCaseASCII no_inherited
               (chat_services chat_without_tools) "doc-1" []
               (js "  What is the total? ") false question_body invoice_world)
    as (_ & _ & new & Hnew & _); [vm_compute; reflexivity|discriminate|].
  exists new. exact Hnew.
Defined.

(** ** From ingestion to conversation *)

(** X23.  A document that an ingestion has written can be talked about: a
    later chat request for its id, if the id is not empty, is never
    answered with status 404, and every completion request of that turn
    begins with the system message built from the stored text, which is
    the sanitized and redacted text of the upload. *)
Theorem chat_after_ingest lc inh svc svc' file w w1 id b :
  Ingest.POST lc svc (Returned (Some file)) w = (w1, Returned (Json id)) ->
  Chat.body_documentId b = Some id ->
  id <> EmptyString ->
  let run := Chat.POST lc inh svc' (Returned b) w1 in
  (forall error, run.2 <> Returned (JsonError 404 error))
  /\ exists doc tr,
       documents (store w1) !! id = Some doc
       /\ is_clean_text (text doc)
       /\ trace run.1 = trace w1 ++ tr
       /\ Forall (begins_with_document doc) (completion_requests tr).
Proof.
  intros Hpost Hid Hne. cbv zeta.
  destruct (ingest_POST_created _ _ _ _ _ _ Hpost) as (w0 & w2 & redacted & d & Hs & Hc & _).
  pose proof (ingest_embedding_rows_doc lc svc file w w0 w2 redacted d id Hs Hc) as Hdoc.
  rewrite Hpost in Hdoc. cbn [fst] in Hdoc.
  destruct (steps_1_to_4_text _ _ _ _ _ _ _ Hs) as (rawText & w' & _ & ->).
  split.
  - rewrite chat_POST_run, Hid.
    destruct (Chat.body_messages b) as [messages|]; [|discriminate].
    rewrite bool_decide_false by exact Hne. cbv zeta.
    destruct (document_findUnique_fault svc'); [discriminate|]. rewrite Hdoc.
    destruct (last messages) as [lastMessage|]; [|discriminate].
    destruct (jsstring_eqb (role lastMessage) (js "user")); [|discriminate].
    destruct (Chat.respond lc inh svc' id _ messages lastMessage _) as [w3 [reply|e]];
      discriminate.
  - destruct (chat_POST_trace lc inh svc' (Returned b) w1)
      as (tr & documentId & query & requests & Htr & _ & _ & Hbegin & _).
    eexists _, tr. split; [exact Hdoc|].
    split; [apply redacted_sanitized_is_clean|]. split; [exact Htr|].
    apply (Hbegin b id); [reflexivity|exact Hid|exact Hdoc].
Qed.

Lemma chat_after_ingest_witness :
  let w1 := (Ingest.POST toLowerCaseASCII (services_up scenario_upload)
               (Returned (Some sample_file)) empty_world).1 in
  let run := Chat.POST toLowerCaseASCII no_inherited (chat_services chat_without_tools)
               (Returned question_body) w1 in
  exists reply doc,
    run.2 = Returned (Json reply)
    /\ documents (store w1) !! "doc-1"%string = Some doc
    /\ is_clean_text (text doc).
Proof.
  cbv zeta.
  edestruct (chat_after_ingest toLowerCaseASCII no_inherited
               (services_up scenario_upload) (chat_services chat_without_tools)
               sample_file empty_world
               (Ingest.POST toLowerCaseASCII (services_up scenario_upload)
                  (Returned (Some sample_file)) empty_world).1
               "doc-1" question_body)
    as (_ & doc & tr & Hdoc & Hclean & _);
    [vm_compute; reflexivity|reflexivity|discriminate|].
  eexists _, doc. split; [vm_compute; reflexivity|]. split; [exact Hdoc|exact Hclean].
Defined.

(** X24.  The ingestion route always answers.  A request without a file
    is answered with status 400 and "Missing file", without any call or
    write, and it is the only request answered with an error status other
    than 500.  A request whose form data cannot be read is answered with
    status 500 and the message of what was thrown ("Unknown error" when it
    has none), also without any call or write. *)
Theorem ingest_error_responses lc svc form w :
  let run := Ingest.POST lc svc form w in
  exists r,
    run.2 = Returned r
    /\ (form = Returned None -> r = JsonError 400 "Missing file" /\ run.1 = w)
    /\ (forall status error,
          r = JsonError status error -> status <> 500%N ->
          form = Returned None)
    /\ (forall e, form = Thrown e ->
          r = JsonError 500 (message_or "Unknown error" e) /\ run.1 = w).
Proof.
  cbv zeta. destruct form as [[file|]|e].
  - rewrite ingest_POST_run.
    destruct (Ingest.steps_1_to_4 lc svc file w) as [w1 [[redacted d]|e]]; cbn [fst snd].
    2: { eexists. split; [reflexivity|]. split; [discriminate|].
         split; [intros ? ? [= <- _] []; reflexivity|discriminate]. }
    destruct (db_document_create svc (new_document file redacted d) w1) as [w2 [id|e]];
      cbn [fst snd].
    2: { eexists. split; [reflexivity|]. split; [discriminate|].
         split; [intros ? ? [= <- _] []; reflexivity|discriminate]. }
    destruct (20 <=? str_length (trim redacted))%N.
    + destruct (Ingest.embedAndStore svc id redacted w2) as [w3 [[]|e]]; cbn [fst snd];
        (eexists; split; [reflexivity|]; split; [discriminate|];
         split; [|discriminate]).
      * discriminate.
      * intros ? ? [= <- _] []. reflexivity.
    + eexists. split; [reflexivity|]. split; [discriminate|]. split; discriminate.
  - eexists. split; [reflexivity|]. split; [auto|]. split; [auto|discriminate].
  - eexists. split; [reflexivity|]. split; [discriminate|].
    split; [intros ? ? [= <- _] []; reflexivity|]. intros e' [= <-]. auto.
Qed.
